(** * pictureCut: slicing page images and assembling them into a PDF

    A shallow embedding of the batch pipeline of [cut_images_to_pdf.py]:
    the file-name codec ([extract_page_count], [get_base_filename],
    [get_output_filename]), the slicer ([cut_image_vertically]), the strip
    writer ([save_cut_images]), the document assembler ([images_to_pdf]) and
    the orchestrator ([ImageCutterApp.process_folder]).

    Python values are modelled as follows.
    - A [str] is the list of its Unicode code points ([pystr]).
    - An [int] is a [Z]; [//] is floor division and raises on a zero divisor.
    - The regular expressions of the program are terms of [regex], run by a
      backtracking matcher with Python's [re] conventions: alternatives are
      tried left to right, [+] is greedy and [+?] lazy, [.] excludes the line
      feed, [^] is the start of the subject, and [$] is its end or the
      position just before a final line feed.
    - Code that touches the file system or may raise runs in the monad
      [M], a state-and-exception monad over [world]: the file system, and
      the messages handed to [appendLog_] so far.  (The timer that moves
      the queued messages into the text view runs beside the worker thread
      and is not part of the model.)
    - An [image] is an image object that has not been closed.  A function
      that closes objects of its caller returns the state in which it
      leaves them.

    The interpreter, [os] and Pillow are the environment of the program.
    Their model keeps what the pipeline can observe: which calls raise,
    which files exist afterwards and what they hold, the mode and size of
    an image.  A file either decodes as an image, is a document written by
    the pipeline, or is something else.  The operating system may refuse a
    call whatever the tree holds (a missing permission, a name longer than
    the file system takes, a full disk): the file system carries what it
    refuses, and a statement that a call succeeds assumes that it is not
    refused.  Where releases of CPython or
    Pillow differ (the digit limit of [int()], conversions from 16-bit
    greyscale, the check of crop boxes), the model takes the behaviour
    that fails, and the statements below assume nothing from such a
    failure. *)

From Stdlib Require Import ZArith NArith Ascii String List Lia.
From Stdlib Require Import DecimalString DecimalNat.
From stdpp Require Import base option list gmap.

Set Default Proof Using "Type".
Local Open Scope Z_scope.

(** ** Python strings *)

(** A Python [str]: its sequence of code points. *)
Definition pystr : Type := list N.

(** An ASCII literal as a [pystr]. *)
Definition py (s : string) : pystr :=
  map (fun a : ascii => N_of_ascii a) (list_ascii_of_string s).

(** Named code points. *)
Definition ch_lf : N := 10%N.      (* line feed *)
Definition ch_hyphen : N := 45%N.  (* - *)
Definition ch_dot : N := 46%N.     (* . *)
Definition ch_slash : N := 47%N.   (* / *)
Definition ch_di : N := 31532%N.   (* U+7B2C, the character before the page number *)
Definition ch_ye : N := 39029%N.   (* U+9875, the character after the page number *)

(** [str(i)] for a natural number: decimal, no leading zero. *)
Definition py_str_nat (n : nat) : pystr :=
  py (NilZero.string_of_uint (Nat.to_uint n)).

(** The decimal digits that [\d] and [int()] accept.  Python takes every
    code point of Unicode category Nd; the table belongs to the interpreter,
    so the development is parametric in it and only fixes what the standard
    guarantees: the ASCII digits have their values, every value is below
    ten, and no other ASCII character is a digit. *)
Record digit_class : Type := DigitClass {
  decimal_value : N -> option N;
  decimal_ascii : forall d : N, (d < 10)%N -> decimal_value (48 + d)%N = Some d;
  decimal_below_ten : forall c d : N, decimal_value c = Some d -> (d < 10)%N;
  decimal_ascii_only :
    forall c d : N, (c < 128)%N -> decimal_value c = Some d -> (48 <= c < 58)%N
}.

Definition ascii_decimal_value (c : N) : option N :=
  if ((48 <=? c) && (c <? 58))%N then Some (c - 48)%N else None.

(** The digit class with the ASCII digits only. *)
Definition ascii_digits : digit_class.
Proof.
  refine (DigitClass ascii_decimal_value _ _ _); unfold ascii_decimal_value.
  - intros d Hd.
    destruct (N.leb_spec 48 (48 + d)); [|lia].
    destruct (N.ltb_spec (48 + d) 58); [|lia].
    simpl. f_equal. lia.
  - intros c d.
    destruct (N.leb_spec 48 c); destruct (N.ltb_spec c 58); simpl;
      intros [= <-]; lia.
  - intros c d _.
    destruct (N.leb_spec 48 c); destruct (N.ltb_spec c 58); simpl;
      intros [= <-]; lia.
Defined.

Definition is_digit (U : digit_class) (c : N) : bool :=
  match decimal_value U c with Some _ => true | None => false end.

(** ** Exceptions *)

(** The exceptions the pipeline can meet; all are subclasses of
    [Exception].  The argument names the path or the kind of failure; it
    is not the wording of the library's message. *)
Inductive exn : Type :=
| ZeroDivisionError
| ValueError (what : pystr)
| FileNotFoundError (path : pystr)
| FileExistsError (path : pystr)
| NotADirectoryError (path : pystr)
| IsADirectoryError (path : pystr)
| UnidentifiedImageError (path : pystr)
| PermissionError (path : pystr)
| OSError (what : pystr)
| SystemError (what : pystr).

Inductive result (A : Type) : Type :=
| Ok (a : A)
| Raise (e : exn).
Arguments Ok {A} a.
Arguments Raise {A} e.

(** The longest digit string [int()] converts: CPython 3.11 and later
    refuse more than 4300 digits (earlier releases have no bound; the
    model takes the refusal). *)
Definition int_max_str_digits : nat := 4300.

(** [int(s)] on a non-empty string of decimal digits; any other argument
    stands for the [ValueError] of the conversion. *)
Fixpoint int_digits (U : digit_class) (acc : Z) (s : pystr) : option Z :=
  match s with
  | [] => Some acc
  | c :: s' =>
      match decimal_value U c with
      | Some d => int_digits U (10 * acc + Z.of_N d) s'
      | None => None
      end
  end.

Definition py_int (U : digit_class) (s : pystr) : result Z :=
  match s with
  | [] => Raise (ValueError s)
  | _ => if (int_max_str_digits <? length s)%nat then Raise (ValueError s)
         else match int_digits U 0 s with
              | Some n => Ok n
              | None => Raise (ValueError s)
              end
  end.

(** ** Regular expressions *)

Module Re.

(** One-character classes: a literal, [\d], and [.]. *)
Inductive cclass : Type :=
| CChar (c : N)
| CDigit
| CAny.

Inductive regex : Type :=
| REmpty
| RClass (cl : cclass)
| RBol                          (* ^ *)
| REol                          (* $ *)
| RSeq (r1 r2 : regex)
| RAlt (r1 r2 : regex)          (* r1|r2 *)
| RPlus (cl : cclass)           (* cl+ *)
| RPlusLazy (cl : cclass)       (* cl+? *)
| RGroup (i : nat) (r : regex). (* capturing group number i *)

(** A literal string. *)
Definition rlit (s : pystr) : regex :=
  foldr (fun c r => RSeq (RClass (CChar c)) r) REmpty s.

Definition groups : Type := list (nat * pystr).

(** Matcher state: the current position, the rest of the subject from that
    position on, and the groups captured so far (latest first). *)
Record mstate : Type := MState {
  ms_pos : nat;
  ms_rest : pystr;
  ms_groups : groups
}.

Definition group_lookup (i : nat) (g : groups) : option pystr :=
  snd <$> find (fun e => Nat.eqb (fst e) i) g.

(** [m.group(i)] of a match that ended in state [st]. *)
Definition group (i : nat) (st : mstate) : option pystr :=
  group_lookup i (ms_groups st).

Definition set_group (i : nat) (text : pystr) (st : mstate) : mstate :=
  MState (ms_pos st) (ms_rest st) ((i, text) :: ms_groups st).

Section Matcher.
Variable U : digit_class.

Definition cclass_match (cl : cclass) (c : N) : bool :=
  match cl with
  | CChar d => N.eqb c d
  | CDigit => is_digit U c
  | CAny => negb (N.eqb c ch_lf)
  end.

Definition cont : Type := mstate -> option mstate.

(** [cl+]: one character of the class, then as many more as possible,
    giving them back one at a time when the continuation fails. *)
Fixpoint plus_greedy (cl : cclass) (k : cont) (rest : pystr) (pos : nat)
    (g : groups) : option mstate :=
  match rest with
  | [] => None
  | c :: rest' =>
      if cclass_match cl c then
        match plus_greedy cl k rest' (S pos) g with
        | Some m => Some m
        | None => k (MState (S pos) rest' g)
        end
      else None
  end.

(** [cl+?]: one character of the class, then the continuation first and
    one more character only when it fails. *)
Fixpoint plus_lazy (cl : cclass) (k : cont) (rest : pystr) (pos : nat)
    (g : groups) : option mstate :=
  match rest with
  | [] => None
  | c :: rest' =>
      if cclass_match cl c then
        match k (MState (S pos) rest' g) with
        | Some m => Some m
        | None => plus_lazy cl k rest' (S pos) g
        end
      else None
  end.

(** Backtracking matcher in continuation-passing style: [rmatch r k st]
    is the first way, in Python's priority order, to match [r] from [st]
    so that the continuation [k] succeeds afterwards. *)
Fixpoint rmatch (r : regex) (k : cont) (st : mstate) : option mstate :=
  match r with
  | REmpty => k st
  | RClass cl =>
      match ms_rest st with
      | c :: rest' =>
          if cclass_match cl c
          then k (MState (S (ms_pos st)) rest' (ms_groups st))
          else None
      | [] => None
      end
  | RBol => if Nat.eqb (ms_pos st) 0 then k st else None
  | REol =>
      match ms_rest st with
      | [] => k st
      | [c] => if N.eqb c ch_lf then k st else None
      | _ => None
      end
  | RSeq r1 r2 => rmatch r1 (rmatch r2 k) st
  | RAlt r1 r2 =>
      match rmatch r1 k st with
      | Some m => Some m
      | None => rmatch r2 k st
      end
  | RPlus cl => plus_greedy cl k (ms_rest st) (ms_pos st) (ms_groups st)
  | RPlusLazy cl => plus_lazy cl k (ms_rest st) (ms_pos st) (ms_groups st)
  | RGroup i r' =>
      rmatch r'
        (fun st' =>
           k (set_group i (take (ms_pos st' - ms_pos st) (ms_rest st)) st'))
        st
  end.

(** [re.search] from position [pos], where [rest] is the subject from
    [pos] on: the leftmost position at which the pattern matches. *)
Fixpoint search_from (r : regex) (pos : nat) (rest : pystr) : option mstate :=
  match rmatch r Some (MState pos rest []) with
  | Some m => Some m
  | None =>
      match rest with
      | [] => None
      | _ :: rest' => search_from r (S pos) rest'
      end
  end.

(** [re.search(r, s)]. *)
Definition search (r : regex) (s : pystr) : option mstate :=
  search_from r 0 s.

(** [re.sub(r, repl, s)] for a pattern that matches no empty string and
    a replacement without group references: every leftmost match is
    replaced and the scan resumes where the match ended. *)
Fixpoint sub_from (fuel : nat) (r : regex) (repl : pystr) (pos : nat)
    (rest : pystr) : pystr :=
  match fuel with
  | O => rest
  | S fuel' =>
      match rmatch r Some (MState pos rest []) with
      | Some m => repl ++ sub_from fuel' r repl (ms_pos m) (drop (ms_pos m - pos) rest)
      | None =>
          match rest with
          | [] => []
          | c :: rest' => c :: sub_from fuel' r repl (S pos) rest'
          end
      end
  end.

Definition sub (r : regex) (repl s : pystr) : pystr :=
  sub_from (S (length s)) r repl 0 s.

(** The matches of a pattern, without the priority order: [matches r st st']
    holds when [r] can take the matcher from state [st] to state [st']. *)
Inductive matches : regex -> mstate -> mstate -> Prop :=
| M_Empty st : matches REmpty st st
| M_Class cl c rest' st :
    ms_rest st = c :: rest' ->
    cclass_match cl c = true ->
    matches (RClass cl) st (MState (S (ms_pos st)) rest' (ms_groups st))
| M_Bol st : ms_pos st = 0%nat -> matches RBol st st
| M_Eol st : ms_rest st = [] \/ ms_rest st = [ch_lf] -> matches REol st st
| M_Seq r1 r2 st st1 st2 :
    matches r1 st st1 -> matches r2 st1 st2 -> matches (RSeq r1 r2) st st2
| M_AltL r1 r2 st st' : matches r1 st st' -> matches (RAlt r1 r2) st st'
| M_AltR r1 r2 st st' : matches r2 st st' -> matches (RAlt r1 r2) st st'
| M_PlusOne cl c rest' st :
    ms_rest st = c :: rest' ->
    cclass_match cl c = true ->
    matches (RPlus cl) st (MState (S (ms_pos st)) rest' (ms_groups st))
| M_PlusMore cl c rest' st st' :
    ms_rest st = c :: rest' ->
    cclass_match cl c = true ->
    matches (RPlus cl) (MState (S (ms_pos st)) rest' (ms_groups st)) st' ->
    matches (RPlus cl) st st'
| M_LazyOne cl c rest' st :
    ms_rest st = c :: rest' ->
    cclass_match cl c = true ->
    matches (RPlusLazy cl) st (MState (S (ms_pos st)) rest' (ms_groups st))
| M_LazyMore cl c rest' st st' :
    ms_rest st = c :: rest' ->
    cclass_match cl c = true ->
    matches (RPlusLazy cl) (MState (S (ms_pos st)) rest' (ms_groups st)) st' ->
    matches (RPlusLazy cl) st st'
| M_Group i r st st' :
    matches r st st' ->
    matches (RGroup i r) st
      (set_group i (take (ms_pos st' - ms_pos st) (ms_rest st)) st').

End Matcher.

End Re.

Import Re.

(** ** Filename codec *)

(** [(png|jpg|jpeg|PNG|JPG|JPEG)] as group [i]. *)
Definition ext_group (i : nat) : regex :=
  RGroup i
    (RAlt (rlit (py "png"))
    (RAlt (rlit (py "jpg"))
    (RAlt (rlit (py "jpeg"))
    (RAlt (rlit (py "PNG"))
    (RAlt (rlit (py "JPG"))
          (rlit (py "JPEG"))))))).

(** [-(\d+)\.(png|jpg|jpeg|PNG|JPG|JPEG)$] *)
Definition page_count_re : regex :=
  RSeq (RClass (CChar ch_hyphen))
  (RSeq (RGroup 1 (RPlus CDigit))
  (RSeq (RClass (CChar ch_dot))
  (RSeq (ext_group 2) REol))).

(** [^(.+?)-\d+\.(png|jpg|jpeg|PNG|JPG|JPEG)$] *)
Definition base_name_re : regex :=
  RSeq RBol
  (RSeq (RGroup 1 (RPlusLazy CAny))
  (RSeq (RClass (CChar ch_hyphen))
  (RSeq (RPlus CDigit)
  (RSeq (RClass (CChar ch_dot))
  (RSeq (ext_group 2) REol))))).

(** [-\d+\.(png|jpg|jpeg|PNG|JPG|JPEG)$], the pattern of
    [get_output_filename] and of the discovery filter. *)
Definition suffix_re : regex :=
  RSeq (RClass (CChar ch_hyphen))
  (RSeq (RPlus CDigit)
  (RSeq (RClass (CChar ch_dot))
  (RSeq (ext_group 1) REol))).

Section Codec.
Variable U : digit_class.

Definition extract_page_count (filename : pystr) : result (option Z) :=
  match search U page_count_re filename with
  | Some m =>
      match py_int U (default [] (group 1 m)) with
      | Ok n => Ok (Some n)
      | Raise e => Raise e
      end
  | None => Ok None
  end.

Definition get_base_filename (input_filename : pystr) : option pystr :=
  match search U base_name_re input_filename with
  | Some m => Some (default [] (group 1 m))
  | None => None
  end.

Definition get_output_filename (input_filename : pystr) : pystr :=
  sub U suffix_re (py ".pdf") input_filename.

(** The test of the discovery filter of [process_folder]. *)
Definition is_image_file (f : pystr) : bool :=
  match search U suffix_re f with
  | Some _ => true
  | None => false
  end.

End Codec.

(** ** Images *)

(** The modes of the images Pillow decodes from PNG and JPEG files. *)
Inductive mode : Type :=
| Mode1 | ModeL | ModeLA | ModeI | ModeI16 | ModeP | ModeRGB | ModeRGBA | ModeCMYK.

Global Instance mode_eq_dec : EqDecision mode.
Proof. solve_decision. Defined.

(** A crop box [(left, upper, right, lower)], written [(x0, y0, x1, y1)]. *)
Definition box : Type := (Z * Z * Z * Z)%type.

(** Where the pixels of an image come from: decoded picture data (named by
    an identifier), a crop of other pixels, or a mode conversion. *)
Inductive pixels : Type :=
| Decoded (id : N)
| Cropped (b : box) (src : pixels)
| Converted (m : mode) (src : pixels).

(** A [PIL.Image]: [img.mode], [img.size] and the pixel data. *)
Record image : Type := Image {
  img_mode : mode;
  img_width : Z;
  img_height : Z;
  img_pixels : pixels
}.

Definition img_size (img : image) : Z * Z := (img_width img, img_height img).

(** [img.crop(box)]: the region has the size of the box and the mode of
    the image; a box whose right or lower edge lies before the opposite
    one is refused. *)
Definition image_crop (img : image) (b : box) : result image :=
  let '(x0, y0, x1, y1) := b in
  if x1 <? x0 then Raise (ValueError (py "Coordinate 'right' is less than 'left'"))
  else if y1 <? y0 then Raise (ValueError (py "Coordinate 'lower' is less than 'upper'"))
  else Ok (Image (img_mode img) (x1 - x0) (y1 - y0)
                 (Cropped b (img_pixels img))).

(** [img.convert('RGB')].  Conversions from 16-bit greyscale are not
    supported by every Pillow release and are taken to fail. *)
Definition image_convert_rgb (img : image) : result image :=
  match img_mode img with
  | ModeI16 => Raise (ValueError (py "conversion from I;16 to RGB not supported"))
  | _ => Ok (Image ModeRGB (img_width img) (img_height img)
                   (Converted ModeRGB (img_pixels img)))
  end.

(** The modes the PNG encoder writes. *)
Definition png_writes (m : mode) : bool :=
  match m with
  | ModeCMYK => false
  | _ => true
  end.

(** An image with no pixels cannot be encoded. *)
Definition image_nonempty (img : image) : bool :=
  (0 <? img_width img) && (0 <? img_height img).

(** What [img.close()] makes of an image object: it releases the pixel
    data, and every later operation on the object raises. *)
Inductive image_state : Type := StillOpen | Closed.

(** [a // b] *)
Definition floordiv (a b : Z) : result Z :=
  if b =? 0 then Raise ZeroDivisionError else Ok (a / b).

(** [range(n)] *)
Definition py_range (n : Z) : list Z := seqZ 0 n.

(** [enumerate(xs, start)] *)
Fixpoint enumerate {A : Type} (start : nat) (xs : list A) : list (nat * A) :=
  match xs with
  | [] => []
  | x :: xs' => (start, x) :: enumerate (S start) xs'
  end.

(** ** Paths and the file system *)

(** [os.path.join(a, b)] of [posixpath]. *)
Definition os_path_join (a b : pystr) : pystr :=
  match b with
  | c :: _ => if N.eqb c ch_slash then b
              else match last a with
                   | None => a ++ b
                   | Some l => if N.eqb l ch_slash then a ++ b
                               else a ++ [ch_slash] ++ b
                   end
  | [] => match last a with
          | None => a ++ b
          | Some l => if N.eqb l ch_slash then a ++ b
                      else a ++ [ch_slash] ++ b
          end
  end.

(** The parts of a path between its slashes. *)
Fixpoint split_slash (p : pystr) : list pystr :=
  match p with
  | [] => [[]]
  | c :: p' =>
      if N.eqb c ch_slash then [] :: split_slash p'
      else match split_slash p' with
           | part :: parts => (c :: part) :: parts
           | [] => [[c]]
           end
  end.

Definition is_name (part : pystr) : bool :=
  negb (bool_decide (part = [])) && negb (bool_decide (part = [ch_dot])).

(** The names a path walks through.  Paths are read from a single root
    directory (absolute and relative paths coincide); empty parts and [.]
    are dropped; the model has no symbolic links and does not interpret
    [..]. *)
Definition components (p : pystr) : list pystr :=
  filter (fun part => is_name part = true) (split_slash p).

Fixpoint take_while {A : Type} (f : A -> bool) (l : list A) : list A :=
  match l with
  | x :: l' => if f x then x :: take_while f l' else []
  | [] => []
  end.

(** The extension of [os.path.splitext]: from the last dot of the last
    part of the path, unless only dots precede it there. *)
Definition basename (p : pystr) : pystr :=
  reverse (take_while (fun c => negb (N.eqb c ch_slash)) (reverse p)).

Definition splitext_ext (p : pystr) : pystr :=
  let rb := reverse (basename p) in
  let after := take_while (fun c => negb (N.eqb c ch_dot)) rb in
  match drop (length after) rb with
  | [] => []
  | _dot :: before =>
      if forallb (fun c => N.eqb c ch_dot) before then []
      else ch_dot :: reverse after
  end.

(** [c.lower()] on the ASCII letters. *)
Definition ascii_lower (c : N) : N :=
  if ((65 <=? c) && (c <=? 90))%N then (c + 32)%N else c.

(** Pillow picks the output format from the lower-cased extension; of its
    registry only the [.pdf] row is used by this program. *)
Definition has_pdf_extension (p : pystr) : bool :=
  bool_decide (map ascii_lower (splitext_ext p) = py ".pdf").

Inductive image_format : Type := PNG | JPEG.

Inductive content : Type :=
| ImageFile (fmt : image_format) (img : image)
| PdfFile (pages : list image) (resolution : Z)
| OtherFile.

Inductive node : Type :=
| Dir
| File (c : content).

(** The calls of the pipeline that may be refused whatever the tree
    holds: for want of a permission, for a name that is longer than the
    file system takes or cannot be encoded, for a full disk. *)
Inductive access : Type :=
| ListDirectory    (* os.listdir *)
| ReadFile         (* open for reading *)
| WriteFile        (* open for writing: create or truncate *)
| MakeDirectory.   (* mkdir *)

Global Instance access_eq_dec : EqDecision access.
Proof. solve_decision. Defined.

(** The file system: the nodes below the root, each under the list of
    names that leads to it (the root [[]] is a directory), and the calls
    the operating system refuses this process, with the error it raises.
    The tree holds what the process can reach; what is refused does not
    change during a run: the program changes no permission. *)
Record filesystem : Type := FileSystem {
  fs_tree : gmap (list pystr) node;
  fs_refused : access -> list pystr -> option exn
}.

Global Instance fs_lookup : Lookup (list pystr) node filesystem :=
  fun key fs => fs_tree fs !! key.

Global Instance fs_insert : Insert (list pystr) node filesystem :=
  fun key n fs => FileSystem (<[key := n]> (fs_tree fs)) (fs_refused fs).

(** The empty tree, with nothing refused. *)
Global Instance fs_empty : Empty filesystem :=
  FileSystem ∅ (fun _ _ => None).

(** The file system [fs] with one more refusal. *)
Definition fs_refuse (a : access) (key : list pystr) (e : exn)
    (fs : filesystem) : filesystem :=
  FileSystem (fs_tree fs)
    (fun a' key' =>
       if bool_decide (a' = a /\ key' = key) then Some e
       else fs_refused fs a' key').

Definition fs_is_dir (fs : filesystem) (d : list pystr) : bool :=
  match d with
  | [] => true
  | _ => match fs !! d with
         | Some Dir => true
         | _ => false
         end
  end.

(** [os.path.isdir(p)] *)
Definition fs_isdir (fs : filesystem) (p : pystr) : bool :=
  match p with
  | [] => false
  | _ => fs_is_dir fs (components p)
  end.

(** The entries directly inside directory [d]. *)
Definition fs_entries (fs : filesystem) (d : list pystr) : list pystr :=
  omap (fun kv : list pystr * node =>
          match last (fst kv) with
          | Some name => if bool_decide (fst kv = d ++ [name]) then Some name else None
          | None => None
          end)
       (map_to_list (fs_tree fs)).

(** [os.makedirs(p, exist_ok=True)] along the names of [p]: missing
    directories are created, unless the operating system refuses; a
    regular file in the way is an error.  The directories made before a
    failure stay. *)
Fixpoint fs_makedirs (fs : filesystem) (p : pystr) (done todo : list pystr)
    : result unit * filesystem :=
  match todo with
  | [] => (Ok tt, fs)
  | name :: todo' =>
      let d := done ++ [name] in
      match fs !! d with
      | Some Dir => fs_makedirs fs p d todo'
      | Some (File _) =>
          (Raise (match todo' with
                  | [] => FileExistsError p
                  | _ => NotADirectoryError p
                  end), fs)
      | None =>
          match fs_refused fs MakeDirectory d with
          | Some e => (Raise e, fs)
          | None => fs_makedirs (<[d := Dir]> fs) p d todo'
          end
      end
  end.

(** The directory a path's file lives in, and the file's key. *)
Definition parent_of (p : pystr) : option (list pystr * list pystr) :=
  let key := components p in
  match last key with
  | Some _ => Some (take (length key - 1) key, key)
  | None => None
  end.

(** [open(p, "w+b")]: the key of the regular file to create or
    overwrite, when its directory exists, [p] is not a directory and the
    operating system does not refuse (no permission to write there, a
    name that is too long). *)
Definition fs_open_write (fs : filesystem) (p : pystr) : result (list pystr) :=
  match parent_of p with
  | None => Raise (IsADirectoryError p)
  | Some (d, key) =>
      if fs_is_dir fs d then
        match fs !! key with
        | Some Dir => Raise (IsADirectoryError p)
        | _ =>
            match fs_refused fs WriteFile key with
            | Some e => Raise e
            | None => Ok key
            end
        end
      else Raise (FileNotFoundError p)
  end.

(** What an encoder that fails leaves behind: a file that was there before
    has lost its content, a file the save created is removed again. *)
Definition fs_abandon (fs : filesystem) (key : list pystr) : filesystem :=
  match fs !! key with
  | Some _ => <[key := File OtherFile]> fs
  | None => fs
  end.

(** ** The monad of the pipeline *)

(** The messages handed to [appendLog_], one constructor per call site of
    [process_folder] and one for the thread body that calls it, with the
    values the f-string interpolates. *)
Inductive log_msg : Type :=
| LogNotAFolder (folder_path : pystr)
| LogNoImages (folder_path : pystr)
| LogNameFormatHint
| LogFound (n : nat)
| LogSkipNoPageCount (filename : pystr)
| LogProcessing (filename : pystr) (page_count : Z)
| LogSkipNoBaseName (filename : pystr)
| LogCutting
| LogCutDone (n : nat)
| LogSaving
| LogSaved (n : nat)
| LogMakingPdf (output_filename : pystr)
| LogDone (output_filename : pystr)
| LogFileError (filename : pystr) (e : exn)
| LogFinished (success_count error_count : nat)
| LogError (e : exn).

(** The state the pipeline works on: the file system, and the messages
    handed to [appendLog_] so far, oldest first. *)
Record world : Type := World {
  w_fs : filesystem;
  w_log : list log_msg
}.

Definition M (A : Type) : Type := world -> result A * world.

Definition ret {A : Type} (a : A) : M A := fun w => (Ok a, w).

Definition raise {A : Type} (e : exn) : M A := fun w => (Raise e, w).

Definition bind {A B : Type} (m : M A) (f : A -> M B) : M B :=
  fun w =>
    match m w with
    | (Ok a, w') => f a w'
    | (Raise e, w') => (Raise e, w')
    end.

Notation "'let*' x ':=' m 'in' k" := (bind m (fun x => k))
  (at level 10, x pattern, m at level 100, k at level 200, only parsing).

(** [try: m except Exception as e: handler e] *)
Definition try_except {A : Type} (m : M A) (handler : exn -> M A) : M A :=
  fun w =>
    match m w with
    | (Ok a, w') => (Ok a, w')
    | (Raise e, w') => handler e w'
    end.

Definition lift_result {A : Type} (r : result A) : M A := fun w => (r, w).

(** [self.appendLog_(message)] *)
Definition appendLog_ (msg : log_msg) : M unit :=
  fun w => (Ok tt, World (w_fs w) (w_log w ++ [msg])).

(** A [for] loop over [xs] that carries the loop's variables in [s]. *)
Fixpoint for_each {A S : Type} (xs : list A) (body : A -> S -> M S) (s : S)
    : M S :=
  match xs with
  | [] => ret s
  | x :: xs' => let* s' := body x s in for_each xs' body s'
  end.

Definition os_path_isdir (p : pystr) : M bool :=
  fun w => (Ok (fs_isdir (w_fs w) p), w).

Definition os_makedirs (p : pystr) : M unit :=
  fun w =>
    match p with
    | [] => (Raise (FileNotFoundError p), w)
    | _ => let '(r, fs') := fs_makedirs (w_fs w) p [] (components p) in
           (r, World fs' (w_log w))
    end.

Definition os_listdir (p : pystr) : M (list pystr) :=
  fun w =>
    match p with
    | [] => (Raise (FileNotFoundError p), w)
    | _ =>
        let d := components p in
        if fs_is_dir (w_fs w) d then
          match fs_refused (w_fs w) ListDirectory d with
          | Some e => (Raise e, w)
          | None => (Ok (fs_entries (w_fs w) d), w)
          end
        else match w_fs w !! d with
             | Some _ => (Raise (NotADirectoryError p), w)
             | None => (Raise (FileNotFoundError p), w)
             end
    end.

(** [Image.open(p)] *)
Definition image_open (p : pystr) : M image :=
  fun w =>
    match p with
    | [] => (Raise (FileNotFoundError p), w)
    | _ =>
        match components p with
        | [] => (Raise (IsADirectoryError p), w)
        | key =>
            match w_fs w !! key with
            | Some (File c) =>
                match fs_refused (w_fs w) ReadFile key with
                | Some e => (Raise e, w)
                | None =>
                    match c with
                    | ImageFile _ img => (Ok img, w)
                    | _ => (Raise (UnidentifiedImageError p), w)
                    end
                end
            | Some Dir => (Raise (IsADirectoryError p), w)
            | None => (Raise (FileNotFoundError p), w)
            end
        end
    end.

(** [img.save(p, 'PNG')]: the file is opened for writing, then encoded. *)
Definition image_save_png (img : image) (p : pystr) : M unit :=
  fun w =>
    match fs_open_write (w_fs w) p with
    | Raise e => (Raise e, w)
    | Ok key =>
        if negb (png_writes (img_mode img)) then
          (Raise (OSError (py "cannot write mode as PNG")),
           World (fs_abandon (w_fs w) key) (w_log w))
        else if negb (image_nonempty img) then
          (Raise (SystemError (py "tile cannot extend outside image")),
           World (fs_abandon (w_fs w) key) (w_log w))
        else
          (Ok tt, World (<[key := File (ImageFile PNG img)]> (w_fs w)) (w_log w))
    end.

(** [first.save(p, save_all=True, append_images=more, resolution=r)] and,
    with [more = []], [first.save(p)]: the format comes from the extension
    of [p]. *)
Definition image_save_auto (first : image) (more : list image)
    (resolution : Z) (p : pystr) : M unit :=
  fun w =>
    if negb (has_pdf_extension p) then
      (Raise (ValueError (py "unknown file extension")), w)
    else
      match fs_open_write (w_fs w) p with
      | Raise e => (Raise e, w)
      | Ok key =>
          if negb (forallb image_nonempty (first :: more)) then
            (Raise (ValueError (py "cannot write empty image")),
             World (fs_abandon (w_fs w) key) (w_log w))
          else
            (Ok tt,
             World (<[key := File (PdfFile (first :: more) resolution)]> (w_fs w))
                   (w_log w))
      end.

(** ** The pipeline *)

Definition cut_image_vertically (image_path : pystr) (num_parts : Z)
    : M (list image) :=
  let* img := image_open image_path in
  let '(width, height) := img_size img in
  let* part_height := lift_result (floordiv height num_parts) in
  let* images :=
    for_each (py_range num_parts)
      (fun i images =>
         let top := i * part_height in
         let bottom :=
           if i <? num_parts - 1 then (i + 1) * part_height else height in
         let b : box := (0, top, width, bottom) in
         let* part_img := lift_result (image_crop img b) in
         ret (images ++ [part_img]))
      [] in
  (* img.close(): the strips hold pixels of their own *)
  ret images.

(** The name [f"{base_filename}-第{i}页.png"]. *)
Definition strip_name (base_filename : pystr) (i : nat) : pystr :=
  base_filename ++ [ch_hyphen; ch_di] ++ py_str_nat i ++ [ch_ye] ++ py ".png".

Definition save_cut_images (images : list image)
    (base_filename output_folder : pystr) : M (list pystr) :=
  for_each (enumerate 1 images)
    (fun '(i, img) saved_paths =>
       let output_path := os_path_join output_folder (strip_name base_filename i) in
       let* _ := image_save_png img output_path in
       ret (saved_paths ++ [output_path]))
    [].

(** [images_to_pdf] returns nothing; the value here is the state in which
    it leaves the images of its caller.  The loop at its end closes every
    element of [rgb_images]: an image of mode RGB is in that list itself,
    of any other image the list holds a converted copy. *)
Definition images_to_pdf (images : list image) (output_path : pystr)
    : M (list image_state) :=
  match images with
  | [] => ret []
  | _ =>
      let* rgb_images :=
        for_each images
          (fun img rgb_images =>
             if bool_decide (img_mode img <> ModeRGB) then
               let* rgb_img := lift_result (image_convert_rgb img) in
               ret (rgb_images ++ [rgb_img])
             else ret (rgb_images ++ [img]))
          [] in
      let* _ :=
        match rgb_images with
        | first :: more =>
            if (1 <? length rgb_images)%nat
            then image_save_auto first more 100 output_path
            else image_save_auto first [] 72 output_path
        | [] => raise (ValueError (py "list index out of range"))
        end in
      ret (map (fun img =>
                  if bool_decide (img_mode img <> ModeRGB) then StillOpen
                  else Closed)
               images)
  end.

Section Orchestrator.
Variable U : digit_class.

(** What the [try] block of the loop of [process_folder] does for one
    file, on the pair [(success_count, error_count)]; a [continue] leaves
    the pair as it is. *)
Definition process_file_try (folder_path output_folder filename : pystr)
    (counts : nat * nat) : M (nat * nat) :=
  let '(success_count, error_count) := counts in
  let* page_count := lift_result (extract_page_count U filename) in
  match page_count with
  | None =>
      let* _ := appendLog_ (LogSkipNoPageCount filename) in
      ret (success_count, error_count)
  | Some page_count =>
      let* _ := appendLog_ (LogProcessing filename page_count) in
      let input_path := os_path_join folder_path filename in
      match get_base_filename U filename with
      | None =>
          let* _ := appendLog_ (LogSkipNoBaseName filename) in
          ret (success_count, error_count)
      | Some base_filename =>
          let* _ := appendLog_ LogCutting in
          let* images := cut_image_vertically input_path page_count in
          let* _ := appendLog_ (LogCutDone (length images)) in
          let* _ := appendLog_ LogSaving in
          let* saved_paths := save_cut_images images base_filename output_folder in
          let* _ := appendLog_ (LogSaved (length saved_paths)) in
          let output_filename := get_output_filename U filename in
          let output_path := os_path_join output_folder output_filename in
          let* _ := appendLog_ (LogMakingPdf output_filename) in
          let* _ := images_to_pdf images output_path in
          let* _ := appendLog_ (LogDone output_filename) in
          ret (S success_count, error_count)
      end
  end.

(** The body of the loop: the [try] block and its [except Exception]
    handler. *)
Definition process_file (folder_path output_folder filename : pystr)
    (counts : nat * nat) : M (nat * nat) :=
  try_except
    (process_file_try folder_path output_folder filename counts)
    (fun e =>
       let* _ := appendLog_ (LogFileError filename e) in
       ret (fst counts, S (snd counts))).

Definition process_folder (folder_path output_folder : pystr) : M bool :=
  let* is_dir := os_path_isdir folder_path in
  if negb is_dir then
    let* _ := appendLog_ (LogNotAFolder folder_path) in
    ret false
  else
    let* _ := os_makedirs output_folder in
    let* files := os_listdir folder_path in
    let image_files := filter (fun f => is_image_file U f = true) files in
    match image_files with
    | [] =>
        let* _ := appendLog_ (LogNoImages folder_path) in
        let* _ := appendLog_ LogNameFormatHint in
        ret false
    | _ =>
        let* _ := appendLog_ (LogFound (length image_files)) in
        let* counts :=
          for_each image_files (process_file folder_path output_folder) (0, 0)%nat in
        let '(success_count, error_count) := counts in
        let* _ := appendLog_ (LogFinished success_count error_count) in
        ret true
    end.

End Orchestrator.



(** The thread body of [startProcessing_]: the value handed to
    [on_processing_finished]; an exception that leaves [process_folder]
    is logged and reported as [False]. *)
Definition process_thread (U : digit_class) (input_path output_path : pystr)
    (w : world) : bool * world :=
  match process_folder U input_path output_path w with
  | (Ok success, w') => (success, w')
  | (Raise e, w') => (false, World (w_fs w') (w_log w' ++ [LogError e]))
  end.

(** ** Vocabulary of the statements *)

(** The extensions the three patterns spell out. *)
Definition extensions : list pystr :=
  [py "png"; py "jpg"; py "jpeg"; py "PNG"; py "JPG"; py "JPEG"].

(** Any spelling, in upper or lower case letters, of [png], [jpg] or
    [jpeg]. *)
Definition case_variant_extension (e : pystr) : Prop :=
  map ascii_lower e ∈ [py "png"; py "jpg"; py "jpeg"].

Definition all_digits (U : digit_class) (s : pystr) : Prop :=
  Forall (fun c => is_digit U c = true) s.

(** The file name [<base>-<digits>.<ext>]. *)
Definition page_file_name (base digits ext : pystr) : pystr :=
  base ++ [ch_hyphen] ++ digits ++ [ch_dot] ++ ext.

(** What [$] leaves unread: nothing, or one final line feed. *)
Definition at_end (tail : pystr) : Prop := tail = [] \/ tail = [ch_lf].

(** The names the three patterns match: [<pre>-<digits>.<ext>] with one
    of the six extensions, possibly followed by a final line feed. *)
Definition has_page_suffix (U : digit_class) (f : pystr) : Prop :=
  exists pre ds e tail,
    ds <> [] /\ all_digits U ds /\ e ∈ extensions /\ at_end tail /\
    f = pre ++ [ch_hyphen] ++ ds ++ [ch_dot] ++ e ++ tail.

(** The trailing pattern as the specification words it: [-<digits>.<ext>]
    at the very end of the name, the extension in any mix of cases. *)
Definition spec_page_suffix (U : digit_class) (f : pystr) : Prop :=
  exists pre ds e,
    ds <> [] /\ all_digits U ds /\ case_variant_extension e /\
    f = page_file_name pre ds e.

(** The strip that iteration [i] of the loop of [cut_image_vertically]
    appends: rows [top] to [bottom] of the image, at its full width. *)
Definition strip_of (img : image) (num_parts : Z) (i : Z) : image :=
  let part_height := img_height img / num_parts in
  let top := i * part_height in
  let bottom :=
    if i <? num_parts - 1 then (i + 1) * part_height else img_height img in
  Image (img_mode img) (img_width img) (bottom - top)
        (Cropped (0, top, img_width img, bottom) (img_pixels img)).

(** The combined height of a sequence of strips. *)
Definition total_height (strips : list image) : Z :=
  foldr Z.add 0 (img_height <$> strips).

(** The page [images_to_pdf] makes of an image: the image itself when its
    mode is RGB, its conversion otherwise. *)
Definition rgb_of (img : image) : image :=
  if bool_decide (img_mode img <> ModeRGB)
  then Image ModeRGB (img_width img) (img_height img)
             (Converted ModeRGB (img_pixels img))
  else img.

(** The state in which the last loop of [images_to_pdf] leaves an image of
    its caller: closed when its mode is RGB (the image itself is in
    [rgb_images]), open otherwise (its converted copy is). *)
Definition state_after_pdf (img : image) : image_state :=
  if bool_decide (img_mode img <> ModeRGB) then StillOpen else Closed.

(** The file system after the strips [images], numbered from [start], are
    written into directory [d] under base name [base_filename]. *)
Fixpoint write_strips (d : list pystr) (base_filename : pystr) (start : nat)
    (images : list image) (fs : filesystem) : filesystem :=
  match images with
  | [] => fs
  | img :: images' =>
      write_strips d base_filename (S start) images'
        (<[d ++ [strip_name base_filename start] := File (ImageFile PNG img)]> fs)
  end.

(** The candidates [process_folder] finds: the entries of the input
    directory, listed once the output directory has been made, that pass
    the discovery filter. *)
Definition discovered (U : digit_class) (folder_path output_folder : pystr)
    (w : world) : list pystr :=
  filter (fun f => is_image_file U f = true)
         (fs_entries (w_fs (snd (os_makedirs output_folder w)))
                     (components folder_path)).

(** ** Sample worlds *)

Definition sample_image : image := Image ModeRGB 200 301 (Decoded 1).

(** An input directory [in] with one page file, and no output directory. *)
Definition world_one_page_file : world :=
  World (<[ [py "in"; py "report-3.png"] := File (ImageFile PNG sample_image) ]>
        (<[ [py "in"] := Dir ]> ∅)) [].

(** An empty input directory [in]. *)
Definition world_empty_folder : world :=
  World (<[ [py "in"] := Dir ]> ∅) [].

(** An input directory whose only candidate is not an image, and an
    existing output directory [out]. *)
Definition world_one_bad_file : world :=
  World (<[ [py "in"; py "bad-2.jpg"] := File OtherFile ]>
        (<[ [py "in"] := Dir ]>
        (<[ [py "out"] := Dir ]> ∅))) [].

(** An input directory [in], and a regular file where the output directory
    [out] should be. *)
Definition world_output_is_a_file : world :=
  World (<[ [py "in"; py "report-3.png"] := File (ImageFile PNG sample_image) ]>
        (<[ [py "in"] := Dir ]>
        (<[ [py "out"] := File OtherFile ]> ∅))) [].

(** An input directory whose only entry has a line feed after its
    extension. *)
Definition world_line_feed_name : world :=
  World (<[ [py "in"; py "a-1.png" ++ [ch_lf]] := File (ImageFile PNG sample_image) ]>
        (<[ [py "in"] := Dir ]> ∅)) [].

(** An input directory with a name that has nothing before its page
    suffix. *)
Definition world_bare_suffix : world :=
  World (<[ [py "in"; py "-5.png"] := File (ImageFile PNG sample_image) ]>
        (<[ [py "in"] := Dir ]> ∅)) [].

(** An input directory [in] that the process may not list. *)
Definition world_unreadable_folder : world :=
  World (fs_refuse ListDirectory [py "in"] (PermissionError (py "in"))
           (<[ [py "in"; py "report-3.png"] := File (ImageFile PNG sample_image) ]>
           (<[ [py "in"] := Dir ]> ∅))) [].

(** The length of a name in bytes, in UTF-8. *)
Definition utf8_length (s : pystr) : nat :=
  foldr (fun c n =>
           ((if (c <? 128)%N then 1 else if (c <? 2048)%N then 2
             else if (c <? 65536)%N then 3 else 4) + n)%nat)
        0%nat s.

(** What a file system refuses that takes names of 255 bytes at most. *)
Definition refuse_long_names (a : access) (key : list pystr) : option exn :=
  match a, last key with
  | (WriteFile | MakeDirectory), Some name =>
      if (255 <? utf8_length name)%nat
      then Some (OSError (py "File name too long")) else None
  | _, _ => None
  end.

(** A page file whose name is 255 bytes long. *)
Definition long_name : pystr := replicate 249 97%N ++ py "-1.png".

(** An input directory with that file, on a file system with that limit. *)
Definition world_long_name : world :=
  World (<[ [py "in"; long_name] := File (ImageFile PNG sample_image) ]>
        (<[ [py "in"] := Dir ]> (FileSystem ∅ refuse_long_names))) [].

(** ** What a run may change *)

(** The messages handed to [appendLog_] only grow. *)
Definition log_grows (w w' : world) : Prop := w_log w `prefix_of` w_log w'.

(** Directories stay directories. *)
Definition dirs_kept (w w' : world) : Prop :=
  forall d, fs_is_dir (w_fs w) d = true -> fs_is_dir (w_fs w') d = true.

(** No entry of the file system disappears. *)
Definition nothing_removed (w w' : world) : Prop :=
  forall key, is_Some (w_fs w !! key) -> is_Some (w_fs w' !! key).

Definition advances (w w' : world) : Prop :=
  log_grows w w' /\ dirs_kept w w' /\ nothing_removed w w'.

(** A computation that only advances the world, whether it returns or
    raises. *)
Definition advancing {A : Type} (m : M A) : Prop :=
  forall w, advances w (snd (m w)).

(** * Properties *)

(** ** The file system as a map *)

Lemma fs_lookup_insert_eq (fs : filesystem) (key : list pystr) (n : node) :
  <[key := n]> fs !! key = Some n.
Proof. unfold lookup, insert, fs_lookup, fs_insert. simpl. apply lookup_insert_eq. Qed.

Lemma fs_lookup_insert_ne (fs : filesystem) (key key' : list pystr) (n : node) :
  key <> key' -> <[key := n]> fs !! key' = fs !! key'.
Proof.
  intros Hne. unfold lookup, insert, fs_lookup, fs_insert. simpl.
  by apply lookup_insert_ne.
Qed.

Lemma fs_insert_insert_eq (fs : filesystem) (key : list pystr) (n n' : node) :
  <[key := n]> (<[key := n']> fs) = <[key := n]> fs.
Proof.
  unfold insert, fs_insert. simpl. f_equal. apply insert_insert_eq.
Qed.

Lemma fs_refused_insert (fs : filesystem) (key : list pystr) (n : node) :
  fs_refused (<[key := n]> fs) = fs_refused fs.
Proof. done. Qed.

Lemma fs_eq (fs fs' : filesystem) :
  (forall key, fs !! key = fs' !! key) -> fs_refused fs = fs_refused fs' ->
  fs = fs'.
Proof.
  destruct fs as [t r], fs' as [t' r']. unfold lookup, fs_lookup. simpl.
  intros Ht ->. f_equal. by apply map_eq.
Qed.

(** ** The pipeline on samples *)

Example extract_page_count_sample :
  extract_page_count ascii_digits (py "ab-12.png") = Ok (Some 12).
Proof. reflexivity. Qed.

Example get_base_filename_sample :
  get_base_filename ascii_digits (py "a-1-2.JPEG") = Some (py "a-1").
Proof. reflexivity. Qed.

Example get_output_filename_sample :
  get_output_filename ascii_digits (py "a-1-2.jpg") = py "a-1.pdf".
Proof. reflexivity. Qed.

(** A run on [in/report-3.png]: three strips and a document of three
    pages are written to [out], and the run reports one success. *)
Example process_folder_sample :
  let run := process_folder ascii_digits (py "in") (py "out") world_one_page_file in
  fst run = Ok true /\
  w_log (snd run)
  = [LogFound 1; LogProcessing (py "report-3.png") 3; LogCutting; LogCutDone 3;
     LogSaving; LogSaved 3; LogMakingPdf (py "report.pdf");
     LogDone (py "report.pdf"); LogFinished 1 0] /\
  w_fs (snd run) !! [py "out"; strip_name (py "report") 3]
  = Some (File (ImageFile PNG (strip_of sample_image 3 2))) /\
  w_fs (snd run) !! [py "out"; py "report.pdf"]
  = Some (File (PdfFile (strip_of sample_image 3 <$> [0; 1; 2]) 100)).
Proof. repeat split; reflexivity. Qed.

(** An input directory that may not be listed: the output directory is
    made, then the exception of [os.listdir] leaves [process_folder]. *)
Example process_folder_unreadable_folder :
  process_folder ascii_digits (py "in") (py "out") world_unreadable_folder
  = (Raise (PermissionError (py "in")),
     World (<[ [py "out"] := Dir ]> (w_fs world_unreadable_folder)) []).
Proof. reflexivity. Qed.

(** A name at the limit of the file system: the name of the input file is
    legal, the name of its strip is six bytes longer and is refused, and
    the file is counted as failed. *)
Example process_folder_long_name :
  utf8_length long_name = 255%nat /\
  utf8_length (strip_name (replicate 249 97%N) 1) = 261%nat /\
  w_log (snd (process_folder ascii_digits (py "in") (py "in") world_long_name))
  = [LogFound 1; LogProcessing long_name 1; LogCutting; LogCutDone 1; LogSaving;
     LogFileError long_name (OSError (py "File name too long"));
     LogFinished 0 1].
Proof. repeat split; vm_compute; reflexivity. Qed.

(** A write that is refused: the exception of [open] leaves
    [images_to_pdf] and no document is written. *)
Example images_to_pdf_refused_sample :
  let w := World (fs_refuse WriteFile [py "in"; py "a.pdf"]
                    (PermissionError (py "in/a.pdf")) (w_fs world_empty_folder)) [] in
  images_to_pdf [sample_image] (py "in/a.pdf") w
  = (Raise (PermissionError (py "in/a.pdf")), w).
Proof. reflexivity. Qed.

(** [images_to_pdf] closes the image it was given when its mode is RGB. *)
Example images_to_pdf_closes_sample :
  fst (images_to_pdf [sample_image] (py "in/a.pdf") world_empty_folder)
  = Ok [Closed].
Proof. reflexivity. Qed.

(** ** The matcher and the declarative matches agree *)

Section MatcherFacts.
Variable U : digit_class.

Lemma plus_greedy_sound cl k rest pos g m :
  plus_greedy U cl k rest pos g = Some m ->
  exists st', matches U (RPlus cl) (MState pos rest g) st' /\ k st' = Some m.
Proof.
  revert pos. induction rest as [|c rest IH]; intros pos; simpl; [done|].
  destruct (cclass_match U cl c) eqn:Hc; [|done].
  destruct (plus_greedy U cl k rest (S pos) g) as [m'|] eqn:Hrec.
  - intros [= ->]. destruct (IH _ Hrec) as (st' & Hm & Hk).
    exists st'. split; [|done]. by eapply M_PlusMore.
  - intros Hk. eexists. split; [|exact Hk]. by eapply (M_PlusOne U cl c rest (MState pos (c :: rest) g)).
Qed.

Lemma plus_lazy_sound cl k rest pos g m :
  plus_lazy U cl k rest pos g = Some m ->
  exists st', matches U (RPlusLazy cl) (MState pos rest g) st' /\ k st' = Some m.
Proof.
  revert pos. induction rest as [|c rest IH]; intros pos; simpl; [done|].
  destruct (cclass_match U cl c) eqn:Hc; [|done].
  destruct (k (MState (S pos) rest g)) as [m'|] eqn:Hk.
  - intros [= ->]. eexists. split; [|exact Hk].
    by eapply (M_LazyOne U cl c rest (MState pos (c :: rest) g)).
  - intros Hrec. destruct (IH _ Hrec) as (st' & Hm & Hk').
    exists st'. split; [|done]. by eapply M_LazyMore.
Qed.

Lemma mstate_eta st : MState (ms_pos st) (ms_rest st) (ms_groups st) = st.
Proof. by destruct st. Qed.

Lemma rmatch_sound r : forall k st m,
  rmatch U r k st = Some m ->
  exists st', matches U r st st' /\ k st' = Some m.
Proof.
  induction r as [|cl| | |r1 IH1 r2 IH2|r1 IH1 r2 IH2|cl|cl|i r IH];
    intros k st m; simpl.
  - intros Hk. exists st. split; [constructor|done].
  - destruct (ms_rest st) as [|c rest'] eqn:Hrest; [done|].
    destruct (cclass_match U cl c) eqn:Hc; [|done].
    intros Hk. eexists. split; [|exact Hk]. by econstructor.
  - destruct (Nat.eqb_spec (ms_pos st) 0); [|done].
    intros Hk. exists st. split; [by constructor|done].
  - destruct (ms_rest st) as [|c [|c' rest']] eqn:Hrest; [| |done].
    + intros Hk. exists st. split; [constructor; by left|done].
    + destruct (N.eqb_spec c ch_lf) as [->|]; [|done].
      intros Hk. exists st. split; [constructor; by right|done].
  - intros H. destruct (IH1 _ _ _ H) as (st1 & Hm1 & H2).
    destruct (IH2 _ _ _ H2) as (st2 & Hm2 & Hk).
    exists st2. split; [by econstructor|done].
  - destruct (rmatch U r1 k st) as [m1|] eqn:H1.
    + intros [= ->]. destruct (IH1 _ _ _ H1) as (st' & Hm & Hk).
      exists st'. split; [by apply M_AltL|done].
    + intros H2. destruct (IH2 _ _ _ H2) as (st' & Hm & Hk).
      exists st'. split; [by apply M_AltR|done].
  - intros H. apply plus_greedy_sound in H. by rewrite mstate_eta in H.
  - intros H. apply plus_lazy_sound in H. by rewrite mstate_eta in H.
  - intros H. destruct (IH _ _ _ H) as (st' & Hm & Hk).
    eexists. split; [by apply M_Group|done].
Qed.

Lemma rmatch_complete r st st' :
  matches U r st st' ->
  forall k, is_Some (k st') -> is_Some (rmatch U r k st).
Proof.
  induction 1 as [st|cl c rest' st Hrest Hc|st Hpos|st Hrest
                 |r1 r2 st st1 st2 _ IH1 _ IH2
                 |r1 r2 st st' _ IH|r1 r2 st st' _ IH
                 |cl c rest' st Hrest Hc|cl c rest' st st' Hrest Hc _ IH
                 |cl c rest' st Hrest Hc|cl c rest' st st' Hrest Hc _ IH
                 |i r st st' _ IH]; intros k Hk; simpl.
  - done.
  - by rewrite Hrest, Hc.
  - by rewrite Hpos.
  - destruct Hrest as [-> | ->]; [done|]. by rewrite N.eqb_refl.
  - apply IH1, IH2, Hk.
  - destruct (IH k Hk) as [m ->]. by eexists.
  - destruct (rmatch U r1 k st); [by eexists|]. by apply IH.
  - rewrite Hrest. simpl. rewrite Hc.
    destruct (plus_greedy U cl k rest' (S (ms_pos st)) (ms_groups st)); [by eexists|done].
  - rewrite Hrest. simpl. rewrite Hc.
    specialize (IH k Hk). simpl in IH. destruct IH as [m ->]. by eexists.
  - rewrite Hrest. simpl. rewrite Hc.
    destruct Hk as [m ->]. by eexists.
  - rewrite Hrest. simpl. rewrite Hc.
    destruct (k (MState (S (ms_pos st)) rest' (ms_groups st))); [by eexists|].
    by apply (IH k Hk).
  - by apply IH.
Qed.

(** What a match consumes. *)
Lemma matches_span r st st' :
  matches U r st st' ->
  exists c, ms_rest st = c ++ ms_rest st' /\ ms_pos st' = (ms_pos st + length c)%nat.
Proof.
  induction 1 as [st|cl c rest' st Hrest Hc|st Hpos|st Hrest
                 |r1 r2 st st1 st2 _ IH1 _ IH2
                 |r1 r2 st st' _ IH|r1 r2 st st' _ IH
                 |cl c rest' st Hrest Hc|cl c rest' st st' Hrest Hc _ IH
                 |cl c rest' st Hrest Hc|cl c rest' st st' Hrest Hc _ IH
                 |i r st st' _ IH]; simpl in *.
  - exists []. split; [done|simpl; lia].
  - exists [c]. split; [done|simpl; lia].
  - exists []. split; [done|simpl; lia].
  - exists []. split; [done|simpl; lia].
  - destruct IH1 as (c1 & E1 & P1), IH2 as (c2 & E2 & P2).
    exists (c1 ++ c2). rewrite E1, E2, P2, P1, length_app, <-app_assoc. split; [done|lia].
  - done.
  - done.
  - exists [c]. split; [done|simpl; lia].
  - destruct IH as (c' & E & P). exists (c :: c'). rewrite Hrest, E, P. split; [done|simpl; lia].
  - exists [c]. split; [done|simpl; lia].
  - destruct IH as (c' & E & P). exists (c :: c'). rewrite Hrest, E, P. split; [done|simpl; lia].
  - done.
Qed.

Lemma search_from_sound r : forall rest pos m,
  search_from U r pos rest = Some m ->
  exists pre post, rest = pre ++ post /\
    rmatch U r Some (MState (pos + length pre) post []) = Some m.
Proof.
  induction rest as [|c rest IH]; intros pos m; simpl.
  - destruct (rmatch U r Some (MState pos [] [])) eqn:H; [|done].
    intros [= ->]. exists [], []. by rewrite Nat.add_0_r.
  - destruct (rmatch U r Some (MState pos (c :: rest) [])) eqn:H.
    + intros [= ->]. exists [], (c :: rest). by rewrite Nat.add_0_r.
    + intros Hs. destruct (IH _ _ Hs) as (pre & post & -> & Hm).
      exists (c :: pre), post. split; [done|]. simpl.
      by rewrite Nat.add_succ_r.
Qed.

Lemma search_from_complete r : forall pre post pos,
  is_Some (rmatch U r Some (MState (pos + length pre) post [])) ->
  is_Some (search_from U r pos (pre ++ post)).
Proof.
  induction pre as [|c pre IH]; intros post pos; simpl.
  - rewrite Nat.add_0_r. intros [m Hm].
    destruct post; simpl; rewrite Hm; by eexists.
  - intros Hm. destruct (rmatch U r Some (MState pos (c :: pre ++ post) [])); [by eexists|].
    apply IH. by rewrite Nat.add_succ_r in Hm.
Qed.

End MatcherFacts.

(** ** The three patterns of the codec *)

Section PatternFacts.
Variable U : digit_class.

Lemma hyphen_not_digit : is_digit U ch_hyphen = false.
Proof.
  unfold is_digit. destruct (decimal_value U ch_hyphen) as [d|] eqn:H; [|done].
  apply decimal_ascii_only in H; unfold ch_hyphen in *; lia.
Qed.

Lemma matches_seq_inv r1 r2 st st' :
  matches U (RSeq r1 r2) st st' ->
  exists st1, matches U r1 st st1 /\ matches U r2 st1 st'.
Proof. inversion 1; subst. by eexists. Qed.

Lemma matches_alt_inv r1 r2 st st' :
  matches U (RAlt r1 r2) st st' -> matches U r1 st st' \/ matches U r2 st st'.
Proof. inversion 1; subst; auto. Qed.

Lemma matches_group_inv i r st st' :
  matches U (RGroup i r) st st' ->
  exists st1, matches U r st st1 /\
    st' = set_group i (take (ms_pos st1 - ms_pos st) (ms_rest st)) st1.
Proof. inversion 1; subst. by eexists. Qed.

Lemma matches_class_inv cl st st' :
  matches U (RClass cl) st st' ->
  exists c, cclass_match U cl c = true /\ ms_rest st = c :: ms_rest st' /\
    ms_pos st' = S (ms_pos st) /\ ms_groups st' = ms_groups st.
Proof. inversion 1; subst. by eexists. Qed.

Lemma matches_char_inv c st st' :
  matches U (RClass (CChar c)) st st' ->
  ms_rest st = c :: ms_rest st' /\
    ms_pos st' = S (ms_pos st) /\ ms_groups st' = ms_groups st.
Proof.
  intros (c' & Hc & ? & ? & ?)%matches_class_inv. simpl in Hc.
  apply N.eqb_eq in Hc as ->. done.
Qed.

Lemma matches_plus_inv cl st st' :
  matches U (RPlus cl) st st' ->
  exists cs, cs <> [] /\ Forall (fun c => cclass_match U cl c = true) cs /\
    ms_rest st = cs ++ ms_rest st' /\
    ms_pos st' = (ms_pos st + length cs)%nat /\ ms_groups st' = ms_groups st.
Proof.
  remember (RPlus cl) as r eqn:Hr. induction 1; try discriminate; injection Hr as ->.
  - exists [c]. simpl. repeat split; [done|by repeat constructor|done|lia].
  - destruct (IHmatches eq_refl) as (cs & _ & Hall & Hrest & Hpos & Hg). simpl in *.
    exists (c :: cs). simpl. repeat split; [done|by constructor| |lia|done].
    by rewrite <-Hrest.
Qed.

Lemma matches_lazy_inv cl st st' :
  matches U (RPlusLazy cl) st st' ->
  exists cs, cs <> [] /\ Forall (fun c => cclass_match U cl c = true) cs /\
    ms_rest st = cs ++ ms_rest st' /\
    ms_pos st' = (ms_pos st + length cs)%nat /\ ms_groups st' = ms_groups st.
Proof.
  remember (RPlusLazy cl) as r eqn:Hr. induction 1; try discriminate; injection Hr as ->.
  - exists [c]. simpl. repeat split; [done|by repeat constructor|done|lia].
  - destruct (IHmatches eq_refl) as (cs & _ & Hall & Hrest & Hpos & Hg). simpl in *.
    exists (c :: cs). simpl. repeat split; [done|by constructor| |lia|done].
    by rewrite <-Hrest.
Qed.

Lemma matches_rlit_inv s : forall st st',
  matches U (rlit s) st st' ->
  ms_rest st = s ++ ms_rest st' /\
    ms_pos st' = (ms_pos st + length s)%nat /\ ms_groups st' = ms_groups st.
Proof.
  induction s as [|c s IH]; intros st st'; simpl.
  - inversion 1; subst. repeat split; lia.
  - intros (st1 & H1 & H2)%matches_seq_inv.
    apply matches_char_inv in H1 as (E1 & P1 & G1).
    apply IH in H2 as (E2 & P2 & G2).
    rewrite E1, E2, P2, P1, G2, G1. repeat split; lia.
Qed.

Lemma matches_ext_group_inv i st st' :
  matches U (ext_group i) st st' ->
  exists e, e ∈ extensions /\ ms_rest st = e ++ ms_rest st' /\
    ms_pos st' = (ms_pos st + length e)%nat /\
    ms_groups st' = (i, e) :: ms_groups st.
Proof.
  unfold ext_group. intros (st1 & H1 & ->)%matches_group_inv.
  assert (exists e, e ∈ extensions /\ ms_rest st = e ++ ms_rest st1 /\
    ms_pos st1 = (ms_pos st + length e)%nat /\ ms_groups st1 = ms_groups st)
    as (e & He & E & P & G).
  { repeat match goal with
    | H : matches _ (RAlt _ _) _ _ |- _ => apply matches_alt_inv in H as [H|H]
    end;
    match goal with
    | H : matches _ (rlit ?s) _ _ |- _ =>
        apply matches_rlit_inv in H; exists s; split; [|exact H]
    end; unfold extensions;
    repeat first [apply list_elem_of_here | apply list_elem_of_further]. }
  exists e. simpl. rewrite P, E, G.
  replace (ms_pos st + length e - ms_pos st)%nat with (length e) by lia.
  rewrite take_app_length. done.
Qed.

Lemma matches_eol_inv st st' :
  matches U REol st st' -> st' = st /\ at_end (ms_rest st).
Proof. inversion 1; subst. done. Qed.

Lemma take_span (pos : nat) (c rest : pystr) :
  take (pos + length c - pos) (c ++ rest) = c.
Proof.
  replace (pos + length c - pos)%nat with (length c) by lia.
  apply take_app_length.
Qed.

(** [\.(ext)$] *)
Lemma ext_tail_inv i st st' :
  matches U (RSeq (RClass (CChar ch_dot)) (RSeq (ext_group i) REol)) st st' ->
  exists e, e ∈ extensions /\ at_end (ms_rest st') /\
    ms_rest st = [ch_dot] ++ e ++ ms_rest st' /\
    ms_groups st' = (i, e) :: ms_groups st.
Proof.
  intros (s1 & H1 & H2)%matches_seq_inv.
  apply matches_seq_inv in H2 as (s2 & H3 & H4).
  apply matches_char_inv in H1 as (E1 & P1 & G1).
  apply matches_ext_group_inv in H3 as (e & He & E2 & P2 & G2).
  apply matches_eol_inv in H4 as (-> & Hend).
  exists e. rewrite E1, E2, G2, G1. done.
Qed.

(** [-(\d+)\.(ext)$] *)
Lemma page_count_re_inv st st' :
  matches U page_count_re st st' ->
  exists ds e tail, ds <> [] /\ all_digits U ds /\ e ∈ extensions /\ at_end tail /\
    ms_rest st = [ch_hyphen] ++ ds ++ [ch_dot] ++ e ++ tail /\
    group 1 st' = Some ds.
Proof.
  unfold page_count_re.
  intros (s1 & H1 & H2)%matches_seq_inv.
  apply matches_seq_inv in H2 as (s2 & H3 & H4).
  apply matches_group_inv in H3 as (s2' & H5 & ->).
  apply matches_char_inv in H1 as (E1 & P1 & G1).
  apply matches_plus_inv in H5 as (ds & Hne & Hds & E2 & P2 & G2).
  apply ext_tail_inv in H4 as (e & He & Hend & E3 & G3).
  simpl in *.
  exists ds, e, (ms_rest st'). repeat split; try done.
  - rewrite E1, E2, E3. done.
  - unfold group. rewrite G3. simpl. by rewrite P2, E2, take_span.
Qed.

(** [-\d+\.(ext)$] *)
Lemma suffix_re_inv st st' :
  matches U suffix_re st st' ->
  exists ds e tail, ds <> [] /\ all_digits U ds /\ e ∈ extensions /\ at_end tail /\
    ms_rest st = [ch_hyphen] ++ ds ++ [ch_dot] ++ e ++ tail.
Proof.
  unfold suffix_re.
  intros (s1 & H1 & H2)%matches_seq_inv.
  apply matches_seq_inv in H2 as (s2 & H3 & H4).
  apply matches_char_inv in H1 as (E1 & P1 & G1).
  apply matches_plus_inv in H3 as (ds & Hne & Hds & E2 & P2 & G2).
  apply ext_tail_inv in H4 as (e & He & Hend & E3 & G3).
  exists ds, e, (ms_rest st'). repeat split; try done.
  rewrite E1, E2, E3. done.
Qed.

(** [^(.+?)-\d+\.(ext)$] *)
Lemma base_name_re_inv st st' :
  matches U base_name_re st st' ->
  exists b ds e tail, ms_pos st = 0%nat /\ b <> [] /\ (ch_lf ∉ b) /\
    ds <> [] /\ all_digits U ds /\ e ∈ extensions /\ at_end tail /\
    ms_rest st = b ++ [ch_hyphen] ++ ds ++ [ch_dot] ++ e ++ tail /\
    group 1 st' = Some b.
Proof.
  unfold base_name_re.
  intros (s0 & H0 & H)%matches_seq_inv.
  apply matches_seq_inv in H as (s1 & H1 & H).
  apply matches_seq_inv in H as (s2 & H2 & H).
  apply matches_seq_inv in H as (s3 & H3 & H4).
  inversion H0 as [| |? Hpos| | | | | | | | |]; subst.
  apply matches_group_inv in H1 as (s1' & H1 & ->).
  apply matches_lazy_inv in H1 as (b & Hne & Hb & E1 & P1 & G1).
  apply matches_char_inv in H2 as (E2 & P2 & G2).
  apply matches_plus_inv in H3 as (ds & Hdne & Hds & E3 & P3 & G3).
  apply ext_tail_inv in H4 as (e & He & Hend & E4 & G4).
  simpl in *.
  exists b, ds, e, (ms_rest st'). repeat split; try done.
  - intros Hin. rewrite Forall_forall in Hb. specialize (Hb _ Hin).
    discriminate Hb.
  - rewrite E1, E2, E3, E4. done.
  - unfold group. rewrite G4, G3, G2. simpl. by rewrite P1, E1, take_span.
Qed.

(** *** Building matches *)

Lemma matches_plus_intro cl (cs : pystr) :
  cs <> [] -> Forall (fun c => cclass_match U cl c = true) cs ->
  forall pos rest g,
    matches U (RPlus cl) (MState pos (cs ++ rest) g)
                         (MState (pos + length cs) rest g).
Proof.
  induction cs as [|c cs IH]; [done|]. intros _ Hall pos rest g.
  apply Forall_cons in Hall as [Hc Hall].
  destruct cs as [|c' cs].
  - simpl. replace (pos + 1)%nat with (S pos) by lia.
    by apply (M_PlusOne U cl c rest (MState pos (c :: rest) g)).
  - eapply (M_PlusMore U cl c _ (MState pos _ g)); [done|done|]. simpl.
    replace (pos + S (S (length cs)))%nat with (S pos + length (c' :: cs))%nat
      by (simpl; lia).
    by apply IH.
Qed.

Lemma matches_lazy_intro cl (cs : pystr) :
  cs <> [] -> Forall (fun c => cclass_match U cl c = true) cs ->
  forall pos rest g,
    matches U (RPlusLazy cl) (MState pos (cs ++ rest) g)
                             (MState (pos + length cs) rest g).
Proof.
  induction cs as [|c cs IH]; [done|]. intros _ Hall pos rest g.
  apply Forall_cons in Hall as [Hc Hall].
  destruct cs as [|c' cs].
  - simpl. replace (pos + 1)%nat with (S pos) by lia.
    by apply (M_LazyOne U cl c rest (MState pos (c :: rest) g)).
  - eapply (M_LazyMore U cl c _ (MState pos _ g)); [done|done|]. simpl.
    replace (pos + S (S (length cs)))%nat with (S pos + length (c' :: cs))%nat
      by (simpl; lia).
    by apply IH.
Qed.

Lemma matches_char_intro c pos rest g :
  matches U (RClass (CChar c)) (MState pos (c :: rest) g) (MState (S pos) rest g).
Proof.
  apply (M_Class U (CChar c) c rest (MState pos (c :: rest) g)); [done|].
  simpl. apply N.eqb_refl.
Qed.

Lemma matches_rlit_intro (s : pystr) : forall pos rest g,
  matches U (rlit s) (MState pos (s ++ rest) g) (MState (pos + length s) rest g).
Proof.
  induction s as [|c s IH]; intros pos rest g; simpl.
  - rewrite Nat.add_0_r. constructor.
  - eapply M_Seq; [apply matches_char_intro|].
    replace (pos + S (length s))%nat with (S pos + length s)%nat by lia.
    apply IH.
Qed.

Lemma matches_group_intro i r pos (c : pystr) rest g :
  matches U r (MState pos (c ++ rest) g) (MState (pos + length c) rest g) ->
  matches U (RGroup i r) (MState pos (c ++ rest) g)
                         (MState (pos + length c) rest ((i, c) :: g)).
Proof.
  intros H. apply (M_Group U i) in H. simpl in H.
  by rewrite take_span in H.
Qed.

Lemma matches_ext_group_intro i e pos rest g :
  e ∈ extensions ->
  matches U (ext_group i) (MState pos (e ++ rest) g)
                          (MState (pos + length e) rest ((i, e) :: g)).
Proof.
  intros He. apply matches_group_intro. unfold extensions in He.
  repeat (apply elem_of_cons in He as [->|He]);
    [..|by apply elem_of_nil in He];
    repeat first [ apply M_AltL, matches_rlit_intro
                 | apply matches_rlit_intro
                 | apply M_AltR ].
Qed.

Lemma ext_tail_intro i e tail pos g :
  e ∈ extensions -> at_end tail ->
  matches U (RSeq (RClass (CChar ch_dot)) (RSeq (ext_group i) REol))
    (MState pos ([ch_dot] ++ e ++ tail) g)
    (MState (S pos + length e) tail ((i, e) :: g)).
Proof.
  intros He Hend.
  eapply M_Seq; [apply matches_char_intro|].
  eapply M_Seq; [by apply matches_ext_group_intro|].
  by constructor.
Qed.

Lemma page_count_re_intro ds e tail pos g :
  ds <> [] -> all_digits U ds -> e ∈ extensions -> at_end tail ->
  exists st', matches U page_count_re
    (MState pos ([ch_hyphen] ++ ds ++ [ch_dot] ++ e ++ tail) g) st'.
Proof.
  intros Hne Hds He Hend. eexists. unfold page_count_re.
  eapply M_Seq; [apply matches_char_intro|].
  eapply M_Seq; [apply matches_group_intro, matches_plus_intro; done|].
  by apply ext_tail_intro.
Qed.

Lemma suffix_re_intro ds e tail pos g :
  ds <> [] -> all_digits U ds -> e ∈ extensions -> at_end tail ->
  exists st', matches U suffix_re
    (MState pos ([ch_hyphen] ++ ds ++ [ch_dot] ++ e ++ tail) g) st'.
Proof.
  intros Hne Hds He Hend. eexists. unfold suffix_re.
  eapply M_Seq; [apply matches_char_intro|].
  eapply M_Seq; [apply matches_plus_intro; done|].
  by apply ext_tail_intro.
Qed.

Lemma base_name_re_intro b ds e tail g :
  b <> [] -> (ch_lf ∉ b) ->
  ds <> [] -> all_digits U ds -> e ∈ extensions -> at_end tail ->
  exists st', matches U base_name_re
    (MState 0 (b ++ [ch_hyphen] ++ ds ++ [ch_dot] ++ e ++ tail) g) st'.
Proof.
  intros Hb Hlf Hne Hds He Hend. eexists. unfold base_name_re.
  eapply M_Seq; [by constructor|].
  eapply M_Seq.
  { apply matches_group_intro, matches_lazy_intro; [done|].
    apply Forall_forall. intros c Hc. simpl.
    destruct (N.eqb_spec c ch_lf) as [->|]; [done|done]. }
  eapply M_Seq; [apply matches_char_intro|].
  eapply M_Seq; [apply matches_plus_intro; done|].
  by apply ext_tail_intro.
Qed.

End PatternFacts.

(** ** The codec *)

Section CodecFacts.
Variable U : digit_class.

(** A run of digits before a hyphen is determined by the string. *)
Lemma digit_run_unique (ds1 ds2 x y : pystr) :
  all_digits U ds1 -> all_digits U ds2 ->
  ds1 ++ ch_hyphen :: x = ds2 ++ ch_hyphen :: y -> ds1 = ds2 /\ x = y.
Proof.
  revert ds2. induction ds1 as [|c ds1 IH]; intros [|c2 ds2] H1 H2; simpl.
  - by intros [= ->].
  - intros [= <- _]. apply Forall_cons in H2 as [H2 _].
    by rewrite hyphen_not_digit in H2.
  - intros [= -> _]. apply Forall_cons in H1 as [H1 _].
    by rewrite hyphen_not_digit in H1.
  - intros [= -> H]. apply Forall_cons in H1 as [_ H1].
    apply Forall_cons in H2 as [_ H2].
    destruct (IH _ H1 H2 H) as [-> ->]. done.
Qed.

Lemma reverse_shape (pre ds e t : pystr) :
  reverse (pre ++ [ch_hyphen] ++ ds ++ [ch_dot] ++ e ++ t)
  = reverse (e ++ t) ++ ch_dot :: (reverse ds ++ ch_hyphen :: reverse pre).
Proof.
  rewrite !reverse_app, !reverse_singleton, <-!app_assoc. done.
Qed.

Lemma page_file_name_unique (pre1 ds1 e1 t1 pre2 ds2 e2 t2 : pystr) :
  all_digits U ds1 -> all_digits U ds2 ->
  e1 ∈ extensions -> e2 ∈ extensions -> at_end t1 -> at_end t2 ->
  pre1 ++ [ch_hyphen] ++ ds1 ++ [ch_dot] ++ e1 ++ t1
  = pre2 ++ [ch_hyphen] ++ ds2 ++ [ch_dot] ++ e2 ++ t2 ->
  pre1 = pre2 /\ ds1 = ds2 /\ e1 = e2 /\ t1 = t2.
Proof.
  intros Hd1 Hd2 He1 He2 Ht1 Ht2 H.
  apply (f_equal reverse) in H. rewrite !reverse_shape in H.
  apply Forall_reverse in Hd1, Hd2.
  remember (reverse ds1 ++ ch_hyphen :: reverse pre1) as R1 eqn:HR1.
  remember (reverse ds2 ++ ch_hyphen :: reverse pre2) as R2 eqn:HR2.
  assert (e1 = e2 /\ t1 = t2 /\ R1 = R2) as (-> & -> & ->).
  { clear HR1 HR2 Hd1 Hd2. unfold extensions in He1, He2.
    repeat (apply elem_of_cons in He1 as [->|He1]);
      [..|by apply elem_of_nil in He1];
      (repeat (apply elem_of_cons in He2 as [->|He2]);
        [..|by apply elem_of_nil in He2]);
      destruct Ht1 as [-> | ->], Ht2 as [-> | ->];
      vm_compute in H; first [discriminate H | by injection H as ->]. }
  rewrite HR1 in HR2.
  destruct (digit_run_unique _ _ _ _ Hd1 Hd2 HR2) as [E1 E2].
  apply (f_equal reverse) in E1, E2. rewrite !reverse_involutive in E1, E2.
  by subst.
Qed.

(** *** [int] on digit strings *)

Lemma int_digits_total (ds : pystr) : forall acc,
  all_digits U ds -> 0 <= acc ->
  exists n, int_digits U acc ds = Some n /\ 0 <= n.
Proof.
  induction ds as [|c ds IH]; intros acc Hds Hacc; simpl.
  - by exists acc.
  - apply Forall_cons in Hds as [Hc Hds]. unfold is_digit in Hc.
    destruct (decimal_value U c) as [d|]; [|done].
    apply IH; [done|lia].
Qed.

Lemma py_int_digits (ds : pystr) :
  ds <> [] -> all_digits U ds -> (length ds <= int_max_str_digits)%nat ->
  exists n, py_int U ds = Ok n /\ 0 <= n.
Proof.
  intros Hne Hds Hlen.
  destruct (int_digits_total ds 0 Hds) as (n & Hn & Hpos); [lia|].
  exists n. unfold py_int. destruct ds; [done|].
  destruct (Nat.ltb_spec int_max_str_digits (length (n0 :: ds))); [lia|].
  by rewrite Hn.
Qed.

Lemma py_cons (a : ascii) (s : string) :
  py (String a s) = N_of_ascii a :: py s.
Proof. done. Qed.

Lemma int_digits_uint (d : Decimal.uint) : forall a : nat,
  int_digits U (Z.of_nat a) (py (NilEmpty.string_of_uint d))
  = Some (Z.of_nat (Nat.of_uint_acc d a)).
Proof.
  induction d; intros a; simpl NilEmpty.string_of_uint; [done|..];
    rewrite py_cons; simpl int_digits;
    match goal with
    | |- context [decimal_value U ?x] =>
        let k := eval vm_compute in (x - 48)%N in
        change (decimal_value U x) with (decimal_value U (48 + k)%N);
        rewrite (decimal_ascii U k) by done
    end;
    simpl Nat.of_uint_acc; rewrite <-IHd; f_equal;
    rewrite Nat.tail_mul_spec; lia.
Qed.

Lemma all_digits_uint (d : Decimal.uint) :
  all_digits U (py (NilEmpty.string_of_uint d)).
Proof.
  induction d; simpl NilEmpty.string_of_uint; [constructor|..];
    rewrite py_cons; (constructor; [|done]); unfold is_digit;
    match goal with
    | |- context [decimal_value U ?x] =>
        let k := eval vm_compute in (x - 48)%N in
        change (decimal_value U x) with (decimal_value U (48 + k)%N);
        rewrite (decimal_ascii U k) by done
    end; done.
Qed.

Lemma to_uint_not_nil (n : nat) : Nat.to_uint n <> Decimal.Nil.
Proof.
  intros H. pose proof (DecimalNat.Unsigned.of_to n) as E.
  rewrite H in E. simpl in E. subst n. discriminate H.
Qed.

Lemma py_str_nat_eq (n : nat) :
  py_str_nat n = py (NilEmpty.string_of_uint (Nat.to_uint n)).
Proof.
  unfold py_str_nat, NilZero.string_of_uint.
  pose proof (to_uint_not_nil n). by destruct (Nat.to_uint n).
Qed.

Lemma py_str_nat_digits (n : nat) : all_digits U (py_str_nat n).
Proof. rewrite py_str_nat_eq. apply all_digits_uint. Qed.

Lemma py_str_nat_nonempty (n : nat) : py_str_nat n <> [].
Proof.
  rewrite py_str_nat_eq. pose proof (to_uint_not_nil n).
  by destruct (Nat.to_uint n).
Qed.

Lemma int_digits_str_nat (n : nat) :
  int_digits U 0 (py_str_nat n) = Some (Z.of_nat n).
Proof.
  rewrite py_str_nat_eq. change 0 with (Z.of_nat 0). rewrite int_digits_uint.
  change (Nat.of_uint_acc (Nat.to_uint n) 0) with (Nat.of_uint (Nat.to_uint n)).
  by rewrite DecimalNat.Unsigned.of_to.
Qed.

(** [int(str(n)) = n] *)
Lemma py_int_str_nat (n : nat) :
  (length (py_str_nat n) <= int_max_str_digits)%nat ->
  py_int U (py_str_nat n) = Ok (Z.of_nat n).
Proof.
  intros Hlen. unfold py_int. pose proof (py_str_nat_nonempty n) as Hne.
  destruct (py_str_nat n) eqn:E; [done|]. rewrite <-E.
  destruct (Nat.ltb_spec int_max_str_digits (length (py_str_nat n)));
    [rewrite E in *; lia|].
  by rewrite int_digits_str_nat.
Qed.

(** *** The codec on names with a page suffix *)

Lemma search_page_count_re (pre ds e : pystr) :
  ds <> [] -> all_digits U ds -> e ∈ extensions ->
  exists m, search U page_count_re (page_file_name pre ds e) = Some m /\
    group 1 m = Some ds.
Proof.
  intros Hne Hds He.
  assert (is_Some (search U page_count_re (page_file_name pre ds e))) as [m Hm].
  { apply search_from_complete.
    destruct (page_count_re_intro U ds e [] (0 + length pre) [] Hne Hds He)
      as [st' Hst']; [by left|].
    rewrite app_nil_r in Hst'.
    by apply (rmatch_complete U _ _ _ Hst' Some). }
  exists m. split; [done|].
  apply search_from_sound in Hm as (pre' & post & Hsplit & Hm).
  apply rmatch_sound in Hm as (st' & Hmatch & [= <-]).
  apply page_count_re_inv in Hmatch
    as (ds' & e' & tail & Hne' & Hds' & He' & Hend & Hrest & Hg).
  simpl in Hrest. rewrite Hrest in Hsplit. unfold page_file_name in Hsplit.
  rewrite <-(app_nil_r e) in Hsplit.
  apply page_file_name_unique in Hsplit as (_ & -> & _); try done.
  by left.
Qed.

Lemma extract_page_count_page_file (pre ds e : pystr) :
  ds <> [] -> all_digits U ds -> (length ds <= int_max_str_digits)%nat ->
  e ∈ extensions ->
  exists n, extract_page_count U (page_file_name pre ds e) = Ok (Some n) /\
    py_int U ds = Ok n.
Proof.
  intros Hne Hds Hlen He.
  destruct (search_page_count_re pre ds e Hne Hds He) as (m & Hm & Hg).
  destruct (py_int_digits ds Hne Hds Hlen) as (n & Hn & _).
  exists n. unfold extract_page_count. rewrite Hm, Hg. simpl. by rewrite Hn.
Qed.

Lemma get_base_filename_page_file (base ds e : pystr) :
  base <> [] -> (ch_lf ∉ base) ->
  ds <> [] -> all_digits U ds -> e ∈ extensions ->
  get_base_filename U (page_file_name base ds e) = Some base.
Proof.
  intros Hb Hlf Hne Hds He. unfold get_base_filename.
  assert (is_Some (search U base_name_re (page_file_name base ds e))) as [m Hm].
  { apply (search_from_complete U _ []).
    destruct (base_name_re_intro U base ds e [] [] Hb Hlf Hne Hds He)
      as [st' Hst']; [by left|].
    rewrite app_nil_r in Hst'.
    by apply (rmatch_complete U _ _ _ Hst' Some). }
  rewrite Hm. f_equal.
  apply search_from_sound in Hm as (pre' & post & Hsplit & Hm).
  apply rmatch_sound in Hm as (st' & Hmatch & [= <-]).
  apply base_name_re_inv in Hmatch
    as (b & ds' & e' & tail & Hpos & _ & _ & _ & Hds' & He' & Hend & Hrest & Hg).
  simpl in Hrest, Hpos. destruct pre'; [|done]. simpl in Hsplit.
  rewrite Hrest in Hsplit. unfold page_file_name in Hsplit.
  rewrite <-(app_nil_r e) in Hsplit.
  apply page_file_name_unique in Hsplit as (-> & _); try done; [|by left].
  by rewrite Hg.
Qed.

(** *** The discovery filter and the codec *)

Lemma is_image_file_iff (f : pystr) :
  is_image_file U f = true <-> has_page_suffix U f.
Proof.
  unfold is_image_file. split.
  - destruct (search U suffix_re f) as [m|] eqn:Hm; [intros _|done].
    apply search_from_sound in Hm as (pre & post & -> & Hm).
    apply rmatch_sound in Hm as (st' & Hmatch & _).
    apply suffix_re_inv in Hmatch as (ds & e & tail & ? & ? & ? & ? & Hrest).
    simpl in Hrest. subst post. by exists pre, ds, e, tail.
  - intros (pre & ds & e & tail & Hne & Hds & He & Hend & ->).
    assert (is_Some (search U suffix_re
      (pre ++ [ch_hyphen] ++ ds ++ [ch_dot] ++ e ++ tail))) as [m ->]; [|done].
    apply search_from_complete.
    destruct (suffix_re_intro U ds e tail (0 + length pre) [] Hne Hds He Hend)
      as [st' Hst'].
    by apply (rmatch_complete U _ _ _ Hst' Some).
Qed.

Lemma extract_page_count_suffix (f : pystr) :
  has_page_suffix U f -> (length f <= int_max_str_digits)%nat ->
  exists n, extract_page_count U f = Ok (Some n) /\ 0 <= n.
Proof.
  intros (pre & ds & e & tail & Hne & Hds & He & Hend & ->) Hlen.
  unfold extract_page_count.
  assert (is_Some (search U page_count_re
    (pre ++ [ch_hyphen] ++ ds ++ [ch_dot] ++ e ++ tail))) as [m Hm].
  { apply search_from_complete.
    destruct (page_count_re_intro U ds e tail (0 + length pre) [] Hne Hds He Hend)
      as [st' Hst'].
    by apply (rmatch_complete U _ _ _ Hst' Some). }
  rewrite Hm.
  apply search_from_sound in Hm as (pre' & post & Hsplit & Hm).
  apply rmatch_sound in Hm as (st' & Hmatch & [= <-]).
  apply page_count_re_inv in Hmatch
    as (ds' & e' & tail' & Hne' & Hds' & He' & Hend' & Hrest & Hg).
  rewrite Hg. simpl.
  destruct (py_int_digits ds' Hne' Hds') as (n & -> & Hn); [|by exists n].
  simpl in Hrest. rewrite Hsplit, Hrest in Hlen.
  rewrite !length_app in Hlen. simpl in Hlen. rewrite !length_app in Hlen.
  unfold int_max_str_digits in *. lia.
Qed.

Lemma extract_page_count_no_suffix (f : pystr) :
  ~ has_page_suffix U f -> extract_page_count U f = Ok None.
Proof.
  intros Hno. unfold extract_page_count.
  destruct (search U page_count_re f) as [m|] eqn:Hm; [|done].
  exfalso. apply Hno.
  apply search_from_sound in Hm as (pre & post & -> & Hm).
  apply rmatch_sound in Hm as (st' & Hmatch & _).
  apply page_count_re_inv in Hmatch as (ds & e & tail & ? & ? & ? & ? & Hrest & _).
  simpl in Hrest. subst post. by exists pre, ds, e, tail.
Qed.

Lemma get_base_filename_suffix (f b : pystr) :
  get_base_filename U f = Some b ->
  b <> [] /\ (ch_lf ∉ b) /\ has_page_suffix U f.
Proof.
  unfold get_base_filename.
  destruct (search U base_name_re f) as [m|] eqn:Hm; [|done].
  apply search_from_sound in Hm as (pre & post & -> & Hm).
  apply rmatch_sound in Hm as (st' & Hmatch & [= <-]).
  apply base_name_re_inv in Hmatch
    as (b' & ds & e & tail & Hpos & Hb & Hlf & Hne & Hds & He & Hend & Hrest & Hg).
  rewrite Hg. simpl. intros [= <-]. repeat split; try done.
  simpl in Hrest. subst post. exists (pre ++ b'), ds, e, tail.
  by rewrite <-app_assoc.
Qed.

Lemma get_base_filename_no_suffix (f : pystr) :
  ~ has_page_suffix U f -> get_base_filename U f = None.
Proof.
  intros Hno. destruct (get_base_filename U f) as [b|] eqn:Hb; [|done].
  by apply get_base_filename_suffix in Hb as (_ & _ & ?).
Qed.

End CodecFacts.

Lemma py_str_nat_inj (n m : nat) : py_str_nat n = py_str_nat m -> n = m.
Proof.
  intros H. pose proof (int_digits_str_nat ascii_digits n) as Hn.
  rewrite H, int_digits_str_nat in Hn. injection Hn. lia.
Qed.

(** ** The slicer *)

(** A loop whose body appends one element and has no other effect. *)
Lemma for_each_append {A B : Type} (f : A -> B) (body : A -> list B -> M (list B))
    (w : world) (xs : list A) :
  Forall (fun x => forall acc, body x acc w = (Ok (acc ++ [f x]), w)) xs ->
  forall acc, for_each xs body acc w = (Ok (acc ++ map f xs), w).
Proof.
  induction 1 as [|x xs Hx _ IH]; intros acc; simpl.
  - by rewrite app_nil_r.
  - unfold bind. rewrite Hx, IH, <-app_assoc. done.
Qed.

Lemma image_crop_strip (img : image) (num_parts i : Z) :
  0 <= img_width img -> 0 <= img_height img -> 0 <= i < num_parts ->
  let part_height := img_height img / num_parts in
  let top := i * part_height in
  let bottom :=
    if i <? num_parts - 1 then (i + 1) * part_height else img_height img in
  image_crop img (0, top, img_width img, bottom) = Ok (strip_of img num_parts i).
Proof.
  intros Hw Hh Hi. simpl. unfold image_crop, strip_of.
  destruct (Z.ltb_spec (img_width img) 0); [lia|].
  assert (0 <= img_height img / num_parts) by (apply Z.div_pos; lia).
  assert (num_parts * (img_height img / num_parts) <= img_height img)
    by (apply Z.mul_div_le; lia).
  rewrite Z.sub_0_r.
  destruct (Z.ltb_spec i (num_parts - 1)).
  - destruct (Z.ltb_spec ((i + 1) * (img_height img / num_parts))
                         (i * (img_height img / num_parts))); [nia|done].
  - destruct (Z.ltb_spec (img_height img)
                         (i * (img_height img / num_parts))); [nia|done].
Qed.

Lemma py_range_bounds (n : Z) : Forall (fun i => 0 <= i < n) (py_range n).
Proof.
  unfold py_range. apply Forall_forall. intros i Hi.
  apply list_elem_of_lookup in Hi as (k & Hk).
  apply lookup_seqZ in Hk. lia.
Qed.

Lemma cut_image_vertically_strips (image_path : pystr) (num_parts : Z)
    (img : image) (w : world) :
  image_open image_path w = (Ok img, w) ->
  0 <= img_width img -> 0 <= img_height img -> 1 <= num_parts ->
  cut_image_vertically image_path num_parts w
  = (Ok (map (strip_of img num_parts) (py_range num_parts)), w).
Proof.
  intros Hopen Hw Hh Hn. unfold cut_image_vertically.
  unfold bind at 1. rewrite Hopen. unfold img_size. cbv beta iota zeta.
  unfold bind at 1. unfold lift_result at 1, floordiv.
  destruct (Z.eqb_spec num_parts 0); [lia|].
  unfold bind at 1.
  rewrite (for_each_append (strip_of img num_parts)); [done|].
  eapply Forall_impl; [apply (py_range_bounds num_parts)|].
  intros i Hi acc. simpl in Hi.
  pose proof (image_crop_strip img num_parts i Hw Hh Hi) as Hcrop.
  cbv zeta in Hcrop. cbv zeta. unfold bind, lift_result. by rewrite Hcrop.
Qed.

Lemma total_height_app (a b : list image) :
  total_height (a ++ b) = total_height a + total_height b.
Proof.
  unfold total_height. induction a as [|x a IH]; [done|].
  rewrite <-app_comm_cons, !fmap_cons. simpl. rewrite IH. lia.
Qed.

Lemma strip_of_height_inner (img : image) (n i : Z) :
  i < n - 1 -> img_height (strip_of img n i) = img_height img / n.
Proof.
  intros Hi. unfold strip_of. simpl.
  destruct (Z.ltb_spec i (n - 1)); lia.
Qed.

Lemma strip_of_height_last (img : image) (n : Z) :
  img_height (strip_of img n (n - 1))
  = img_height img - (n - 1) * (img_height img / n).
Proof.
  unfold strip_of. simpl. destruct (Z.ltb_spec (n - 1) (n - 1)); lia.
Qed.

(** The first [k] strips, all of them inner ones, stack to [k] part
    heights. *)
Lemma total_height_inner (img : image) (n : Z) (k : nat) :
  Z.of_nat k <= n - 1 ->
  total_height (strip_of img n <$> seqZ 0 (Z.of_nat k))
  = Z.of_nat k * (img_height img / n).
Proof.
  induction k as [|k IH]; intros Hk; [done|].
  rewrite seqZ_S, fmap_app, total_height_app, IH by lia.
  change (total_height (strip_of img n <$> [0 + Z.of_nat k]))
    with (img_height (strip_of img n (0 + Z.of_nat k)) + 0).
  rewrite strip_of_height_inner by lia. lia.
Qed.

Lemma total_height_strips (img : image) (n : Z) :
  1 <= n -> total_height (strip_of img n <$> py_range n) = img_height img.
Proof.
  intros Hn. unfold py_range.
  replace n with (Z.of_nat (S (Z.to_nat (n - 1)))) at 2 by lia.
  rewrite seqZ_S, fmap_app, total_height_app, total_height_inner by lia.
  change (total_height (strip_of img n <$> [0 + Z.of_nat (Z.to_nat (n - 1))]))
    with (img_height (strip_of img n (0 + Z.of_nat (Z.to_nat (n - 1)))) + 0).
  replace (Z.of_nat (Z.to_nat (n - 1))) with (n - 1) by lia.
  rewrite Z.add_0_l, strip_of_height_last. lia.
Qed.

Lemma strips_lookup (img : image) (n : Z) (i : nat) (s : image) :
  (strip_of img n <$> py_range n) !! i = Some s ->
  s = strip_of img n (Z.of_nat i) /\ Z.of_nat i < n.
Proof.
  rewrite list_lookup_fmap. unfold py_range.
  destruct (seqZ 0 n !! i) as [j|] eqn:Hj; [|done].
  apply lookup_seqZ in Hj as [-> Hi]. simpl. by intros [= <-].
Qed.

Lemma strips_take (img : image) (n : Z) (i : nat) :
  Z.of_nat i <= n ->
  take i (strip_of img n <$> py_range n) = strip_of img n <$> seqZ 0 (Z.of_nat i).
Proof.
  intros Hi. unfold py_range.
  replace n with (Z.of_nat i + (n - Z.of_nat i)) at 2 by lia.
  rewrite seqZ_app, fmap_app by lia.
  rewrite take_app_length'; [done|].
  rewrite length_fmap, length_seqZ. lia.
Qed.

(** ** Paths *)

Lemma split_slash_not_nil (p : pystr) : split_slash p <> [].
Proof.
  induction p as [|c p IH]; simpl; [done|].
  destruct (N.eqb c ch_slash); [done|]. by destruct (split_slash p).
Qed.

Lemma split_slash_no_slash (n : pystr) : ch_slash ∉ n -> split_slash n = [n].
Proof.
  induction n as [|c n IH]; intros Hn; simpl; [done|].
  apply not_elem_of_cons in Hn as [Hc Hn].
  destruct (N.eqb_spec c ch_slash); [done|]. by rewrite IH.
Qed.

Lemma split_slash_app (x y : pystr) :
  split_slash (x ++ ch_slash :: y) = split_slash x ++ split_slash y.
Proof.
  induction x as [|c x IH]; simpl; [done|].
  destruct (N.eqb c ch_slash); [by rewrite IH|].
  rewrite IH. pose proof (split_slash_not_nil x).
  by destruct (split_slash x).
Qed.

Lemma components_app (x y : pystr) :
  components (x ++ ch_slash :: y) = components x ++ components y.
Proof. unfold components. by rewrite split_slash_app, filter_app. Qed.

Lemma components_name (n : pystr) :
  ch_slash ∉ n -> is_name n = true -> components n = [n].
Proof.
  intros Hn Hname. unfold components. rewrite split_slash_no_slash by done.
  rewrite filter_cons_True by done. done.
Qed.

Lemma components_trailing_slash (x : pystr) :
  components (x ++ [ch_slash]) = components x.
Proof. rewrite components_app. unfold components at 2. simpl. apply app_nil_r. Qed.

(** A plain name joined to a directory path names an entry of that
    directory. *)
Lemma components_join (out n : pystr) :
  ch_slash ∉ n -> is_name n = true ->
  components (os_path_join out n) = components out ++ [n].
Proof.
  intros Hn Hname. unfold os_path_join.
  destruct n as [|c n]; [done|].
  destruct (N.eqb_spec c ch_slash) as [->|_].
  { exfalso. apply Hn. apply list_elem_of_here. }
  destruct (last out) as [l|] eqn:Hlast.
  - destruct (N.eqb_spec l ch_slash) as [->|_].
    + apply last_Some in Hlast as [out' ->].
      rewrite <-app_assoc. simpl. rewrite components_app, components_trailing_slash.
      by rewrite (components_name (c :: n)).
    + simpl. rewrite components_app. by rewrite (components_name (c :: n)).
  - apply last_None in Hlast as ->. simpl. by rewrite (components_name (c :: n)).
Qed.

Lemma parent_of_join (out n : pystr) :
  ch_slash ∉ n -> is_name n = true ->
  parent_of (os_path_join out n) = Some (components out, components out ++ [n]).
Proof.
  intros Hn Hname. unfold parent_of. rewrite components_join by done.
  rewrite last_snoc, length_app. simpl.
  replace (length (components out) + 1 - 1)%nat with (length (components out)) by lia.
  by rewrite take_app_length.
Qed.

(** ** Strip names *)

Lemma slash_not_digit (U : digit_class) : is_digit U ch_slash = false.
Proof.
  unfold is_digit. destruct (decimal_value U ch_slash) as [d|] eqn:H; [|done].
  apply decimal_ascii_only in H; unfold ch_slash in *; lia.
Qed.

Lemma strip_name_no_slash (base : pystr) (i : nat) :
  ch_slash ∉ base -> ch_slash ∉ strip_name base i.
Proof.
  intros Hb. unfold strip_name. rewrite !not_elem_of_app. repeat split.
  - done.
  - by intros [[=]|[[=]|[]%elem_of_nil]%elem_of_cons]%elem_of_cons.
  - intros Hin. pose proof (py_str_nat_digits ascii_digits i) as Hd.
    unfold all_digits in Hd. rewrite Forall_forall in Hd.
    specialize (Hd _ Hin). by rewrite slash_not_digit in Hd.
  - by intros [[=]|[]%elem_of_nil]%elem_of_cons.
  - vm_compute. intros H. repeat (apply elem_of_cons in H as [[=]|H]).
    by apply elem_of_nil in H.
Qed.

Lemma strip_name_is_name (base : pystr) (i : nat) :
  is_name (strip_name base i) = true.
Proof.
  unfold is_name, strip_name.
  assert (2 <= length (base ++ [ch_hyphen; ch_di] ++ py_str_nat i ++ [ch_ye] ++ py ".png"))%nat
    as Hlen by (rewrite !length_app; simpl; lia).
  destruct (base ++ [ch_hyphen; ch_di] ++ py_str_nat i ++ [ch_ye] ++ py ".png")
    as [|c [|c' l]]; simpl in Hlen; [lia|lia|].
  rewrite !bool_decide_eq_false_2 by done. done.
Qed.

Lemma strip_name_inj (base : pystr) (i j : nat) :
  strip_name base i = strip_name base j -> i = j.
Proof.
  unfold strip_name. intros H. apply app_inv_head in H.
  apply (app_inv_head [ch_hyphen; ch_di]) in H. apply app_inv_tail in H.
  by apply py_str_nat_inj.
Qed.

(** ** Writing files *)

Lemma fs_is_dir_insert_file (fs : filesystem) (d key : list pystr) (c : content) :
  key <> d -> fs_is_dir fs d = true -> fs_is_dir (<[key := File c]> fs) d = true.
Proof.
  intros Hne. unfold fs_is_dir. destruct d as [|n d]; [done|].
  by rewrite fs_lookup_insert_ne.
Qed.

Lemma entry_not_dir (d : list pystr) (n : pystr) : d ++ [n] <> d.
Proof.
  intros H. apply (f_equal length) in H. rewrite length_app in H. simpl in H. lia.
Qed.

Lemma fs_open_write_ok (fs : filesystem) (p : pystr) (d key : list pystr) :
  parent_of p = Some (d, key) -> fs_is_dir fs d = true -> fs !! key <> Some Dir ->
  fs_refused fs WriteFile key = None ->
  fs_open_write fs p = Ok key.
Proof.
  intros Hp Hd Hk Hos. unfold fs_open_write. rewrite Hp, Hd, Hos.
  by destruct (fs !! key) as [[|]|].
Qed.

Lemma image_save_png_ok (img : image) (p : pystr) (d key : list pystr) (w : world) :
  png_writes (img_mode img) = true -> image_nonempty img = true ->
  parent_of p = Some (d, key) -> fs_is_dir (w_fs w) d = true ->
  w_fs w !! key <> Some Dir ->
  fs_refused (w_fs w) WriteFile key = None ->
  image_save_png img p w
  = (Ok tt, World (<[key := File (ImageFile PNG img)]> (w_fs w)) (w_log w)).
Proof.
  intros Hm Hn Hp Hd Hk Hos. unfold image_save_png.
  by rewrite (fs_open_write_ok _ _ d key), Hm, Hn.
Qed.

(** ** The strip writer *)

Lemma lookup_write_strips_other (d : list pystr) (base : pystr)
    (images : list image) : forall (start : nat) (fs : filesystem) (key : list pystr),
  (forall k, (k < length images)%nat -> key <> d ++ [strip_name base (start + k)]) ->
  write_strips d base start images fs !! key = fs !! key.
Proof.
  induction images as [|img images IH]; intros start fs key Hkey; simpl; [done|].
  rewrite IH.
  - apply fs_lookup_insert_ne. intros <-. apply (Hkey 0%nat); [simpl; lia|].
    by rewrite Nat.add_0_r.
  - intros k Hk. replace (S start + k)%nat with (start + S k)%nat by lia.
    apply Hkey. simpl. lia.
Qed.

Lemma lookup_write_strips (d : list pystr) (base : pystr)
    (images : list image) : forall (start : nat) (fs : filesystem) (k : nat) img,
  images !! k = Some img ->
  write_strips d base start images fs !! (d ++ [strip_name base (start + k)])
  = Some (File (ImageFile PNG img)).
Proof.
  induction images as [|img0 images IH]; intros start fs k img Hk; [done|].
  destruct k as [|k]; simpl in *.
  - injection Hk as ->. rewrite lookup_write_strips_other.
    + rewrite Nat.add_0_r. apply fs_lookup_insert_eq.
    + intros k _ H. apply app_inv_head in H. injection H as H.
      apply strip_name_inj in H. lia.
  - replace (start + S k)%nat with (S start + k)%nat by lia. by apply IH.
Qed.

Lemma save_cut_images_loop (base out : pystr) (images : list image) :
  ch_slash ∉ base ->
  Forall (fun img => png_writes (img_mode img) = true /\ image_nonempty img = true)
         images ->
  forall (start : nat) (saved : list pystr) (w : world),
    fs_is_dir (w_fs w) (components out) = true ->
    (forall k, (k < length images)%nat ->
       w_fs w !! (components out ++ [strip_name base (start + k)]) <> Some Dir) ->
    (forall k, (k < length images)%nat ->
       fs_refused (w_fs w) WriteFile
         (components out ++ [strip_name base (start + k)]) = None) ->
    for_each (enumerate start images)
      (fun '(i, img) saved_paths =>
         let output_path := os_path_join out (strip_name base i) in
         let* _ := image_save_png img output_path in
         ret (saved_paths ++ [output_path]))
      saved w
    = (Ok (saved ++ ((fun i => os_path_join out (strip_name base i))
                       <$> seq start (length images))),
       World (write_strips (components out) base start images (w_fs w)) (w_log w)).
Proof.
  intros Hbase. induction 1 as [|img images [Hm Hn] _ IH];
    intros start saved w Hdir Hfree Hos; simpl.
  - rewrite app_nil_r. by destruct w.
  - unfold bind at 1. unfold bind at 1.
    rewrite (image_save_png_ok img _ (components out)
               (components out ++ [strip_name base start])); try done.
    + unfold ret at 1. rewrite IH.
      * by rewrite <-app_assoc.
      * apply fs_is_dir_insert_file; [apply entry_not_dir|done].
      * intros k Hk. simpl. rewrite fs_lookup_insert_ne.
        -- rewrite <-Nat.add_succ_r. apply Hfree. simpl. lia.
        -- intros H. apply app_inv_head in H. injection H as H.
           apply strip_name_inj in H. lia.
      * intros k Hk. cbn [w_fs]. rewrite fs_refused_insert.
        replace (S start + k)%nat with (start + S k)%nat by lia.
        apply Hos. simpl. lia.
    + apply parent_of_join; [by apply strip_name_no_slash|apply strip_name_is_name].
    + specialize (Hfree 0%nat). rewrite Nat.add_0_r in Hfree. apply Hfree. simpl. lia.
    + specialize (Hos 0%nat). rewrite Nat.add_0_r in Hos. apply Hos. simpl. lia.
Qed.

(** ** The document assembler *)

Lemma rgb_of_nonempty (img : image) :
  image_nonempty (rgb_of img) = image_nonempty img.
Proof. unfold rgb_of. by case_bool_decide. Qed.

Lemma images_to_pdf_convert_loop (images : list image) (w : world) :
  Forall (fun img => img_mode img <> ModeI16) images ->
  forall acc,
    for_each images
      (fun img rgb_images =>
         if bool_decide (img_mode img <> ModeRGB) then
           let* rgb_img := lift_result (image_convert_rgb img) in
           ret (rgb_images ++ [rgb_img])
         else ret (rgb_images ++ [img]))
      acc w
    = (Ok (acc ++ (rgb_of <$> images)), w).
Proof.
  intros Hall. apply for_each_append.
  eapply Forall_impl; [exact Hall|]. intros img Hm acc. simpl in Hm.
  unfold rgb_of. case_bool_decide; [|done].
  unfold bind, lift_result, image_convert_rgb. by destruct (img_mode img).
Qed.

Lemma image_save_auto_ok (first : image) (more : list image) (res : Z)
    (p : pystr) (d key : list pystr) (w : world) :
  has_pdf_extension p = true ->
  forallb image_nonempty (first :: more) = true ->
  parent_of p = Some (d, key) -> fs_is_dir (w_fs w) d = true ->
  w_fs w !! key <> Some Dir ->
  fs_refused (w_fs w) WriteFile key = None ->
  image_save_auto first more res p w
  = (Ok tt, World (<[key := File (PdfFile (first :: more) res)]> (w_fs w)) (w_log w)).
Proof.
  intros He Hn Hp Hd Hk Hos. unfold image_save_auto. rewrite He.
  rewrite (fs_open_write_ok _ _ d key) by done. cbv beta iota.
  by rewrite Hn.
Qed.

(** ** The orchestrator *)

Lemma images_to_pdf_written (images : list image) (output_path : pystr)
    (d key : list pystr) (w : world) :
  images <> [] ->
  Forall (fun img => img_mode img <> ModeI16 /\ image_nonempty img = true) images ->
  has_pdf_extension output_path = true ->
  parent_of output_path = Some (d, key) ->
  fs_is_dir (w_fs w) d = true ->
  w_fs w !! key <> Some Dir ->
  fs_refused (w_fs w) WriteFile key = None ->
  images_to_pdf images output_path w
  = (Ok (state_after_pdf <$> images),
     World (<[key := File (PdfFile (rgb_of <$> images)
                             (if (1 <? length images)%nat then 100 else 72))]>
              (w_fs w))
           (w_log w)).
Proof.
  intros Hne Hall Hext Hp Hd Hk Hos.
  unfold images_to_pdf. destruct images as [|img images]; [done|].
  unfold bind at 1. rewrite images_to_pdf_convert_loop.
  2:{ eapply Forall_impl; [exact Hall|]. by intros ? [? ?]. }
  assert (forallb image_nonempty (rgb_of <$> img :: images) = true) as Hn.
  { apply forallb_forall. intros x Hx. apply list_elem_of_In in Hx.
    apply list_elem_of_fmap in Hx as (y & -> & Hy).
    rewrite Forall_forall in Hall. destruct (Hall y Hy) as [_ Hy'].
    by rewrite rgb_of_nonempty. }
  rewrite app_nil_l, fmap_cons, length_cons, length_fmap in *.
  change (length (img :: images)) with (S (length images)).
  unfold bind at 1.
  destruct (1 <? S (length images))%nat eqn:Hlen.
  - by rewrite (image_save_auto_ok _ _ _ _ d key).
  - destruct images; [|done].
    by rewrite (image_save_auto_ok _ _ _ _ d key).
Qed.

Lemma fs_makedirs_preserves (p : pystr) (todo : list pystr) :
  forall (fs : filesystem) (done : list pystr) r fs',
    fs_makedirs fs p done todo = (r, fs') ->
    forall k v, fs !! k = Some v -> fs' !! k = Some v.
Proof.
  induction todo as [|name todo IH]; intros fs done r fs'; simpl.
  - by intros [= _ <-].
  - destruct (fs !! (done ++ [name])) as [[|c]|] eqn:Hd.
    + apply IH.
    + by intros [= _ <-].
    + destruct (fs_refused fs MakeDirectory (done ++ [name])) as [e|];
        [by intros [= _ <-]|].
      intros H k v Hk. eapply IH; [exact H|].
      rewrite fs_lookup_insert_ne; [done|]. intros <-. congruence.
Qed.

Lemma os_makedirs_is_dir (p : pystr) (w : world) (d : list pystr) :
  fs_is_dir (w_fs w) d = true ->
  fs_is_dir (w_fs (snd (os_makedirs p w))) d = true.
Proof.
  unfold os_makedirs. destruct p as [|c p]; [done|].
  destruct (fs_makedirs (w_fs w) (c :: p) [] (components (c :: p))) as [r fs'] eqn:H.
  simpl. unfold fs_is_dir. destruct d as [|n d]; [done|].
  destruct (w_fs w !! (n :: d)) as [[|]|] eqn:Hd; try done.
  by rewrite (fs_makedirs_preserves _ _ _ _ _ _ H _ _ Hd).
Qed.

Lemma os_makedirs_log (p : pystr) (w : world) :
  w_log (snd (os_makedirs p w)) = w_log w.
Proof.
  unfold os_makedirs. destruct p as [|c p]; [done|].
  by destruct (fs_makedirs (w_fs w) (c :: p) [] (components (c :: p))).
Qed.

Lemma fs_makedirs_refused (p : pystr) (todo : list pystr) :
  forall (fs : filesystem) (done : list pystr) r fs',
    fs_makedirs fs p done todo = (r, fs') -> fs_refused fs' = fs_refused fs.
Proof.
  induction todo as [|name todo IH]; intros fs done r fs'; simpl.
  - by intros [= _ <-].
  - destruct (fs !! (done ++ [name])) as [[|c]|].
    + apply IH.
    + by intros [= _ <-].
    + destruct (fs_refused fs MakeDirectory (done ++ [name])) as [e|];
        [by intros [= _ <-]|].
      intros H. by apply IH in H.
Qed.

Lemma os_makedirs_refused (p : pystr) (w : world) :
  fs_refused (w_fs (snd (os_makedirs p w))) = fs_refused (w_fs w).
Proof.
  unfold os_makedirs. destruct p as [|c p]; [done|].
  destruct (fs_makedirs (w_fs w) (c :: p) [] (components (c :: p))) as [r fs'] eqn:H.
  simpl. by eapply fs_makedirs_refused.
Qed.

Lemma os_listdir_dir (p : pystr) (w : world) :
  fs_isdir (w_fs w) p = true ->
  fs_refused (w_fs w) ListDirectory (components p) = None ->
  os_listdir p w = (Ok (fs_entries (w_fs w) (components p)), w).
Proof.
  unfold fs_isdir, os_listdir. destruct p as [|c p]; [done|]. by intros -> ->.
Qed.

Lemma os_listdir_refused (p : pystr) (w : world) (e : exn) :
  fs_isdir (w_fs w) p = true ->
  fs_refused (w_fs w) ListDirectory (components p) = Some e ->
  os_listdir p w = (Raise e, w).
Proof.
  unfold fs_isdir, os_listdir. destruct p as [|c p]; [done|]. by intros -> ->.
Qed.

Section OrchestratorFacts.
Variable U : digit_class.

(** The loop body turns every outcome of the [try] block into a pair of
    counts. *)
Lemma process_file_outcome (folder_path output_folder filename : pystr)
    (counts : nat * nat) (w : world) :
  match process_file_try U folder_path output_folder filename counts w with
  | (Ok counts', w') =>
      process_file U folder_path output_folder filename counts w = (Ok counts', w')
  | (Raise e, w') =>
      process_file U folder_path output_folder filename counts w
      = (Ok (fst counts, S (snd counts)),
         World (w_fs w') (w_log w' ++ [LogFileError filename e]))
  end.
Proof.
  unfold process_file, try_except.
  by destruct (process_file_try U folder_path output_folder filename counts w)
    as [[c|e] w'].
Qed.

Lemma process_file_returns (folder_path output_folder filename : pystr)
    (counts : nat * nat) (w : world) :
  exists counts' w',
    process_file U folder_path output_folder filename counts w = (Ok counts', w').
Proof.
  pose proof (process_file_outcome folder_path output_folder filename counts w) as H.
  destruct (process_file_try U folder_path output_folder filename counts w)
    as [[c|e] w']; eauto.
Qed.

(** The loop visits every file and ends normally. *)
Lemma process_files_return (folder_path output_folder : pystr)
    (files : list pystr) : forall (counts : nat * nat) (w : world),
  exists counts' w',
    for_each files (process_file U folder_path output_folder) counts w
    = (Ok counts', w').
Proof.
  induction files as [|f files IH]; intros counts w; simpl.
  - by eexists _, _.
  - unfold bind.
    destruct (process_file_returns folder_path output_folder f counts w)
      as (c1 & w1 & ->).
    apply IH.
Qed.

(** The ways [process_folder] can end. *)
Lemma process_folder_cases (folder_path output_folder : pystr) (w : world) :
  match process_folder U folder_path output_folder w with
  | (Ok b, w') =>
      (b = true <->
       fs_isdir (w_fs w) folder_path = true /\
       discovered U folder_path output_folder w <> []) /\
      (fs_isdir (w_fs w) folder_path = true ->
       fs_refused (w_fs w) ListDirectory (components folder_path) = None /\
       exists w1, os_makedirs output_folder w = (Ok tt, w1))
  | (Raise e, w') =>
      fs_isdir (w_fs w) folder_path = true /\
      (os_makedirs output_folder w = (Raise e, w') \/
       os_makedirs output_folder w = (Ok tt, w') /\
       fs_refused (w_fs w) ListDirectory (components folder_path) = Some e)
  end.
Proof.
  unfold process_folder, discovered.
  unfold bind at 1. unfold os_path_isdir at 1.
  destruct (fs_isdir (w_fs w) folder_path) eqn:Hdir; simpl.
  2:{ split; [|done]. split; [done|]. by intros [? _]. }
  unfold bind at 1.
  pose proof (os_makedirs_is_dir output_folder w (components folder_path)) as Hkeep.
  pose proof (os_makedirs_refused output_folder w) as Hos.
  destruct (os_makedirs output_folder w) as [[[]|e] w1] eqn:Hmk; [|by split; [|left]].
  simpl in Hkeep, Hos.
  assert (fs_isdir (w_fs w1) folder_path = true) as Hdir1.
  { unfold fs_isdir in *. destruct folder_path; [done|]. by apply Hkeep. }
  unfold bind at 1.
  destruct (fs_refused (w_fs w) ListDirectory (components folder_path))
    as [e|] eqn:Hlist.
  { rewrite (os_listdir_refused _ _ e Hdir1) by by rewrite Hos.
    split; [done|]. by right. }
  rewrite (os_listdir_dir _ _ Hdir1) by by rewrite Hos.
  destruct (filter (fun f => is_image_file U f = true)
              (fs_entries (w_fs w1) (components folder_path))) as [|f files] eqn:Hfiles.
  - simpl. rewrite ?Hfiles. split; [|by eauto]. split; [done|]. by intros [_ ?].
  - unfold bind at 1. unfold appendLog_ at 1. unfold bind at 1.
    destruct (process_files_return folder_path output_folder (f :: files) (0, 0)%nat
                (World (w_fs w1) (w_log w1 ++ [LogFound (length (f :: files))])))
      as ([s e] & w2 & ->).
    simpl. rewrite Hfiles. split; [|by eauto]. done.
Qed.

End OrchestratorFacts.

(** ** The codec against the specification's pattern *)

Lemma extensions_case_variant (e : pystr) :
  e ∈ extensions -> case_variant_extension e.
Proof.
  unfold extensions, case_variant_extension. intros He.
  repeat (apply elem_of_cons in He as [->|He]); [..|by apply elem_of_nil in He];
    vm_compute;
    repeat first [apply list_elem_of_here | apply list_elem_of_further].
Qed.

Lemma case_variant_last (e : pystr) :
  case_variant_extension e -> exists c, last e = Some c /\ ascii_lower c = 103%N.
Proof.
  unfold case_variant_extension. intros He.
  repeat (apply elem_of_cons in He as [He|He]); [..|by apply elem_of_nil in He].
  - destruct e as [|a [|b [|c [|]]]]; try discriminate He.
    injection He as _ _ Hc. by exists c.
  - destruct e as [|a [|b [|c [|]]]]; try discriminate He.
    injection He as _ _ Hc. by exists c.
  - destruct e as [|a [|b [|c [|d [|]]]]]; try discriminate He.
    injection He as _ _ _ Hc. by exists d.
Qed.

Section SpecPattern.
Variable U : digit_class.

Lemma spec_page_suffix_last (f : pystr) :
  spec_page_suffix U f -> exists c, last f = Some c /\ ascii_lower c = 103%N.
Proof.
  intros (pre & ds & e & _ & _ & He & ->).
  destruct (case_variant_last e He) as (c & Hlast & Hc).
  exists c. split; [|done]. unfold page_file_name.
  rewrite !app_assoc. rewrite last_app, Hlast. done.
Qed.

Lemma spec_page_suffix_no_line_feed (f : pystr) :
  spec_page_suffix U (f ++ [ch_lf]) -> False.
Proof.
  intros (c & Hlast & Hc)%spec_page_suffix_last.
  rewrite last_snoc in Hlast. injection Hlast as <-. discriminate Hc.
Qed.

Lemma has_page_suffix_spec (f : pystr) :
  has_page_suffix U f -> last f <> Some ch_lf -> spec_page_suffix U f.
Proof.
  intros (pre & ds & e & tail & Hne & Hds & He & [-> | ->] & ->) Hlast.
  - exists pre, ds, e. repeat split; try done.
    + by apply extensions_case_variant.
    + unfold page_file_name. by rewrite app_nil_r.
  - exfalso. apply Hlast. rewrite !app_assoc. apply last_snoc.
Qed.

(** Outside the specification's pattern, and short of a final line feed,
    the codec finds nothing and the discovery filter rejects the name. *)
Lemma codec_outside_pattern (f : pystr) :
  ~ spec_page_suffix U f -> last f <> Some ch_lf ->
  extract_page_count U f = Ok None /\
  get_base_filename U f = None /\
  is_image_file U f = false.
Proof.
  intros Hno Hlast.
  assert (~ has_page_suffix U f) as Hcode.
  { intros H. by apply Hno, has_page_suffix_spec. }
  split; [by apply extract_page_count_no_suffix|].
  split; [by apply get_base_filename_no_suffix|].
  destruct (is_image_file U f) eqn:E; [|done].
  by apply is_image_file_iff in E.
Qed.

(** The name of a file the discovery filter rejects never reaches the
    loop. *)
Lemma filter_rejected (f : pystr) (before after : list pystr) :
  is_image_file U f = false ->
  filter (fun g => is_image_file U g = true) (before ++ f :: after)
  = filter (fun g => is_image_file U g = true) (before ++ after).
Proof.
  intros Hf. rewrite !filter_app, filter_cons_False; [done|].
  by rewrite Hf.
Qed.

Lemma get_base_filename_inv (f b : pystr) :
  get_base_filename U f = Some b ->
  exists ds e tail,
    b <> [] /\ (ch_lf ∉ b) /\ ds <> [] /\ all_digits U ds /\ e ∈ extensions /\
    at_end tail /\ f = b ++ [ch_hyphen] ++ ds ++ [ch_dot] ++ e ++ tail.
Proof.
  unfold get_base_filename.
  destruct (search U base_name_re f) as [m|] eqn:Hm; [|done].
  apply search_from_sound in Hm as (pre & post & -> & Hm).
  apply rmatch_sound in Hm as (st' & Hmatch & [= <-]).
  apply base_name_re_inv in Hmatch
    as (b' & ds & e & tail & Hpos & Hb & Hlf & Hne & Hds & He & Hend & Hrest & Hg).
  rewrite Hg. simpl. intros [= <-].
  simpl in Hpos, Hrest. destruct pre; [|done]. simpl. subst post.
  by exists ds, e, tail.
Qed.

(** [get_base_filename] on a name with a page suffix: the part before the
    suffix, unless that part is empty or holds a line feed. *)
Lemma get_base_filename_decomposed (pre ds e tail : pystr) :
  ds <> [] -> all_digits U ds -> e ∈ extensions -> at_end tail ->
  get_base_filename U (pre ++ [ch_hyphen] ++ ds ++ [ch_dot] ++ e ++ tail)
  = if bool_decide (pre <> [] /\ ch_lf ∉ pre) then Some pre else None.
Proof.
  intros Hne Hds He Hend.
  destruct (get_base_filename U (pre ++ [ch_hyphen] ++ ds ++ [ch_dot] ++ e ++ tail))
    as [b|] eqn:Hb.
  - apply get_base_filename_inv in Hb
      as (ds' & e' & tail' & Hb1 & Hb2 & _ & Hds' & He' & Hend' & Heq).
    apply (page_file_name_unique U) in Heq as (-> & _); try done.
    by rewrite bool_decide_eq_true_2.
  - case_bool_decide as Hpre; [|done]. destruct Hpre as [Hp1 Hp2].
    exfalso. unfold get_base_filename in Hb.
    assert (is_Some (search U base_name_re
      (pre ++ [ch_hyphen] ++ ds ++ [ch_dot] ++ e ++ tail))) as [m Hm].
    { apply (search_from_complete U _ []).
      destruct (base_name_re_intro U pre ds e tail [] Hp1 Hp2 Hne Hds He Hend)
        as [st' Hst'].
      by apply (rmatch_complete U _ _ _ Hst' Some). }
    by rewrite Hm in Hb.
Qed.

End SpecPattern.

(** * The claims *)

(** C1.  Slicing an image of width [w] and height [h] into [N >= 1] parts
    returns exactly [N] strips, each of width [w]; every strip but the last
    has height [h / N] (floor division), the last one has height
    [h - (N - 1) * (h / N)], and the heights add up to [h]: each strip
    starts at the row where the strips before it end, so the cover has
    neither gaps nor overlaps.  With [N = 1] the single strip has the
    dimensions of the source image. *)
Theorem cut_image_vertically_exact_cover (image_path : pystr) (num_parts : Z)
    (img : image) (w : world) :
  image_open image_path w = (Ok img, w) ->
  0 <= img_width img -> 0 <= img_height img -> 1 <= num_parts ->
  exists strips,
    cut_image_vertically image_path num_parts w = (Ok strips, w) /\
    length strips = Z.to_nat num_parts /\
    Forall (fun s => img_width s = img_width img) strips /\
    (forall (i : nat) s, strips !! i = Some s -> Z.of_nat i < num_parts - 1 ->
       img_height s = img_height img / num_parts) /\
    (forall s, last strips = Some s ->
       img_height s
       = img_height img - (num_parts - 1) * (img_height img / num_parts)) /\
    total_height strips = img_height img /\
    (forall (i : nat) s, strips !! i = Some s ->
       let top := total_height (take i strips) in
       img_pixels s
       = Cropped (0, top, img_width img, top + img_height s) (img_pixels img)) /\
    (num_parts = 1 -> img_size <$> strips = [img_size img]).
Proof.
  intros Hopen Hw Hh Hn.
  exists (strip_of img num_parts <$> py_range num_parts).
  split; [by apply cut_image_vertically_strips|].
  split; [by unfold py_range; rewrite length_fmap, length_seqZ|].
  split.
  { apply Forall_forall. intros s Hs.
    by apply list_elem_of_fmap in Hs as (i & -> & _). }
  split.
  { intros i s Hs Hi. apply strips_lookup in Hs as [-> _].
    by apply strip_of_height_inner. }
  split.
  { intros s Hs. rewrite last_lookup in Hs.
    apply strips_lookup in Hs as [-> _].
    unfold py_range. rewrite length_fmap, length_seqZ.
    replace (Z.of_nat (Init.Nat.pred (Z.to_nat num_parts))) with (num_parts - 1) by lia.
    apply strip_of_height_last. }
  split; [by apply total_height_strips|].
  split.
  { intros i s Hs. apply strips_lookup in Hs as [-> Hi]. simpl.
    rewrite strips_take, total_height_inner by lia.
    unfold strip_of. simpl. f_equal. f_equal. lia. }
  intros ->. unfold img_size. simpl. by rewrite Z.sub_0_r.
Qed.

Lemma cut_image_vertically_exact_cover_witness :
  exists strips,
    cut_image_vertically (py "in/report-3.png") 3 world_one_page_file
    = (Ok strips, world_one_page_file) /\
    length strips = 3%nat /\ total_height strips = 301.
Proof.
  destruct (cut_image_vertically_exact_cover (py "in/report-3.png") 3
              sample_image world_one_page_file)
    as (strips & H1 & H2 & _ & _ & _ & H3 & _);
    [reflexivity | simpl; lia | simpl; lia | lia |].
  exists strips. repeat split; assumption.
Defined.

(** C2 (as amended).  For a file name [<base>-<N>.<ext>] whose base is not
    empty and holds no line feed, whose [N] is a decimal number of at most
    4300 digits, and whose extension is one of the six spellings png, jpg,
    jpeg, PNG, JPG, JPEG, [extract_page_count] returns [N] and
    [get_base_filename] returns the base exactly, whatever hyphens or
    digits the base contains. *)
Theorem codec_on_page_file_names (U : digit_class) (base : pystr) (n : nat)
    (e : pystr) :
  base <> [] -> (ch_lf ∉ base) -> e ∈ extensions ->
  (length (py_str_nat n) <= int_max_str_digits)%nat ->
  extract_page_count U (page_file_name base (py_str_nat n) e)
  = Ok (Some (Z.of_nat n)) /\
  get_base_filename U (page_file_name base (py_str_nat n) e) = Some base.
Proof.
  intros Hb Hlf He Hlen. split.
  - destruct (extract_page_count_page_file U base (py_str_nat n) e)
      as (v & -> & Hv);
      [apply py_str_nat_nonempty | apply py_str_nat_digits | done | done |].
    rewrite py_int_str_nat in Hv by done. by injection Hv as <-.
  - apply get_base_filename_page_file;
      [done | done | apply py_str_nat_nonempty | apply py_str_nat_digits | done].
Qed.

Lemma codec_on_page_file_names_witness :
  extract_page_count ascii_digits (py "a-1-b2-12.JPEG") = Ok (Some 12) /\
  get_base_filename ascii_digits (py "a-1-b2-12.JPEG") = Some (py "a-1-b2").
Proof.
  apply (codec_on_page_file_names ascii_digits (py "a-1-b2") 12 (py "JPEG")).
  - discriminate.
  - apply (bool_decide_unpack _). vm_compute. exact I.
  - apply (bool_decide_unpack _). vm_compute. exact I.
  - vm_compute. lia.
Defined.

(** C2, refuted as stated: [Png] is a case variant of [png], yet the codec
    finds neither a page count nor a base name in [a-1.Png]. *)
Lemma codec_mixed_case_counterexample :
  case_variant_extension (py "Png") /\
  extract_page_count ascii_digits (page_file_name (py "a") (py "1") (py "Png"))
  = Ok None /\
  get_base_filename ascii_digits (page_file_name (py "a") (py "1") (py "Png"))
  = None.
Proof.
  split; [|split; reflexivity].
  unfold case_variant_extension. apply (bool_decide_unpack _). vm_compute. exact I.
Qed.

(** A base name across two lines is not recovered either: [.] stops at a
    line feed. *)
Example get_base_filename_line_feed_in_base :
  extract_page_count ascii_digits (py "a" ++ [ch_lf] ++ py "b-1.png") = Ok (Some 1) /\
  get_base_filename ascii_digits (py "a" ++ [ch_lf] ++ py "b-1.png") = None.
Proof. split; reflexivity. Qed.







(** C5 (as amended).  Called with an empty sequence, [images_to_pdf]
    returns at once: no failure, nothing written.  For a non-empty sequence
    of images that are not empty and whose mode is not 16-bit greyscale
    (the conversion of that mode to RGB depends on the release of Pillow),
    and an output path with the [.pdf] extension, in an existing
    directory, with no directory under that name, whose writing the
    operating system does not refuse, it writes exactly one file, at the
    output path: a document with one page per input image, in sequence
    order, each page the RGB form of its image; a single image gives a
    one-page document.  It then closes the pages: an input image of mode
    RGB is left closed. *)
Theorem images_to_pdf_pages (images : list image) (output_path : pystr)
    (d key : list pystr) (w : world) :
  (images = [] -> images_to_pdf images output_path w = (Ok [], w)) /\
  (images <> [] ->
   Forall (fun img => img_mode img <> ModeI16 /\ image_nonempty img = true) images ->
   has_pdf_extension output_path = true ->
   parent_of output_path = Some (d, key) ->
   fs_is_dir (w_fs w) d = true ->
   w_fs w !! key <> Some Dir ->
   fs_refused (w_fs w) WriteFile key = None ->
   exists pages resolution,
     images_to_pdf images output_path w
     = (Ok (state_after_pdf <$> images),
        World (<[key := File (PdfFile pages resolution)]> (w_fs w)) (w_log w)) /\
     pages = rgb_of <$> images /\
     length pages = length images).
Proof.
  split; [by intros ->|].
  intros Hne Hall Hext Hp Hd Hk Hos.
  exists (rgb_of <$> images), (if (1 <? length images)%nat then 100 else 72).
  split; [|by rewrite length_fmap].
  by apply (images_to_pdf_written _ _ d key).
Qed.

Lemma images_to_pdf_pages_witness :
  exists pages resolution,
    images_to_pdf [sample_image] (py "in/a.pdf") world_empty_folder
    = (Ok [Closed],
       World (<[ [py "in"; py "a.pdf"] := File (PdfFile pages resolution)]>
                (w_fs world_empty_folder))
             (w_log world_empty_folder)) /\
    pages = rgb_of <$> [sample_image] /\ length pages = 1%nat.
Proof.
  apply (images_to_pdf_pages [sample_image] (py "in/a.pdf")
           [py "in"] [py "in"; py "a.pdf"] world_empty_folder).
  - discriminate.
  - repeat constructor; discriminate.
  - reflexivity.
  - reflexivity.
  - reflexivity.
  - vm_compute. discriminate.
  - reflexivity.
Defined.

(** C5, refuted as stated: the empty sequence is accepted in silence. *)
Lemma images_to_pdf_empty_counterexample :
  images_to_pdf [] (py "in/a.pdf") world_empty_folder = (Ok [], world_empty_folder).
Proof. reflexivity. Qed.

(** C6 (as amended).  Once the image is open, [cut_image_vertically]
    fails with [ZeroDivisionError] when [num_parts] is zero, and returns
    the empty list, without failing, when [num_parts] is negative. *)
Theorem cut_image_vertically_nonpositive (image_path : pystr) (num_parts : Z)
    (img : image) (w : world) :
  image_open image_path w = (Ok img, w) ->
  (num_parts = 0 ->
     cut_image_vertically image_path num_parts w = (Raise ZeroDivisionError, w)) /\
  (num_parts < 0 -> cut_image_vertically image_path num_parts w = (Ok [], w)).
Proof.
  intros Hopen. unfold cut_image_vertically. split.
  - intros ->. unfold bind at 1. rewrite Hopen. done.
  - intros Hn. unfold bind at 1. rewrite Hopen. unfold img_size.
    cbv beta iota zeta. unfold bind at 1. unfold lift_result at 1, floordiv.
    destruct (Z.eqb_spec num_parts 0); [lia|].
    unfold py_range. rewrite seqZ_nil by lia. done.
Qed.

Lemma cut_image_vertically_nonpositive_witness :
  cut_image_vertically (py "in/report-3.png") 0 world_one_page_file
  = (Raise ZeroDivisionError, world_one_page_file).
Proof.
  apply (cut_image_vertically_nonpositive (py "in/report-3.png") 0
           sample_image world_one_page_file); reflexivity.
Defined.

(** C6, refuted as stated: a negative part count is not refused. *)
Lemma cut_image_vertically_negative_counterexample :
  cut_image_vertically (py "in/report-3.png") (-1) world_one_page_file
  = (Ok [], world_one_page_file).
Proof. reflexivity. Qed.

(** C7, on the name [a-1.png] followed by a line feed.  The name does not
    end in [-<digits>.<ext>], yet [$] accepts the final line feed: the
    codec returns page count 1 and base name [a], the discovery filter
    selects the file, and the run counts one failure for it (the document
    name [a.pdf] plus line feed has no known extension). *)
Theorem line_feed_after_extension_is_matched :
  let f := py "a-1.png" ++ [ch_lf] in
  ~ spec_page_suffix ascii_digits f /\
  extract_page_count ascii_digits f = Ok (Some 1) /\
  get_base_filename ascii_digits f = Some (py "a") /\
  is_image_file ascii_digits f = true /\
  discovered ascii_digits (py "in") (py "out") world_line_feed_name = [f] /\
  last (w_log (snd (process_folder ascii_digits (py "in") (py "out")
                      world_line_feed_name)))
  = Some (LogFinished 0 1).
Proof.
  intros f.
  split; [exact (spec_page_suffix_no_line_feed ascii_digits (py "a-1.png"))|].
  repeat split; reflexivity.
Qed.

(** C8 (as amended).  When the output directory exists, the base name
    holds no slash, no directory stands under a strip's name, the
    operating system does not refuse to write a strip's file (it would for
    want of a permission, or for a name that is too long) and every strip
    can be encoded as PNG, [save_cut_images] writes one file per strip
    into the output directory, strip number [i] (from 1, in strip order)
    under the name [{base_filename}-第{i}页.png], touches no other file,
    and returns the paths written in that order.  It does not create the
    output directory. *)
Theorem save_cut_images_files (images : list image)
    (base_filename output_folder : pystr) (w : world) :
  (ch_slash ∉ base_filename) ->
  Forall (fun img => png_writes (img_mode img) = true /\ image_nonempty img = true)
         images ->
  fs_is_dir (w_fs w) (components output_folder) = true ->
  (forall k, (k < length images)%nat ->
     w_fs w !! (components output_folder ++ [strip_name base_filename (S k)])
     <> Some Dir) ->
  (forall k, (k < length images)%nat ->
     fs_refused (w_fs w) WriteFile
       (components output_folder ++ [strip_name base_filename (S k)]) = None) ->
  exists w',
    save_cut_images images base_filename output_folder w
    = (Ok ((fun i => os_path_join output_folder (strip_name base_filename i))
             <$> seq 1 (length images)), w') /\
    w_log w' = w_log w /\
    (forall k img, images !! k = Some img ->
       components (os_path_join output_folder (strip_name base_filename (S k)))
       = components output_folder ++ [strip_name base_filename (S k)] /\
       w_fs w' !! (components output_folder ++ [strip_name base_filename (S k)])
       = Some (File (ImageFile PNG img))) /\
    (forall key,
       (forall k, (k < length images)%nat ->
          key <> components output_folder ++ [strip_name base_filename (S k)]) ->
       w_fs w' !! key = w_fs w !! key).
Proof.
  intros Hbase Hall Hdir Hfree Hos.
  eexists. split.
  { unfold save_cut_images.
    by rewrite (save_cut_images_loop _ _ _ Hbase Hall 1%nat [] w). }
  simpl. split; [done|]. split.
  - intros k img Hk. split.
    + apply components_join; [by apply strip_name_no_slash|apply strip_name_is_name].
    + by apply (lookup_write_strips _ _ _ 1%nat).
  - intros key Hkey. by apply lookup_write_strips_other.
Qed.

Lemma save_cut_images_files_witness :
  let a := strip_of sample_image 2 0 in
  let b := strip_of sample_image 2 1 in
  exists w',
    save_cut_images [a; b] (py "report") (py "in") world_empty_folder
    = (Ok [os_path_join (py "in") (strip_name (py "report") 1);
           os_path_join (py "in") (strip_name (py "report") 2)], w') /\
    w_fs w' !! [py "in"; strip_name (py "report") 2] = Some (File (ImageFile PNG b)).
Proof.
  intros a b.
  destruct (save_cut_images_files [a; b] (py "report") (py "in") world_empty_folder)
    as (w' & Hrun & _ & Hfiles & _).
  - apply (bool_decide_unpack _). vm_compute. exact I.
  - repeat constructor.
  - reflexivity.
  - intros k Hk. destruct k as [|[|k]]; [| |simpl in Hk; lia]; vm_compute; discriminate.
  - intros k Hk. reflexivity.
  - exists w'. split; [exact Hrun|]. exact (proj2 (Hfiles 1%nat b eq_refl)).
Defined.

(** C8, refuted as stated: with no output directory the first write fails
    and no directory is made. *)
Lemma save_cut_images_missing_folder_counterexample :
  save_cut_images [strip_of sample_image 1 0] (py "report") (py "out")
    world_empty_folder
  = (Raise (FileNotFoundError
              (os_path_join (py "out") (strip_name (py "report") 1))),
     world_empty_folder).
Proof. reflexivity. Qed.

(** C9 (as amended).  [process_folder] returns a boolean unless
    [os.makedirs] on the output directory or [os.listdir] on the input
    directory raises.  Whenever it returns, the boolean is [True] exactly
    when the input directory is a directory and at least one entry passed
    the discovery filter; the outcomes of the files play no part, and the
    result is [True] in a run whose only candidate failed.  When one of
    the two calls raises, there is no boolean: the thread body of the
    caller reports [False], whatever the input directory holds. *)
Theorem process_folder_success_signal (U : digit_class)
    (folder_path output_folder : pystr) (w : world) :
  (fs_isdir (w_fs w) folder_path = false \/
   (exists w1, os_makedirs output_folder w = (Ok tt, w1)) /\
   fs_refused (w_fs w) ListDirectory (components folder_path) = None ->
   exists b w', process_folder U folder_path output_folder w = (Ok b, w')) /\
  (forall b w',
     process_folder U folder_path output_folder w = (Ok b, w') ->
     (b = true <->
      fs_isdir (w_fs w) folder_path = true /\
      discovered U folder_path output_folder w <> [])) /\
  (forall e w',
     process_folder U folder_path output_folder w = (Raise e, w') ->
     fs_isdir (w_fs w) folder_path = true /\
     (os_makedirs output_folder w = (Raise e, w') \/
      os_makedirs output_folder w = (Ok tt, w') /\
      fs_refused (w_fs w) ListDirectory (components folder_path) = Some e) /\
     fst (process_thread U folder_path output_folder w) = false) /\
  (fst (process_folder ascii_digits (py "in") (py "out") world_one_bad_file)
   = Ok true /\
   last (w_log (snd (process_folder ascii_digits (py "in") (py "out")
                       world_one_bad_file)))
   = Some (LogFinished 0 1)).
Proof.
  pose proof (process_folder_cases U folder_path output_folder w) as Hcases.
  split; [|split; [|split; [|split; reflexivity]]].
  - intros Hreturns.
    destruct (process_folder U folder_path output_folder w) as [[b|e] w'];
      [by eauto|].
    exfalso. destruct Hcases as [Hdir Hwhy].
    destruct Hreturns as [Hno|[[w1 Hmk] Hlist]]; [congruence|].
    destruct Hwhy as [Hraised|[_ Hrefused]]; congruence.
  - intros b w' Hrun. rewrite Hrun in Hcases. by destruct Hcases as [? _].
  - intros e w' Hrun. unfold process_thread. rewrite Hrun in *.
    by destruct Hcases as [? ?].
Qed.

Lemma process_folder_success_signal_witness :
  exists b w',
    process_folder ascii_digits (py "in") (py "out") world_one_page_file
    = (Ok b, w') /\
    (b = true <->
     fs_isdir (w_fs world_one_page_file) (py "in") = true /\
     discovered ascii_digits (py "in") (py "out") world_one_page_file <> []).
Proof.
  destruct (process_folder_success_signal ascii_digits (py "in") (py "out")
              world_one_page_file) as (Hreturns & Hsignal & _).
  destruct Hreturns as (b & w' & Hrun).
  - right. split; [by eexists|reflexivity].
  - exists b, w'. split; [exact Hrun|]. exact (Hsignal b w' Hrun).
Defined.

(** C9, refuted as stated: the input directory is a directory and holds a
    candidate, yet no [True] comes out: a regular file stands where the
    output directory should be, [os.makedirs] raises, and the thread body
    reports [False]. *)
Lemma process_folder_signal_counterexample :
  fs_isdir (w_fs world_output_is_a_file) (py "in") = true /\
  discovered ascii_digits (py "in") (py "out") world_output_is_a_file
  = [py "report-3.png"] /\
  fst (process_folder ascii_digits (py "in") (py "out") world_output_is_a_file)
  = Raise (FileExistsError (py "out")) /\
  fst (process_thread ascii_digits (py "in") (py "out") world_output_is_a_file)
  = false.
Proof. repeat split; reflexivity. Qed.

(** C10 (as amended).  For every name the discovery filter selects (file
    names are far shorter than the 4300 digits [int()] converts),
    [extract_page_count] returns a number, which is zero or more, so the
    first skip branch of the loop cannot be taken; [get_base_filename]
    returns either a non-empty string or nothing: with the name read as
    [<pre>-<digits>.<ext>] (and possibly a final line feed), it returns
    [<pre>] unless [<pre>] is empty or holds a line feed, in which case it
    returns nothing and the second skip branch is taken. *)
Theorem discovered_names_parse (U : digit_class) (f : pystr) :
  is_image_file U f = true -> (length f <= int_max_str_digits)%nat ->
  (exists n, extract_page_count U f = Ok (Some n) /\ 0 <= n) /\
  (forall b, get_base_filename U f = Some b -> b <> []) /\
  (exists pre ds e tail,
     ds <> [] /\ all_digits U ds /\ e ∈ extensions /\ at_end tail /\
     f = pre ++ [ch_hyphen] ++ ds ++ [ch_dot] ++ e ++ tail /\
     get_base_filename U f
     = if bool_decide (pre <> [] /\ ch_lf ∉ pre) then Some pre else None).
Proof.
  intros Hf Hlen. apply is_image_file_iff in Hf as Hsuffix.
  split; [by apply extract_page_count_suffix|].
  split.
  { intros b Hb. by apply get_base_filename_suffix in Hb as (? & _). }
  destruct Hsuffix as (pre & ds & e & tail & Hne & Hds & He & Hend & ->).
  exists pre, ds, e, tail. repeat split; try done.
  by apply get_base_filename_decomposed.
Qed.

Lemma discovered_names_parse_witness :
  (exists n, extract_page_count ascii_digits (py "report-3.png") = Ok (Some n) /\ 0 <= n) /\
  (forall b, get_base_filename ascii_digits (py "report-3.png") = Some b -> b <> []).
Proof.
  destruct (discovered_names_parse ascii_digits (py "report-3.png"))
    as (H1 & H2 & _); [reflexivity|vm_compute; lia|].
  split; assumption.
Defined.

(** C10, refuted as stated: [-5.png] is selected and has no base name, so
    the second skip branch is taken and the file is skipped; [x-0.png] is
    selected with page count zero. *)
Lemma discovered_names_counterexample :
  is_image_file ascii_digits (py "-5.png") = true /\
  get_base_filename ascii_digits (py "-5.png") = None /\
  w_log (snd (process_folder ascii_digits (py "in") (py "out") world_bare_suffix))
  = [LogFound 1; LogProcessing (py "-5.png") 5; LogSkipNoBaseName (py "-5.png");
     LogFinished 0 0] /\
  is_image_file ascii_digits (py "x-0.png") = true /\
  extract_page_count ascii_digits (py "x-0.png") = Ok (Some 0).
Proof. repeat split; reflexivity. Qed.

(** * Further properties *)

(** ** The document name *)

Section SubFacts.
Variable U : digit_class.

(** Where the pattern matches nowhere, [re.sub] returns the subject. *)
Lemma sub_from_no_match (r : regex) (repl : pystr) :
  forall (rest : pystr) (fuel pos : nat),
    (forall p1 p2, rest = p1 ++ p2 ->
       rmatch U r Some (MState (pos + length p1) p2 []) = None) ->
    (length rest < fuel)%nat ->
    sub_from U fuel r repl pos rest = rest.
Proof.
  induction rest as [|c rest IH]; intros fuel pos Hnone Hfuel;
    (destruct fuel as [|fuel]; [simpl in Hfuel; lia|]); simpl.
  - pose proof (Hnone [] [] eq_refl) as H0. simpl in H0.
    rewrite Nat.add_0_r in H0. by rewrite H0.
  - pose proof (Hnone [] (c :: rest) eq_refl) as H0. simpl in H0.
    rewrite Nat.add_0_r in H0. rewrite H0. f_equal.
    apply IH; [|simpl in Hfuel; lia].
    intros p1 p2 ->. specialize (Hnone (c :: p1) p2 eq_refl).
    simpl in Hnone. by rewrite Nat.add_succ_r in Hnone.
Qed.

(** Before the leftmost match, [re.sub] copies the subject. *)
Lemma sub_from_skip (r : regex) (repl : pystr) :
  forall (pre post : pystr) (fuel pos : nat),
    (forall p1 p2, pre = p1 ++ p2 -> p2 <> [] ->
       rmatch U r Some (MState (pos + length p1) (p2 ++ post) []) = None) ->
    (length pre <= fuel)%nat ->
    sub_from U fuel r repl pos (pre ++ post)
    = pre ++ sub_from U (fuel - length pre) r repl (pos + length pre) post.
Proof.
  induction pre as [|c pre IH]; intros post fuel pos Hnone Hfuel; simpl.
  - by rewrite Nat.sub_0_r, Nat.add_0_r.
  - destruct fuel as [|fuel]; [simpl in Hfuel; lia|]. simpl.
    pose proof (Hnone [] (c :: pre) eq_refl) as H0. simpl in H0.
    rewrite Nat.add_0_r in H0. rewrite H0 by done. f_equal.
    rewrite IH; [by rewrite Nat.add_succ_r| |simpl in Hfuel; lia].
    intros p1 p2 -> Hp2. specialize (Hnone (c :: p1) p2 eq_refl Hp2).
    simpl in Hnone. by rewrite Nat.add_succ_r in Hnone.
Qed.

Lemma sub_from_match (r : regex) (repl rest : pystr) (fuel pos : nat) (m : mstate) :
  rmatch U r Some (MState pos rest []) = Some m ->
  sub_from U (S fuel) r repl pos rest
  = repl ++ sub_from U fuel r repl (ms_pos m) (drop (ms_pos m - pos) rest).
Proof. intros H. simpl. by rewrite H. Qed.

(** [-\d+\.(ext)$], with the state the match ends in. *)
Lemma suffix_re_inv_end st st' :
  matches U suffix_re st st' ->
  exists ds e, ds <> [] /\ all_digits U ds /\ e ∈ extensions /\
    at_end (ms_rest st') /\
    ms_rest st = [ch_hyphen] ++ ds ++ [ch_dot] ++ e ++ ms_rest st' /\
    ms_pos st' = (ms_pos st + (2 + length ds + length e))%nat.
Proof.
  unfold suffix_re.
  intros (s1 & H1 & H2)%matches_seq_inv.
  apply matches_seq_inv in H2 as (s2 & H3 & H4).
  apply matches_seq_inv in H4 as (s3 & H5 & H6).
  apply matches_seq_inv in H6 as (s4 & H7 & H8).
  apply matches_char_inv in H1 as (E1 & P1 & G1).
  apply matches_plus_inv in H3 as (ds & Hne & Hds & E2 & P2 & G2).
  apply matches_char_inv in H5 as (E3 & P3 & G3).
  apply matches_ext_group_inv in H7 as (e & He & E4 & P4 & G4).
  apply matches_eol_inv in H8 as (-> & Hend).
  exists ds, e. repeat split; try done.
  - rewrite E1, E2, E3, E4. done.
  - lia.
Qed.

(** The one place where [-\d+\.(ext)$] matches in a name with a page
    suffix. *)
Lemma suffix_re_match_at (pre ds e tail : pystr) (pos : nat) :
  ds <> [] -> all_digits U ds -> e ∈ extensions -> at_end tail ->
  exists m,
    rmatch U suffix_re Some
      (MState pos ([ch_hyphen] ++ ds ++ [ch_dot] ++ e ++ tail) []) = Some m /\
    ms_pos m = (pos + (2 + length ds + length e))%nat.
Proof.
  intros Hne Hds He Hend.
  destruct (suffix_re_intro U ds e tail pos [] Hne Hds He Hend) as [st' Hst'].
  destruct (rmatch_complete U _ _ _ Hst' Some) as [m Hm]; [by eexists|].
  exists m. split; [done|].
  apply rmatch_sound in Hm as (st2 & Hm2 & [= <-]).
  apply suffix_re_inv_end in Hm2
    as (ds' & e' & Hne' & Hds' & He' & Hend' & Hrest & Hpos).
  simpl in Hrest, Hpos.
  apply (page_file_name_unique U [] ds e tail [] ds' e' (ms_rest st2)) in Hrest
    as (_ & <- & <- & _); done.
Qed.

Lemma suffix_re_no_match_before (pre ds e tail p1 p2 : pystr) (pos : nat) :
  ds <> [] -> all_digits U ds -> e ∈ extensions -> at_end tail ->
  pre = p1 ++ p2 -> p2 <> [] ->
  rmatch U suffix_re Some
    (MState pos (p2 ++ [ch_hyphen] ++ ds ++ [ch_dot] ++ e ++ tail) []) = None.
Proof.
  intros Hne Hds He Hend -> Hp2.
  destruct (rmatch U suffix_re Some _) as [m|] eqn:Hm; [|done].
  apply rmatch_sound in Hm as (st2 & Hm2 & _).
  apply suffix_re_inv in Hm2
    as (ds' & e' & tail' & Hne' & Hds' & He' & Hend' & Hrest).
  simpl in Hrest.
  apply (page_file_name_unique U p2 ds e tail [] ds' e' tail') in Hrest
    as (-> & _); done.
Qed.

Lemma suffix_re_no_match_after (tail p1 p2 : pystr) (pos : nat) :
  at_end tail -> tail = p1 ++ p2 ->
  rmatch U suffix_re Some (MState pos p2 []) = None.
Proof.
  intros Hend Hsplit.
  destruct (rmatch U suffix_re Some _) as [m|] eqn:Hm; [|done].
  apply rmatch_sound in Hm as (st2 & Hm2 & _).
  apply suffix_re_inv in Hm2
    as (ds' & e' & tail' & Hne' & Hds' & He' & Hend' & Hrest).
  simpl in Hrest. subst p2. exfalso.
  destruct Hend as [-> | ->].
  - by destruct p1.
  - destruct p1 as [|c [|c' p1]]; simplify_eq/=.
Qed.

(** [get_output_filename] on a name with a page suffix: the suffix gives
    way to [.pdf]; a final line feed stays. *)
Lemma get_output_filename_decomposed (pre ds e tail : pystr) :
  ds <> [] -> all_digits U ds -> e ∈ extensions -> at_end tail ->
  get_output_filename U (pre ++ [ch_hyphen] ++ ds ++ [ch_dot] ++ e ++ tail)
  = pre ++ py ".pdf" ++ tail.
Proof.
  intros Hne Hds He Hend. unfold get_output_filename, sub.
  rewrite sub_from_skip.
  2:{ intros p1 p2 Hpre Hp2. by eapply suffix_re_no_match_before. }
  2:{ rewrite length_app. lia. }
  f_equal.
  destruct (suffix_re_match_at pre ds e tail (0 + length pre) Hne Hds He Hend)
    as (m & Hm & Hpos).
  rewrite length_app.
  replace (S (length pre + length ([ch_hyphen] ++ ds ++ [ch_dot] ++ e ++ tail))
           - length pre)%nat
    with (S (length ([ch_hyphen] ++ ds ++ [ch_dot] ++ e ++ tail))) by lia.
  rewrite (sub_from_match _ _ _ _ _ m Hm). f_equal.
  rewrite Hpos.
  replace (0 + length pre + (2 + length ds + length e) - (0 + length pre))%nat
    with (length ([ch_hyphen] ++ ds ++ [ch_dot] ++ e))
    by (rewrite !length_app; simpl; lia).
  replace ([ch_hyphen] ++ ds ++ [ch_dot] ++ e ++ tail)
    with (([ch_hyphen] ++ ds ++ [ch_dot] ++ e) ++ tail)
    by (by rewrite <-!app_assoc).
  rewrite drop_app_length.
  apply sub_from_no_match.
  - intros p1 p2 Hsplit. by eapply suffix_re_no_match_after.
  - rewrite !length_app. simpl. destruct Hend as [-> | ->]; simpl; lia.
Qed.

(** A name without page suffix is its own document name. *)
Lemma get_output_filename_no_suffix (f : pystr) :
  ~ has_page_suffix U f -> get_output_filename U f = f.
Proof.
  intros Hno. unfold get_output_filename, sub.
  apply sub_from_no_match; [|lia].
  intros p1 p2 ->.
  destruct (rmatch U suffix_re Some _) as [m|] eqn:Hm; [|done].
  exfalso. apply Hno.
  apply rmatch_sound in Hm as (st2 & Hm2 & _).
  apply suffix_re_inv in Hm2
    as (ds' & e' & tail' & Hne' & Hds' & He' & Hend' & Hrest).
  simpl in Hrest. subst p2. by exists p1, ds', e', tail'.
Qed.

Lemma search_page_count_re_suffix (f : pystr) :
  has_page_suffix U f -> is_Some (search U page_count_re f).
Proof.
  intros (pre & ds & e & tail & Hne & Hds & He & Hend & ->).
  apply search_from_complete.
  destruct (page_count_re_intro U ds e tail (0 + length pre) [] Hne Hds He Hend)
    as [st' Hst'].
  by apply (rmatch_complete U _ _ _ Hst' Some).
Qed.

(** No document name has a page suffix. *)
Lemma pdf_name_no_suffix (pre tail : pystr) :
  at_end tail -> ~ has_page_suffix U (pre ++ py ".pdf" ++ tail).
Proof.
  intros Hend (pre' & ds & e & tail' & Hne & Hds & He & Hend' & Heq).
  apply (f_equal reverse) in Heq. rewrite reverse_shape in Heq.
  rewrite !reverse_app in Heq.
  remember (reverse ds ++ ch_hyphen :: reverse pre') as R eqn:HR.
  remember (reverse pre) as P eqn:HP. clear HR HP.
  unfold extensions in He.
  repeat (apply elem_of_cons in He as [->|He]); [..|by apply elem_of_nil in He];
    destruct Hend as [-> | ->], Hend' as [-> | ->];
    vm_compute in Heq; discriminate Heq.
Qed.

Lemma int_digits_leading_zeros (k : nat) (s : pystr) :
  int_digits U 0 (replicate k 48%N ++ s) = int_digits U 0 s.
Proof.
  induction k as [|k IH]; [done|]. simpl.
  change 48%N with (48 + 0)%N. rewrite (decimal_ascii U 0) by done.
  exact IH.
Qed.

Lemma all_digits_zeros (k : nat) : all_digits U (replicate k 48%N).
Proof.
  apply Forall_replicate. unfold is_digit.
  change 48%N with (48 + 0)%N. by rewrite (decimal_ascii U 0).
Qed.

End SubFacts.

(** ** Extras: the codec *)

(** X1.  The document name of [<base>-<digits>.<ext>] is [<base>.pdf]: the
    page suffix, and nothing else, gives way to [.pdf].  A line feed after
    the extension stays after [.pdf]. *)
Theorem get_output_filename_of_page_file (U : digit_class) (base ds e : pystr) :
  ds <> [] -> all_digits U ds -> e ∈ extensions ->
  get_output_filename U (page_file_name base ds e) = base ++ py ".pdf" /\
  get_output_filename U (page_file_name base ds e ++ [ch_lf])
  = base ++ py ".pdf" ++ [ch_lf].
Proof.
  intros Hne Hds He. split.
  - unfold page_file_name. rewrite <-(app_nil_r e).
    rewrite (get_output_filename_decomposed U base ds e [])
      by first [done | by left].
    by rewrite app_nil_r.
  - unfold page_file_name. rewrite <-!app_assoc.
    apply (get_output_filename_decomposed U base ds e [ch_lf]);
      first [done | by right].
Qed.

Lemma get_output_filename_of_page_file_witness :
  get_output_filename ascii_digits (page_file_name (py "a-1") (py "02") (py "JPG"))
  = py "a-1" ++ py ".pdf" /\
  get_output_filename ascii_digits
    (page_file_name (py "a-1") (py "02") (py "JPG") ++ [ch_lf])
  = py "a-1" ++ py ".pdf" ++ [ch_lf].
Proof.
  apply (get_output_filename_of_page_file ascii_digits (py "a-1") (py "02") (py "JPG")).
  - discriminate.
  - repeat constructor.
  - apply (bool_decide_unpack _). vm_compute. exact I.
Defined.

(** X2.  A name the discovery filter rejects is its own document name:
    [get_output_filename] changes nothing, so the result need not end in
    [.pdf]. *)
Theorem get_output_filename_rejected (U : digit_class) (f : pystr) :
  is_image_file U f = false -> get_output_filename U f = f.
Proof.
  intros Hf. apply get_output_filename_no_suffix.
  intros H. apply is_image_file_iff in H. congruence.
Qed.

Lemma get_output_filename_rejected_witness :
  get_output_filename ascii_digits (py "notes.png") = py "notes.png".
Proof.
  apply (get_output_filename_rejected ascii_digits (py "notes.png")). reflexivity.
Defined.

(** X3.  The two halves of the codec agree: when [get_base_filename] finds
    the base name [b], the document name is [b.pdf], followed by a line
    feed exactly when the file name ends in one. *)
Theorem get_output_filename_of_base (U : digit_class) (f b : pystr) :
  get_base_filename U f = Some b ->
  get_output_filename U f
  = b ++ py ".pdf" ++ (if bool_decide (last f = Some ch_lf) then [ch_lf] else []).
Proof.
  intros Hb. apply get_base_filename_inv in Hb
    as (ds & e & tail & _ & _ & Hne & Hds & He & Hend & ->).
  rewrite get_output_filename_decomposed by done. do 2 f_equal.
  assert (exists c, last e = Some c /\ c <> ch_lf) as (c & Hc & Hlf).
  { unfold extensions in He.
    repeat (apply elem_of_cons in He as [->|He]); [..|by apply elem_of_nil in He];
      eexists; (split; [reflexivity|discriminate]). }
  destruct Hend as [-> | ->].
  - rewrite app_nil_r, !app_assoc, last_app, Hc.
    by rewrite bool_decide_eq_false_2 by congruence.
  - rewrite !app_assoc, last_snoc. by rewrite bool_decide_eq_true_2.
Qed.

Lemma get_output_filename_of_base_witness :
  get_output_filename ascii_digits (py "report-3.png")
  = py "report" ++ py ".pdf"
    ++ (if bool_decide (last (py "report-3.png") = Some ch_lf) then [ch_lf] else []).
Proof.
  apply (get_output_filename_of_base ascii_digits (py "report-3.png") (py "report")).
  reflexivity.
Defined.

(** X4.  Leading zeros in the page count are accepted and do not count:
    [<base>-0...0<N>.<ext>] has page count [N]. *)
Theorem extract_page_count_leading_zeros (U : digit_class) (base e : pystr)
    (k n : nat) :
  e ∈ extensions ->
  (k + length (py_str_nat n) <= int_max_str_digits)%nat ->
  extract_page_count U
    (page_file_name base (replicate k 48%N ++ py_str_nat n) e)
  = Ok (Some (Z.of_nat n)).
Proof.
  intros He Hlen.
  destruct (extract_page_count_page_file U base
              (replicate k 48%N ++ py_str_nat n) e) as (v & -> & Hv).
  - intros H. apply app_eq_nil in H as [_ H]. by apply py_str_nat_nonempty in H.
  - apply Forall_app. split; [apply all_digits_zeros|apply py_str_nat_digits].
  - by rewrite length_app, length_replicate.
  - done.
  - do 2 f_equal. unfold py_int in Hv.
    destruct (replicate k 48%N ++ py_str_nat n) eqn:E; [done|]. rewrite <-E in Hv.
    destruct (int_max_str_digits <? length (replicate k 48%N ++ py_str_nat n))%nat;
      [done|].
    rewrite int_digits_leading_zeros, int_digits_str_nat in Hv. by injection Hv.
Qed.

Lemma extract_page_count_leading_zeros_witness :
  extract_page_count ascii_digits
    (page_file_name (py "scan") (replicate 2 48%N ++ py_str_nat 7) (py "png"))
  = Ok (Some 7).
Proof.
  apply (extract_page_count_leading_zeros ascii_digits (py "scan") (py "png") 2 7).
  - apply (bool_decide_unpack _). vm_compute. exact I.
  - vm_compute. lia.
Defined.

(** X5.  The discovery filter and the codec draw the same line:
    [extract_page_count] returns none exactly for the names the filter
    rejects, and [get_base_filename] finds nothing in a rejected name. *)
Theorem discovery_agrees_with_codec (U : digit_class) (f : pystr) :
  (extract_page_count U f = Ok None <-> is_image_file U f = false) /\
  (is_image_file U f = false -> get_base_filename U f = None).
Proof.
  split; [split|].
  - intros Hnone. destruct (is_image_file U f) eqn:Hf; [|done].
    apply is_image_file_iff, search_page_count_re_suffix in Hf as [m Hm].
    unfold extract_page_count in Hnone. rewrite Hm in Hnone.
    by destruct (py_int U (default [] (group 1 m))).
  - intros Hf. apply extract_page_count_no_suffix.
    intros H. apply is_image_file_iff in H. congruence.
  - intros Hf. apply get_base_filename_no_suffix.
    intros H. apply is_image_file_iff in H. congruence.
Qed.

(** X6.  A document name is never a candidate: whatever the name,
    [get_output_filename] returns a name the discovery filter rejects, so
    a later run does not take a written document for a page image. *)
Theorem output_filename_not_discovered (U : digit_class) (f : pystr) :
  is_image_file U (get_output_filename U f) = false.
Proof.
  destruct (is_image_file U f) eqn:Hf.
  - apply is_image_file_iff in Hf
      as (pre & ds & e & tail & Hne & Hds & He & Hend & ->).
    rewrite get_output_filename_decomposed by done.
    destruct (is_image_file U (pre ++ py ".pdf" ++ tail)) eqn:Hout; [|done].
    apply is_image_file_iff in Hout. by apply pdf_name_no_suffix in Hout.
  - rewrite get_output_filename_no_suffix; [done|].
    intros H. apply is_image_file_iff in H. congruence.
Qed.

(** X7.  A strip name is never a candidate (the character before [.png]
    is no digit): a later run over the output directory does not slice the
    strips again. *)
Theorem strip_name_not_discovered (U : digit_class) (base_filename : pystr)
    (i : nat) :
  is_digit U ch_ye = false ->
  is_image_file U (strip_name base_filename i) = false.
Proof.
  intros Hye.
  destruct (is_image_file U (strip_name base_filename i)) eqn:Hf; [|done].
  exfalso. apply is_image_file_iff in Hf
    as (pre & ds & e & tail & Hne & Hds & He & Hend & Heq).
  unfold strip_name in Heq.
  apply (f_equal reverse) in Heq. rewrite reverse_shape in Heq.
  rewrite !reverse_app in Heq.
  assert (exists c rds, reverse ds = c :: rds /\ is_digit U c = true)
    as (c & rds & Hrev & Hc).
  { apply Forall_reverse in Hds.
    destruct (reverse ds) as [|c rds] eqn:E.
    - apply (f_equal reverse) in E. rewrite reverse_involutive in E. done.
    - exists c, rds. split; [done|]. by apply Forall_cons in Hds as [? _]. }
  rewrite Hrev in Heq.
  remember (reverse (py_str_nat i) ++ reverse [ch_hyphen; ch_di] ++ reverse base_filename)
    as L eqn:HL.
  remember (rds ++ ch_hyphen :: reverse pre) as R eqn:HR. clear HL HR.
  unfold extensions in He.
  repeat (apply elem_of_cons in He as [->|He]); [..|by apply elem_of_nil in He];
    destruct Hend as [-> | ->];
    vm_compute in Heq; try discriminate Heq.
  injection Heq as Hc' _. unfold ch_ye in Hye. rewrite Hc' in Hye. congruence.
Qed.

Lemma strip_name_not_discovered_witness :
  is_image_file ascii_digits (strip_name (py "report-3") 2) = false.
Proof.
  apply (strip_name_not_discovered ascii_digits (py "report-3") 2). reflexivity.
Defined.

(** ** Loops and the world *)

Lemma for_each_app {A S : Type} (xs ys : list A) (body : A -> S -> M S)
    (s : S) (w : world) :
  for_each (xs ++ ys) body s w =
  match for_each xs body s w with
  | (Ok s', w') => for_each ys body s' w'
  | (Raise e, w') => (Raise e, w')
  end.
Proof.
  revert s w. induction xs as [|x xs IH]; intros s w; simpl; [done|].
  unfold bind. destruct (body x s w) as [[s'|e] w']; [apply IH|done].
Qed.

(** A loop whose body leaves the world alone leaves the world alone. *)
Lemma for_each_same_world {A S : Type} (body : A -> S -> M S) (xs : list A) :
  (forall x s w, snd (body x s w) = w) ->
  forall s w, snd (for_each xs body s w) = w.
Proof.
  intros Hbody. induction xs as [|x xs IH]; intros s w; simpl; [done|].
  unfold bind. specialize (Hbody x s w).
  destruct (body x s w) as [[s'|e] w']; simpl in Hbody; subst w'; [apply IH|done].
Qed.

Lemma image_open_same_world (p : pystr) (w : world) : snd (image_open p w) = w.
Proof.
  unfold image_open. destruct p as [|c p]; [done|].
  destruct (components (c :: p)) as [|n key]; [done|].
  destruct (w_fs w !! (n :: key)) as [[|c0]|]; try done.
  destruct (fs_refused (w_fs w) ReadFile (n :: key)); [done|]. by destruct c0.
Qed.

Lemma enumerate_app {A : Type} (xs ys : list A) : forall start,
  enumerate start (xs ++ ys) = enumerate start xs ++ enumerate (start + length xs) ys.
Proof.
  induction xs as [|x xs IH]; intros start; simpl.
  - by rewrite Nat.add_0_r.
  - rewrite IH. do 3 f_equal. lia.
Qed.

(** ** Extras: the slicer *)

Lemma cut_image_vertically_same_world (image_path : pystr) (num_parts : Z)
    (w : world) :
  snd (cut_image_vertically image_path num_parts w) = w.
Proof.
  unfold cut_image_vertically. unfold bind at 1.
  pose proof (image_open_same_world image_path w) as Hopen.
  destruct (image_open image_path w) as [[img|e] w1]; simpl in Hopen; subst w1;
    [|done].
  unfold img_size. cbv beta iota zeta.
  unfold bind at 1. unfold lift_result at 1.
  destruct (floordiv (img_height img) num_parts) as [part_height|e]; [|done].
  unfold bind at 1.
  match goal with
  | |- context [for_each ?xs ?body ?s w] =>
      pose proof (for_each_same_world body xs) as Hloop
  end.
  match type of Hloop with
  | _ -> forall s w, snd (?t s w) = w =>
      assert (forall s w, snd (t s w) = w) as Hloop'
  end.
  { apply Hloop. intros i acc w0. cbv zeta. unfold bind, lift_result.
    by destruct (image_crop img _). }
  specialize (Hloop' [] w).
  match goal with
  | |- context [for_each ?xs ?body ?s w] =>
      destruct (for_each xs body s w) as [[images|e] w1]
  end; simpl in Hloop'; by subst w1.
Qed.

(** X8.  The last strip takes the remainder of the division and nothing
    more: its height is [h // N + h % N], at least the height of the other
    strips and less than [N] rows above it. *)
Theorem last_strip_takes_remainder (image_path : pystr) (num_parts : Z)
    (img : image) (w : world) :
  image_open image_path w = (Ok img, w) ->
  0 <= img_width img -> 0 <= img_height img -> 1 <= num_parts ->
  exists strips,
    cut_image_vertically image_path num_parts w = (Ok strips, w) /\
    forall s, last strips = Some s ->
      img_height s = img_height img / num_parts + img_height img mod num_parts /\
      img_height img / num_parts <= img_height s
        < img_height img / num_parts + num_parts.
Proof.
  intros Hopen Hw Hh Hn.
  exists (strip_of img num_parts <$> py_range num_parts).
  split; [by apply cut_image_vertically_strips|].
  intros s Hs. rewrite last_lookup in Hs.
  apply strips_lookup in Hs as [-> _].
  unfold py_range. rewrite length_fmap, length_seqZ.
  replace (Z.of_nat (Init.Nat.pred (Z.to_nat num_parts))) with (num_parts - 1) by lia.
  rewrite strip_of_height_last.
  pose proof (Z.div_mod (img_height img) num_parts) as Hdm.
  pose proof (Z.mod_pos_bound (img_height img) num_parts) as Hmod.
  lia.
Qed.

Lemma last_strip_takes_remainder_witness :
  exists strips,
    cut_image_vertically (py "in/report-3.png") 3 world_one_page_file
    = (Ok strips, world_one_page_file) /\
    forall s, last strips = Some s ->
      img_height s = 301 / 3 + 301 mod 3 /\ 301 / 3 <= img_height s < 301 / 3 + 3.
Proof.
  apply (last_strip_takes_remainder (py "in/report-3.png") 3 sample_image
           world_one_page_file); [reflexivity | simpl; lia | simpl; lia | lia].
Defined.

(** X9.  [cut_image_vertically] only reads: whatever the path and the part
    count, and whether it returns or raises, it leaves the file system and
    the log as they were. *)
Theorem cut_image_vertically_reads_only (image_path : pystr) (num_parts : Z)
    (w : world) :
  snd (cut_image_vertically image_path num_parts w) = w.
Proof. apply cut_image_vertically_same_world. Qed.

(** X10.  More parts than rows: when the image has fewer rows than parts,
    every strip but the last is empty and the last strip is the whole
    image. *)
Theorem more_parts_than_rows (image_path : pystr) (num_parts : Z)
    (img : image) (w : world) :
  image_open image_path w = (Ok img, w) ->
  0 <= img_width img -> 0 <= img_height img < num_parts ->
  exists strips,
    cut_image_vertically image_path num_parts w = (Ok strips, w) /\
    length strips = Z.to_nat num_parts /\
    (forall (i : nat) s, strips !! i = Some s -> Z.of_nat i < num_parts - 1 ->
       img_height s = 0 /\ image_nonempty s = false) /\
    (forall s, last strips = Some s ->
       img_size s = img_size img /\
       img_pixels s
       = Cropped (0, 0, img_width img, img_height img) (img_pixels img)).
Proof.
  intros Hopen Hw Hh.
  assert (img_height img / num_parts = 0) as Hzero by (apply Z.div_small; lia).
  exists (strip_of img num_parts <$> py_range num_parts).
  split; [apply cut_image_vertically_strips; [done|done|lia|lia]|].
  split; [by unfold py_range; rewrite length_fmap, length_seqZ|].
  split.
  - intros i s Hs Hi. apply strips_lookup in Hs as [-> _].
    unfold image_nonempty. rewrite strip_of_height_inner, Hzero by done.
    split; [done|]. apply andb_false_r.
  - intros s Hs. rewrite last_lookup in Hs.
    apply strips_lookup in Hs as [-> _].
    unfold py_range. rewrite length_fmap, length_seqZ.
    replace (Z.of_nat (Init.Nat.pred (Z.to_nat num_parts))) with (num_parts - 1) by lia.
    unfold strip_of, img_size. simpl. rewrite Hzero.
    destruct (Z.ltb_spec (num_parts - 1) (num_parts - 1)); [lia|].
    rewrite Z.mul_0_r, Z.sub_0_r. done.
Qed.

Lemma more_parts_than_rows_witness :
  exists strips,
    cut_image_vertically (py "in/report-3.png") 500 world_one_page_file
    = (Ok strips, world_one_page_file) /\
    length strips = 500%nat.
Proof.
  destruct (more_parts_than_rows (py "in/report-3.png") 500 sample_image
              world_one_page_file) as (strips & H1 & H2 & _);
    [reflexivity | simpl; lia | simpl; lia |].
  exists strips. split; assumption.
Defined.

(** ** More on the strip writer *)

Lemma write_strips_refused (d : list pystr) (base : pystr)
    (images : list image) : forall (start : nat) (fs : filesystem),
  fs_refused (write_strips d base start images fs) = fs_refused fs.
Proof.
  induction images as [|img images IH]; intros start fs; simpl; [done|].
  by rewrite IH.
Qed.

Lemma write_strips_is_dir (d : list pystr) (base : pystr)
    (images : list image) : forall (start : nat) (fs : filesystem),
  fs_is_dir fs d = true ->
  fs_is_dir (write_strips d base start images fs) d = true.
Proof.
  induction images as [|img images IH]; intros start fs Hd; simpl; [done|].
  apply IH, fs_is_dir_insert_file; [apply entry_not_dir|done].
Qed.

(** The paths a successful [save_cut_images] returns. *)
Lemma save_cut_images_loop_paths (base out : pystr) (images : list image) :
  forall (start : nat) (saved paths : list pystr) (w w' : world),
    for_each (enumerate start images)
      (fun '(i, img) saved_paths =>
         let output_path := os_path_join out (strip_name base i) in
         let* _ := image_save_png img output_path in
         ret (saved_paths ++ [output_path]))
      saved w = (Ok paths, w') ->
    paths = saved ++ ((fun i => os_path_join out (strip_name base i))
                        <$> seq start (length images)).
Proof.
  induction images as [|img images IH]; intros start saved paths w w'; simpl.
  - intros [= <- _]. by rewrite app_nil_r.
  - unfold bind at 1. unfold bind at 1.
    destruct (image_save_png img (os_path_join out (strip_name base start)) w)
      as [[[]|e] w1]; [|done].
    unfold ret at 1. intros H. apply IH in H. by rewrite <-app_assoc in H.
Qed.

Lemma strip_name_head (base : pystr) (i j : nat) :
  head (strip_name base i) = head (strip_name base j).
Proof. unfold strip_name. by destruct base. Qed.

Lemma os_path_join_inj (out a b : pystr) :
  head a = head b -> os_path_join out a = os_path_join out b -> a = b.
Proof.
  unfold os_path_join. destruct a as [|c a], b as [|c' b]; simpl; try done.
  intros [= <-]. destruct (N.eqb c ch_slash); [done|].
  destruct (last out) as [l|]; [destruct (N.eqb l ch_slash)|];
    intros H; apply app_inv_head in H; congruence.
Qed.

Lemma strip_paths_NoDup (base out : pystr) (start n : nat) :
  NoDup ((fun i => os_path_join out (strip_name base i)) <$> seq start n).
Proof.
  apply NoDup_fmap_2; [|apply NoDup_seq].
  intros i j H. apply os_path_join_inj in H; [|apply strip_name_head].
  by apply strip_name_inj in H.
Qed.

(** ** Extras: the strip writer *)

(** X11.  Whenever [save_cut_images] returns, it returns one path per
    strip and the paths are pairwise distinct: no strip is written over
    another one. *)
Theorem save_cut_images_distinct_paths (images : list image)
    (base_filename output_folder : pystr) (w w' : world) (paths : list pystr) :
  save_cut_images images base_filename output_folder w = (Ok paths, w') ->
  length paths = length images /\ NoDup paths.
Proof.
  intros H. apply save_cut_images_loop_paths in H. simpl in H. subst paths.
  split; [by rewrite length_fmap, length_seq|apply strip_paths_NoDup].
Qed.

Lemma save_cut_images_distinct_paths_witness :
  let images := [strip_of sample_image 2 0; strip_of sample_image 2 1] in
  let paths := [os_path_join (py "in") (strip_name (py "report") 1);
                os_path_join (py "in") (strip_name (py "report") 2)] in
  length paths = length images /\ NoDup paths.
Proof.
  intros images paths.
  exact (save_cut_images_distinct_paths images (py "report") (py "in")
           world_empty_folder
           (snd (save_cut_images images (py "report") (py "in") world_empty_folder))
           paths eq_refl).
Defined.

(** X12.  Writes are not rolled back: when a directory stands under the
    name of a strip, and the strips before it can be written (nothing
    stands in their way and the operating system does not refuse),
    [save_cut_images] raises at that strip, returns no paths, and the
    strips before it stay written. *)
Theorem save_cut_images_keeps_partial (written : list image) (blocked : image)
    (rest : list image) (base_filename output_folder : pystr) (w : world) :
  (ch_slash ∉ base_filename) ->
  Forall (fun img => png_writes (img_mode img) = true /\ image_nonempty img = true)
         written ->
  fs_is_dir (w_fs w) (components output_folder) = true ->
  (forall k, (k < length written)%nat ->
     w_fs w !! (components output_folder ++ [strip_name base_filename (S k)])
     <> Some Dir) ->
  (forall k, (k < length written)%nat ->
     fs_refused (w_fs w) WriteFile
       (components output_folder ++ [strip_name base_filename (S k)]) = None) ->
  w_fs w !! (components output_folder
             ++ [strip_name base_filename (S (length written))]) = Some Dir ->
  exists w',
    save_cut_images (written ++ blocked :: rest) base_filename output_folder w
    = (Raise (IsADirectoryError
                (os_path_join output_folder
                   (strip_name base_filename (S (length written))))), w') /\
    w_log w' = w_log w /\
    forall k img, written !! k = Some img ->
      w_fs w' !! (components output_folder ++ [strip_name base_filename (S k)])
      = Some (File (ImageFile PNG img)).
Proof.
  intros Hbase Hall Hdir Hfree Hos Hblock.
  eexists. split.
  { unfold save_cut_images. rewrite enumerate_app, for_each_app.
    rewrite (save_cut_images_loop _ _ _ Hbase Hall 1%nat [] w) by done.
    simpl. unfold bind at 1. unfold bind at 1. unfold image_save_png.
    unfold fs_open_write. rewrite parent_of_join
      by (by apply strip_name_no_slash || apply strip_name_is_name).
    simpl w_fs. rewrite write_strips_is_dir by done.
    replace (1 + length written)%nat with (S (length written)) by lia.
    rewrite lookup_write_strips_other, Hblock; [done|].
    intros k Hk H. apply app_inv_head in H. injection H as H.
    apply strip_name_inj in H. lia. }
  simpl. split; [done|].
  intros k img Hk. by apply (lookup_write_strips _ _ _ 1%nat).
Qed.

Lemma save_cut_images_keeps_partial_witness :
  let w := World (<[ [py "in"; strip_name (py "report") 2] := Dir ]>
                    (w_fs world_empty_folder)) [] in
  exists w',
    save_cut_images ([strip_of sample_image 2 0] ++ strip_of sample_image 2 1 :: [])
      (py "report") (py "in") w
    = (Raise (IsADirectoryError
                (os_path_join (py "in") (strip_name (py "report") 2))), w') /\
    w_fs w' !! [py "in"; strip_name (py "report") 1]
    = Some (File (ImageFile PNG (strip_of sample_image 2 0))).
Proof.
  intros w.
  destruct (save_cut_images_keeps_partial [strip_of sample_image 2 0]
              (strip_of sample_image 2 1) [] (py "report") (py "in") w)
    as (w' & Hrun & _ & Hfiles).
  - apply (bool_decide_unpack _). vm_compute. exact I.
  - repeat constructor.
  - reflexivity.
  - intros k Hk. destruct k as [|k]; [|simpl in Hk; lia]. vm_compute. discriminate.
  - intros k Hk. reflexivity.
  - reflexivity.
  - exists w'. split; [exact Hrun|]. exact (Hfiles 0%nat _ eq_refl).
Defined.

(** ** More on the document assembler *)

Lemma parent_of_key (p : pystr) (d key : list pystr) :
  parent_of p = Some (d, key) -> key <> d.
Proof.
  unfold parent_of. destruct (last (components p)) as [n|] eqn:Hlast; [|done].
  intros [= <- <-] H. apply (f_equal length) in H.
  apply last_Some in Hlast as [l' Hl]. rewrite Hl in H.
  rewrite length_take, length_app in H. simpl in H. lia.
Qed.

(** ** Extras: the document assembler *)

(** X13.  When the document can be written (the operating system does
    not refuse), its pages are RGB and keep the sizes of the images; the
    resolution 100 is applied only when there are two or more images: a
    single image is saved without it, at the default of the library. *)
Theorem images_to_pdf_resolution (images : list image) (output_path : pystr)
    (d key : list pystr) (w : world) :
  images <> [] ->
  Forall (fun img => img_mode img <> ModeI16 /\ image_nonempty img = true) images ->
  has_pdf_extension output_path = true ->
  parent_of output_path = Some (d, key) ->
  fs_is_dir (w_fs w) d = true ->
  w_fs w !! key <> Some Dir ->
  fs_refused (w_fs w) WriteFile key = None ->
  exists pages,
    w_fs (snd (images_to_pdf images output_path w)) !! key
    = Some (File (PdfFile pages (if (1 <? length images)%nat then 100 else 72))) /\
    Forall (fun page => img_mode page = ModeRGB) pages /\
    img_size <$> pages = img_size <$> images.
Proof.
  intros Hne Hall Hext Hp Hd Hk Hos.
  exists (rgb_of <$> images).
  rewrite (images_to_pdf_written images output_path d key) by done. simpl.
  split; [apply fs_lookup_insert_eq|]. split.
  - apply Forall_fmap, Forall_forall. intros img _. simpl.
    unfold rgb_of. case_bool_decide as Hm; [done|].
    by destruct (decide (img_mode img = ModeRGB)).
  - rewrite <-list_fmap_compose. apply list_fmap_ext. intros i img _. simpl.
    unfold rgb_of. by case_bool_decide.
Qed.

Lemma images_to_pdf_resolution_witness :
  exists pages,
    w_fs (snd (images_to_pdf [sample_image] (py "in/a.pdf") world_empty_folder))
      !! [py "in"; py "a.pdf"]
    = Some (File (PdfFile pages 72)) /\
    Forall (fun page => img_mode page = ModeRGB) pages /\
    img_size <$> pages = img_size <$> [sample_image].
Proof.
  apply (images_to_pdf_resolution [sample_image] (py "in/a.pdf")
           [py "in"] [py "in"; py "a.pdf"] world_empty_folder).
  - discriminate.
  - repeat constructor; discriminate.
  - reflexivity.
  - reflexivity.
  - reflexivity.
  - vm_compute. discriminate.
  - reflexivity.
Defined.

(** X14.  A path whose extension is empty, or contains a line feed, names
    no format: [images_to_pdf] raises after converting the images and
    writes nothing.  (This is where a name that ends in a line feed fails:
    its document name ends in [.pdf] and a line feed.) *)
Theorem images_to_pdf_no_format (images : list image) (output_path : pystr)
    (w : world) :
  images <> [] ->
  Forall (fun img => img_mode img <> ModeI16) images ->
  splitext_ext output_path = [] \/ ch_lf ∈ splitext_ext output_path ->
  images_to_pdf images output_path w
  = (Raise (ValueError (py "unknown file extension")), w).
Proof.
  intros Hne Hall Hext.
  assert (has_pdf_extension output_path = false) as Hpdf.
  { unfold has_pdf_extension. apply bool_decide_eq_false. intros H.
    destruct Hext as [Hext|Hext]; [by rewrite Hext in H|].
    apply list_elem_of_In, (in_map ascii_lower), list_elem_of_In in Hext.
    rewrite H in Hext.
    revert Hext. apply (bool_decide_unpack _). vm_compute. exact I. }
  unfold images_to_pdf. destruct images as [|img images]; [done|].
  unfold bind at 1. rewrite images_to_pdf_convert_loop by done.
  rewrite app_nil_l, fmap_cons.
  destruct (1 <? length (rgb_of img :: (rgb_of <$> images)))%nat;
    unfold image_save_auto; by rewrite Hpdf.
Qed.

Lemma images_to_pdf_no_format_witness :
  images_to_pdf [sample_image] (py "in/a.pdf" ++ [ch_lf]) world_empty_folder
  = (Raise (ValueError (py "unknown file extension")), world_empty_folder).
Proof.
  apply (images_to_pdf_no_format [sample_image] (py "in/a.pdf" ++ [ch_lf])
           world_empty_folder).
  - discriminate.
  - repeat constructor; discriminate.
  - right. apply (bool_decide_unpack _). vm_compute. exact I.
Defined.



(** ** The world only advances *)

Lemma advances_refl (w : world) : advances w w.
Proof.
  split; [|split].
  - by unfold log_grows.
  - by intros d Hd.
  - by intros key Hkey.
Qed.

Lemma advances_trans (w1 w2 w3 : world) :
  advances w1 w2 -> advances w2 w3 -> advances w1 w3.
Proof.
  intros (L1 & D1 & N1) (L2 & D2 & N2). split; [|split].
  - unfold log_grows in *. by etrans.
  - intros d Hd. by apply D2, D1.
  - intros k Hk. by apply N2, N1.
Qed.

Lemma advancing_ret {A : Type} (a : A) : advancing (ret a).
Proof. intros w. apply advances_refl. Qed.

Lemma advancing_raise {A : Type} (e : exn) : advancing (@raise A e).
Proof. intros w. apply advances_refl. Qed.

Lemma advancing_lift_result {A : Type} (r : result A) : advancing (lift_result r).
Proof. intros w. apply advances_refl. Qed.

Lemma advancing_bind {A B : Type} (m : M A) (f : A -> M B) :
  advancing m -> (forall a, advancing (f a)) -> advancing (bind m f).
Proof.
  intros Hm Hf w. unfold bind. specialize (Hm w).
  destruct (m w) as [[a|e] w1]; simpl in *; [|done].
  eapply advances_trans; [exact Hm|apply Hf].
Qed.

Lemma advancing_try_except {A : Type} (m : M A) (handler : exn -> M A) :
  advancing m -> (forall e, advancing (handler e)) -> advancing (try_except m handler).
Proof.
  intros Hm Hh w. unfold try_except. specialize (Hm w).
  destruct (m w) as [[a|e] w1]; simpl in *; [done|].
  eapply advances_trans; [exact Hm|apply Hh].
Qed.

Lemma advancing_for_each {A S : Type} (xs : list A) (body : A -> S -> M S) :
  (forall x s, advancing (body x s)) -> forall s, advancing (for_each xs body s).
Proof.
  intros Hbody. induction xs as [|x xs IH]; intros s; simpl.
  - apply advancing_ret.
  - apply advancing_bind; [apply Hbody|apply IH].
Qed.

Lemma advancing_appendLog_ (msg : log_msg) : advancing (appendLog_ msg).
Proof.
  intros w. split; [|split].
  - unfold log_grows. simpl. by apply prefix_app_r.
  - by intros d Hd.
  - by intros key Hkey.
Qed.

Lemma advancing_os_path_isdir (p : pystr) : advancing (os_path_isdir p).
Proof. intros w. apply advances_refl. Qed.

Lemma advancing_os_listdir (p : pystr) : advancing (os_listdir p).
Proof.
  intros w. unfold os_listdir. destruct p; [apply advances_refl|].
  destruct (fs_is_dir (w_fs w) _).
  - destruct (fs_refused (w_fs w) ListDirectory _); apply advances_refl.
  - destruct (w_fs w !! _); apply advances_refl.
Qed.

Lemma advancing_os_makedirs (p : pystr) : advancing (os_makedirs p).
Proof.
  intros w. split; [|split].
  - unfold log_grows. by rewrite os_makedirs_log.
  - intros d. apply os_makedirs_is_dir.
  - intros key [v Hv]. unfold os_makedirs. destruct p as [|c p]; [by eexists|].
    destruct (fs_makedirs (w_fs w) (c :: p) [] (components (c :: p)))
      as [r fs'] eqn:H. simpl.
    exists v. by eapply fs_makedirs_preserves.
Qed.

Lemma fs_open_write_not_dir (fs : filesystem) (p : pystr) (key : list pystr) :
  fs_open_write fs p = Ok key -> fs !! key <> Some Dir /\ key <> [].
Proof.
  unfold fs_open_write, parent_of.
  destruct (last (components p)) as [n|] eqn:Hlast; [|done].
  destruct (fs_is_dir fs _); [|done].
  destruct (fs !! components p) as [[|c]|] eqn:Hk; [done|..];
    (destruct (fs_refused fs WriteFile (components p)); [done|]);
    intros [= <-]; (split; [congruence|]); intros E; by rewrite E in Hlast.
Qed.

(** Putting a regular file where no directory is. *)
Lemma advances_insert_file (fs : filesystem) (log : list log_msg)
    (key : list pystr) (c : content) :
  fs !! key <> Some Dir -> key <> [] ->
  advances (World fs log) (World (<[key := File c]> fs) log).
Proof.
  intros Hk Hne. split; [by unfold log_grows|].
  unfold dirs_kept, nothing_removed. simpl. split.
  - intros d Hd. apply fs_is_dir_insert_file; [|done].
    intros ->. unfold fs_is_dir in Hd. destruct d as [|n d]; [done|].
    revert Hk Hd. destruct (fs !! (n :: d)) as [[|]|]; congruence.
  - intros k [v Hv]. destruct (decide (key = k)) as [->|Hne'].
    + rewrite fs_lookup_insert_eq. by eexists.
    + rewrite fs_lookup_insert_ne by done. by eexists.
Qed.

Lemma advances_abandon (fs : filesystem) (log : list log_msg) (key : list pystr) :
  fs !! key <> Some Dir -> key <> [] ->
  advances (World fs log) (World (fs_abandon fs key) log).
Proof.
  intros Hk Hne. unfold fs_abandon.
  destruct (fs !! key) eqn:E; [|apply advances_refl].
  apply advances_insert_file; [by rewrite E|done].
Qed.

Lemma world_eta (w : world) : World (w_fs w) (w_log w) = w.
Proof. by destruct w. Qed.

Lemma advancing_image_save_png (img : image) (p : pystr) :
  advancing (image_save_png img p).
Proof.
  intros w. unfold image_save_png.
  destruct (fs_open_write (w_fs w) p) as [key|e] eqn:Hopen; [|apply advances_refl].
  apply fs_open_write_not_dir in Hopen as [Hk Hne].
  rewrite <-(world_eta w) at 1.
  destruct (negb (png_writes (img_mode img))); [by apply advances_abandon|].
  destruct (negb (image_nonempty img)); [by apply advances_abandon|].
  by apply advances_insert_file.
Qed.

Lemma advancing_image_save_auto (first : image) (more : list image)
    (resolution : Z) (p : pystr) :
  advancing (image_save_auto first more resolution p).
Proof.
  intros w. unfold image_save_auto.
  destruct (negb (has_pdf_extension p)); [apply advances_refl|].
  destruct (fs_open_write (w_fs w) p) as [key|e] eqn:Hopen; [|apply advances_refl].
  apply fs_open_write_not_dir in Hopen as [Hk Hne].
  rewrite <-(world_eta w) at 1.
  destruct (negb (forallb image_nonempty (first :: more)));
    [by apply advances_abandon|by apply advances_insert_file].
Qed.

Lemma advancing_cut_image_vertically (image_path : pystr) (num_parts : Z) :
  advancing (cut_image_vertically image_path num_parts).
Proof.
  intros w. rewrite cut_image_vertically_same_world. apply advances_refl.
Qed.

Lemma advancing_save_cut_images (images : list image) (base out : pystr) :
  advancing (save_cut_images images base out).
Proof.
  unfold save_cut_images. apply advancing_for_each. intros [i img] saved.
  apply advancing_bind; [apply advancing_image_save_png|].
  intros _. apply advancing_ret.
Qed.

Lemma advancing_images_to_pdf (images : list image) (output_path : pystr) :
  advancing (images_to_pdf images output_path).
Proof.
  unfold images_to_pdf. destruct images as [|img images]; [apply advancing_ret|].
  apply advancing_bind.
  - apply advancing_for_each. intros x acc.
    case_bool_decide; [|apply advancing_ret].
    apply advancing_bind; [apply advancing_lift_result|].
    intros ?. apply advancing_ret.
  - intros rgb_images. apply advancing_bind; [|intros _; apply advancing_ret].
    destruct rgb_images as [|first more]; [apply advancing_raise|].
    destruct (1 <? length (first :: more))%nat; apply advancing_image_save_auto.
Qed.

Section Advancing.
Variable U : digit_class.

Lemma advancing_process_file_try (folder_path output_folder filename : pystr)
    (counts : nat * nat) :
  advancing (process_file_try U folder_path output_folder filename counts).
Proof.
  unfold process_file_try. destruct counts as [s e].
  apply advancing_bind; [apply advancing_lift_result|].
  intros [page_count|].
  2:{ apply advancing_bind; [apply advancing_appendLog_|].
      intros _. apply advancing_ret. }
  apply advancing_bind; [apply advancing_appendLog_|]. intros _.
  destruct (get_base_filename U filename) as [base|].
  2:{ apply advancing_bind; [apply advancing_appendLog_|].
      intros _. apply advancing_ret. }
  repeat first
    [ apply advancing_ret
    | apply advancing_appendLog_
    | apply advancing_cut_image_vertically
    | apply advancing_save_cut_images
    | apply advancing_images_to_pdf
    | apply advancing_bind
    | intros ? ].
Qed.

Lemma advancing_process_file (folder_path output_folder filename : pystr)
    (counts : nat * nat) :
  advancing (process_file U folder_path output_folder filename counts).
Proof.
  unfold process_file. apply advancing_try_except.
  - apply advancing_process_file_try.
  - intros e. apply advancing_bind; [apply advancing_appendLog_|].
    intros _. apply advancing_ret.
Qed.

Lemma advancing_process_folder (folder_path output_folder : pystr) :
  advancing (process_folder U folder_path output_folder).
Proof.
  unfold process_folder.
  apply advancing_bind; [apply advancing_os_path_isdir|]. intros is_dir.
  destruct (negb is_dir).
  { apply advancing_bind; [apply advancing_appendLog_|].
    intros _. apply advancing_ret. }
  apply advancing_bind; [apply advancing_os_makedirs|]. intros _.
  apply advancing_bind; [apply advancing_os_listdir|]. intros files.
  destruct (filter _ files) as [|f image_files].
  { apply advancing_bind; [apply advancing_appendLog_|]. intros _.
    apply advancing_bind; [apply advancing_appendLog_|]. intros _.
    apply advancing_ret. }
  apply advancing_bind; [apply advancing_appendLog_|]. intros _.
  apply advancing_bind.
  { apply advancing_for_each. intros x s. apply advancing_process_file. }
  intros [s e].
  apply advancing_bind; [apply advancing_appendLog_|]. intros _.
  apply advancing_ret.
Qed.

End Advancing.

(** ** Extras: what a run never does *)

(** X17.  A run removes nothing: after [process_folder], whether it
    returns or raises, every directory is still a directory and every path
    that named a file or directory still names one. *)
Theorem process_folder_removes_nothing (U : digit_class)
    (folder_path output_folder : pystr) (w : world) :
  let w' := snd (process_folder U folder_path output_folder w) in
  (forall d, fs_is_dir (w_fs w) d = true -> fs_is_dir (w_fs w') d = true) /\
  (forall key, is_Some (w_fs w !! key) -> is_Some (w_fs w' !! key)).
Proof.
  pose proof (advancing_process_folder U folder_path output_folder w)
    as (_ & Hdirs & Hkeep).
  by split.
Qed.

(** ** The orchestrator, file by file *)

Lemma fs_makedirs_ok_dir (p : pystr) (todo : list pystr) :
  forall (fs : filesystem) (done : list pystr) fs',
    fs_makedirs fs p done todo = (Ok tt, fs') ->
    fs_is_dir fs done = true ->
    fs_is_dir fs' (done ++ todo) = true.
Proof.
  induction todo as [|name todo IH]; intros fs done fs'; simpl.
  - intros [= <-]. by rewrite app_nil_r.
  - replace (done ++ name :: todo) with ((done ++ [name]) ++ todo)
      by by rewrite <-app_assoc.
    destruct (fs !! (done ++ [name])) as [[|c]|] eqn:Hd.
    + intros H _. eapply IH; [exact H|].
      unfold fs_is_dir. rewrite Hd. by destruct (done ++ [name]).
    + done.
    + destruct (fs_refused fs MakeDirectory (done ++ [name])) as [e|]; [done|].
      intros H _. eapply IH; [exact H|].
      unfold fs_is_dir. rewrite fs_lookup_insert_eq. by destruct (done ++ [name]).
Qed.

Lemma os_makedirs_ok_dir (p : pystr) (w w1 : world) :
  os_makedirs p w = (Ok tt, w1) -> fs_isdir (w_fs w1) p = true.
Proof.
  unfold os_makedirs, fs_isdir. destruct p as [|c p]; [done|].
  destruct (fs_makedirs (w_fs w) (c :: p) [] (components (c :: p)))
    as [r fs'] eqn:H.
  intros [= -> <-]. simpl.
  by apply (fs_makedirs_ok_dir _ _ _ [] _ H).
Qed.

Lemma take_while_app_stop {A : Type} (f : A -> bool) (xs ys : list A) :
  Forall (fun x => f x = true) xs ->
  match ys with [] => True | y :: _ => f y = false end ->
  take_while f (xs ++ ys) = xs.
Proof.
  induction 1 as [|x xs Hx _ IH]; intros Hys; simpl.
  - destruct ys as [|y ys]; [done|]. simpl. by rewrite Hys.
  - rewrite Hx. f_equal. by apply IH.
Qed.

(** The path handed to [images_to_pdf] ends in the document name. *)
Lemma os_path_join_name (out n : pystr) :
  ch_slash ∉ n -> n <> [] ->
  exists pre, os_path_join out n = pre ++ n /\
    match reverse pre with [] => True | c :: _ => c = ch_slash end.
Proof.
  intros Hn Hne. unfold os_path_join. destruct n as [|c n]; [done|].
  destruct (N.eqb_spec c ch_slash) as [->|_].
  { exfalso. apply Hn. by left. }
  destruct (last out) as [l|] eqn:Hl.
  - apply last_Some in Hl as [out' ->].
    destruct (N.eqb_spec l ch_slash) as [->|_].
    + exists (out' ++ [ch_slash]). split; [done|]. by rewrite reverse_snoc.
    + exists ((out' ++ [l]) ++ [ch_slash]). split; [by rewrite <-!app_assoc|].
      by rewrite reverse_snoc.
  - apply last_None in Hl as ->. by exists [].
Qed.

Lemma basename_join (out n : pystr) :
  ch_slash ∉ n -> n <> [] -> basename (os_path_join out n) = n.
Proof.
  intros Hn Hne. destruct (os_path_join_name out n Hn Hne) as (pre & -> & Hpre).
  unfold basename. rewrite reverse_app, take_while_app_stop.
  - apply reverse_involutive.
  - apply Forall_forall. intros c Hc. rewrite elem_of_reverse in Hc.
    destruct (N.eqb_spec c ch_slash) as [->|_]; [done|done].
  - destruct (reverse pre) as [|c r]; [done|]. by subst c.
Qed.

Lemma has_pdf_extension_document (out base : pystr) :
  ch_slash ∉ base ->
  has_pdf_extension (os_path_join out (base ++ py ".pdf"))
  = negb (forallb (fun c => N.eqb c ch_dot) base).
Proof.
  intros Hb. unfold has_pdf_extension, splitext_ext.
  rewrite basename_join.
  2:{ rewrite not_elem_of_app. split; [done|].
      apply (bool_decide_unpack _). vm_compute. exact I. }
  2:{ by destruct base. }
  rewrite reverse_app.
  change (reverse (py ".pdf") ++ reverse base)
    with ([102; 100; 112]%N ++ ch_dot :: reverse base).
  rewrite take_while_app_stop; [|by repeat constructor|done].
  change (drop (length [102; 100; 112]%N) ([102; 100; 112]%N ++ ch_dot :: reverse base))
    with (ch_dot :: reverse base).
  cbv beta iota.
  assert (forallb (fun c => N.eqb c ch_dot) (reverse base)
          = forallb (fun c => N.eqb c ch_dot) base) as ->.
  { apply eq_true_iff_eq. rewrite !forallb_forall.
    split; intros H x Hx; apply H; apply list_elem_of_In;
      apply list_elem_of_In in Hx; by rewrite ?elem_of_reverse in *. }
  by destruct (forallb _ base).
Qed.

Lemma image_open_file (p : pystr) (w : world) (fmt : image_format) (img : image) :
  components p <> [] ->
  w_fs w !! components p = Some (File (ImageFile fmt img)) ->
  fs_refused (w_fs w) ReadFile (components p) = None ->
  image_open p w = (Ok img, w).
Proof.
  intros Hne Hk Hos. unfold image_open. destruct p as [|c p]; [done|].
  destruct (components (c :: p)) as [|n key]; [done|]. by rewrite Hk, Hos.
Qed.

Lemma page_file_name_no_slash (base ds e : pystr) :
  ch_slash ∉ base -> all_digits ascii_digits ds -> e ∈ extensions ->
  ch_slash ∉ page_file_name base ds e.
Proof.
  intros Hb Hds He. unfold page_file_name. rewrite !not_elem_of_app.
  repeat split; try done.
  - by intros [[=]|[]%elem_of_nil]%elem_of_cons.
  - intros Hin. unfold all_digits in Hds. rewrite Forall_forall in Hds.
    specialize (Hds _ Hin). by rewrite slash_not_digit in Hds.
  - by intros [[=]|[]%elem_of_nil]%elem_of_cons.
  - revert He. unfold extensions. rewrite !elem_of_cons, elem_of_nil.
    intros [->|[->|[->|[->|[->|[->|[]]]]]]];
      apply (bool_decide_unpack _); vm_compute; exact I.
Qed.

Lemma page_file_name_is_name (base ds e : pystr) :
  is_name (page_file_name base ds e) = true.
Proof.
  unfold is_name, page_file_name.
  apply andb_true_iff. split; apply negb_true_iff, bool_decide_eq_false;
    intros H; apply (f_equal length) in H; rewrite !length_app in H;
    simpl in H; lia.
Qed.

Lemma strip_of_nonempty (img : image) (n i : Z) :
  0 < img_width img -> 1 <= n -> n <= img_height img -> 0 <= i < n ->
  image_nonempty (strip_of img n i) = true.
Proof.
  intros Hw Hn Hh Hi. unfold image_nonempty, strip_of. simpl.
  apply andb_true_iff. split; [by apply Z.ltb_lt|]. apply Z.ltb_lt.
  assert (1 <= img_height img / n) as Hq.
  { apply Z.div_le_lower_bound; lia. }
  pose proof (Z.mul_div_le (img_height img) n ltac:(lia)) as Hle.
  destruct (Z.ltb_spec i (n - 1)); [nia|].
  assert (i = n - 1) as -> by lia. nia.
Qed.

Lemma strips_nonempty (img : image) (n : Z) :
  0 < img_width img -> 1 <= n -> n <= img_height img ->
  Forall (fun s => img_mode s = img_mode img /\ image_nonempty s = true)
         (strip_of img n <$> py_range n).
Proof.
  intros Hw Hn Hh. apply Forall_forall. intros s Hs.
  apply list_elem_of_fmap in Hs as (i & -> & Hi).
  unfold py_range in Hi. apply elem_of_seqZ in Hi.
  split; [done|]. apply strip_of_nonempty; lia.
Qed.

Lemma bind_ok {A B : Type} (m : M A) (f : A -> M B) (w w1 : world) (a : A) :
  m w = (Ok a, w1) -> bind m f w = f a w1.
Proof. unfold bind. by intros ->. Qed.

Lemma bind_raise {A B : Type} (m : M A) (f : A -> M B) (w w1 : world) (e : exn) :
  m w = (Raise e, w1) -> bind m f w = (Raise e, w1).
Proof. unfold bind. by intros ->. Qed.

Lemma image_open_log (p : pystr) (fs : filesystem) (log log' : list log_msg) :
  fst (image_open p (World fs log)) = fst (image_open p (World fs log')).
Proof.
  unfold image_open. destruct p as [|c p]; [done|].
  destruct (components (c :: p)) as [|n key]; [done|]. simpl.
  destruct (fs !! (n :: key)) as [[|c0]|]; try done.
  destruct (fs_refused fs ReadFile (n :: key)); [done|]. by destruct c0.
Qed.

Lemma image_open_at (p : pystr) (w : world) (log : list log_msg) :
  image_open p (World (w_fs w) log)
  = (fst (image_open p w), World (w_fs w) log).
Proof.
  pose proof (image_open_same_world p (World (w_fs w) log)) as Hw.
  pose proof (image_open_log p (w_fs w) log (w_log w)) as Hr.
  rewrite world_eta in Hr.
  destruct (image_open p (World (w_fs w) log)) as [r w1]. simpl in *. by subst.
Qed.

Section FileByFile.
Variable U : digit_class.


End FileByFile.





Lemma strip_name_not_document (base : pystr) (i : nat) :
  strip_name base i <> base ++ py ".pdf".
Proof. unfold strip_name. intros H. by apply app_inv_head in H. Qed.

Lemma document_name_is_name (base : pystr) : is_name (base ++ py ".pdf") = true.
Proof.
  unfold is_name.
  apply andb_true_iff. split; apply negb_true_iff, bool_decide_eq_false;
    intros H; apply (f_equal length) in H; rewrite !length_app in H;
    simpl in H; lia.
Qed.

Lemma document_name_no_slash (base : pystr) :
  ch_slash ∉ base -> ch_slash ∉ base ++ py ".pdf".
Proof.
  intros Hb. rewrite not_elem_of_app. split; [done|].
  apply (bool_decide_unpack _). vm_compute. exact I.
Qed.

(** The loop body on a file it can process, with the world it leaves. *)
Lemma process_file_written (U : digit_class)
    (folder_path output_folder base e : pystr) (n : nat)
    (fmt : image_format) (img : image) (counts : nat * nat) (w : world) :
  let filename := page_file_name base (py_str_nat n) e in
  let strips := strip_of img (Z.of_nat n) <$> py_range (Z.of_nat n) in
  let document := base ++ py ".pdf" in
  base <> [] -> ch_lf ∉ base -> ch_slash ∉ base ->
  forallb (fun c => N.eqb c ch_dot) base = false ->
  e ∈ extensions ->
  (1 <= n)%nat -> (length (py_str_nat n) <= int_max_str_digits)%nat ->
  w_fs w !! (components folder_path ++ [filename])
    = Some (File (ImageFile fmt img)) ->
  fs_refused (w_fs w) ReadFile (components folder_path ++ [filename]) = None ->
  png_writes (img_mode img) = true -> img_mode img <> ModeI16 ->
  0 < img_width img -> Z.of_nat n <= img_height img ->
  fs_is_dir (w_fs w) (components output_folder) = true ->
  (forall k, (k < n)%nat ->
     w_fs w !! (components output_folder ++ [strip_name base (S k)]) <> Some Dir) ->
  w_fs w !! (components output_folder ++ [document]) <> Some Dir ->
  (forall k, (k < n)%nat ->
     fs_refused (w_fs w) WriteFile
       (components output_folder ++ [strip_name base (S k)]) = None) ->
  fs_refused (w_fs w) WriteFile (components output_folder ++ [document]) = None ->
  process_file U folder_path output_folder filename counts w
  = (Ok (S (fst counts), snd counts),
     World (<[components output_folder ++ [document] :=
                File (PdfFile (rgb_of <$> strips)
                        (if (1 <? n)%nat then 100 else 72))]>
              (write_strips (components output_folder) base 1 strips (w_fs w)))
           (w_log w ++ [LogProcessing filename (Z.of_nat n); LogCutting;
                        LogCutDone n; LogSaving; LogSaved n;
                        LogMakingPdf document; LogDone document])).
Proof.
  intros filename strips document Hne Hlf Hslash Hdots He Hn Hlen Hfile Hread Hpng
    Hmode Hwidth Hheight Hout Hfree Hdoc Hos Hosdoc.
  assert (extract_page_count U filename = Ok (Some (Z.of_nat n))) as Hex.
  { unfold filename.
    destruct (extract_page_count_page_file U base (py_str_nat n) e)
      as (v & -> & Hv); try done.
    - apply py_str_nat_nonempty.
    - apply py_str_nat_digits.
    - rewrite py_int_str_nat in Hv by done. by injection Hv as <-. }
  assert (get_base_filename U filename = Some base) as Hbase.
  { apply get_base_filename_page_file; try done.
    - apply py_str_nat_nonempty.
    - apply py_str_nat_digits. }
  assert (get_output_filename U filename = document) as Hname.
  { pose proof (get_output_filename_decomposed U base (py_str_nat n) e []) as H.
    rewrite !app_nil_r in H. unfold filename, page_file_name. apply H; try done.
    - apply py_str_nat_nonempty.
    - apply py_str_nat_digits.
    - by left. }
  assert (components (os_path_join folder_path filename)
          = components folder_path ++ [filename]) as Hkey.
  { apply components_join; [|apply page_file_name_is_name].
    apply page_file_name_no_slash; [done|apply py_str_nat_digits|done]. }
  assert (length strips = n) as Hcount.
  { unfold strips, py_range. rewrite length_fmap, length_seqZ. lia. }
  assert (Forall (fun s => img_mode s = img_mode img /\ image_nonempty s = true)
            strips) as Hstrips.
  { apply strips_nonempty; lia. }
  unfold process_file, try_except, process_file_try. destruct counts as [s er].
  unfold bind at 1. unfold lift_result at 1. rewrite Hex.
  unfold bind at 1. unfold appendLog_ at 1. rewrite Hbase.
  unfold bind at 1. unfold appendLog_ at 1. cbn [w_fs w_log].
  erewrite bind_ok.
  2:{ apply (cut_image_vertically_strips _ _ img); [|lia..].
      rewrite image_open_at.
      rewrite (image_open_file _ w fmt img);
        [done| |by rewrite Hkey|by rewrite Hkey].
      rewrite Hkey. by destruct (components folder_path). }
  change (map (strip_of img (Z.of_nat n)) (py_range (Z.of_nat n))) with strips.
  rewrite Hname, Hcount.
  unfold bind at 1. unfold appendLog_ at 1. cbn [w_fs w_log].
  unfold bind at 1. unfold appendLog_ at 1. cbn [w_fs w_log].
  unfold save_cut_images.
  erewrite bind_ok.
  2:{ apply save_cut_images_loop; [done| |done| |].
      - eapply Forall_impl; [exact Hstrips|]. intros x [Hx1 Hx2].
        split; [by rewrite Hx1|done].
      - intros k Hk. cbn [w_fs]. apply Hfree. lia.
      - intros k Hk. cbn [w_fs]. apply Hos. lia. }
  cbn [w_fs w_log app].
  rewrite length_fmap, length_seq, Hcount.
  unfold bind at 1. unfold appendLog_ at 1. cbn [w_fs w_log].
  unfold bind at 1. unfold appendLog_ at 1. cbn [w_fs w_log].
  erewrite bind_ok.
  2:{ apply (images_to_pdf_written _ _ (components output_folder)
               (components output_folder ++ [document])).
      - intros H. rewrite H in Hcount. simpl in Hcount. lia.
      - eapply Forall_impl; [exact Hstrips|]. intros x [Hx1 Hx2].
        split; [by rewrite Hx1|done].
      - unfold document. rewrite has_pdf_extension_document by done.
        by rewrite Hdots.
      - apply parent_of_join;
          [by apply document_name_no_slash|apply document_name_is_name].
      - cbn [w_fs]. by apply write_strips_is_dir.
      - cbn [w_fs]. rewrite lookup_write_strips_other; [done|].
        intros k _ H. apply app_inv_head in H. injection H as H.
        by apply eq_sym, strip_name_not_document in H.
      - cbn [w_fs]. by rewrite write_strips_refused. }
  cbn [w_fs w_log].
  unfold bind at 1. unfold appendLog_ at 1. cbn [w_fs w_log]. unfold ret.
  cbn [fst snd]. rewrite Hcount. by rewrite <-!app_assoc.
Qed.

Lemma lookup_strips_written (d : list pystr) (base : pystr) (img : image)
    (n k : nat) (fs : filesystem) :
  (k < n)%nat ->
  write_strips d base 1 (strip_of img (Z.of_nat n) <$> py_range (Z.of_nat n)) fs
    !! (d ++ [strip_name base (S k)])
  = Some (File (ImageFile PNG (strip_of img (Z.of_nat n) (Z.of_nat k)))).
Proof.
  intros Hk. change (S k) with (1 + k)%nat. apply lookup_write_strips.
  unfold py_range. rewrite list_lookup_fmap.
  rewrite (lookup_seqZ_lt 0 (Z.of_nat n) k) by lia. simpl. do 2 f_equal.
Qed.

Lemma document_key_not_strip (d : list pystr) (base : pystr) (i : nat) :
  d ++ [base ++ py ".pdf"] <> d ++ [strip_name base i].
Proof.
  intros H. apply app_inv_head in H. injection H as H.
  by apply eq_sym, strip_name_not_document in H.
Qed.



Lemma bind_ok_inv {A B : Type} (m : M A) (f : A -> M B) (w w' : world) (b : B) :
  bind m f w = (Ok b, w') ->
  exists a w1, m w = (Ok a, w1) /\ f a w1 = (Ok b, w').
Proof.
  unfold bind. destruct (m w) as [[a|e] w1]; [|done]. intros H. by exists a, w1.
Qed.

Section Counting.
Variable U : digit_class.

(** One file changes the counts by at most one, and by exactly one when
    the filter accepts the name and the name has a base. *)
Lemma process_file_counts (folder_path output_folder filename : pystr)
    (counts counts' : nat * nat) (w w' : world) :
  process_file U folder_path output_folder filename counts w = (Ok counts', w') ->
  (fst counts + snd counts <= fst counts' + snd counts'
   <= fst counts + snd counts + 1)%nat /\
  (is_image_file U filename = true ->
   is_Some (get_base_filename U filename) ->
   (fst counts' + snd counts' = fst counts + snd counts + 1)%nat).
Proof.
  unfold process_file, try_except. destruct counts as [s e].
  destruct (process_file_try U folder_path output_folder filename (s, e) w)
    as [[c|x] w1] eqn:Htry.
  2:{ unfold bind, appendLog_, ret. intros [= <- _]. simpl. lia. }
  intros [= -> ->]. revert Htry. unfold process_file_try.
  intros (page_count & w2 & Hex & H)%bind_ok_inv.
  unfold lift_result in Hex. injection Hex as Hex _.
  destruct page_count as [page_count|].
  2:{ apply bind_ok_inv in H as (_ & _ & _ & [= <- _]). simpl.
      split; [lia|]. intros Hf _. exfalso.
      apply is_image_file_iff, search_page_count_re_suffix in Hf as [m Hm].
      unfold extract_page_count in Hex. rewrite Hm in Hex.
      by destruct (py_int U (default [] (group 1 m))). }
  apply bind_ok_inv in H as (_ & w3 & _ & H).
  destruct (get_base_filename U filename) as [base|].
  2:{ apply bind_ok_inv in H as (_ & _ & _ & [= <- _]). simpl.
      split; [lia|]. by intros _ [? ?]. }
  repeat (apply bind_ok_inv in H as (? & ? & _ & H)).
  injection H as <- _. simpl. lia.
Qed.

Lemma process_files_counts (folder_path output_folder : pystr)
    (files : list pystr) : forall (counts counts' : nat * nat) (w w' : world),
  for_each files (process_file U folder_path output_folder) counts w
    = (Ok counts', w') ->
  (fst counts' + snd counts' <= fst counts + snd counts + length files)%nat /\
  (Forall (fun f => is_image_file U f = true /\
                    is_Some (get_base_filename U f)) files ->
   (fst counts' + snd counts' = fst counts + snd counts + length files)%nat).
Proof.
  induction files as [|f files IH]; intros counts counts' w w'; simpl.
  - intros [= <- _]. lia.
  - intros (c1 & w1 & Hf & Hrest)%bind_ok_inv.
    apply process_file_counts in Hf as [Hle Heq].
    apply IH in Hrest as [Hle' Heq']. split; [lia|].
    intros [[Hf1 Hf2] Hall]%Forall_cons.
    specialize (Heq Hf1 Hf2). specialize (Heq' Hall). lia.
Qed.

(** The shape of a run that gets past [os.makedirs] and [os.listdir]. *)
Lemma process_folder_run (folder_path output_folder : pystr) (w w1 : world) :
  fs_isdir (w_fs w) folder_path = true ->
  os_makedirs output_folder w = (Ok tt, w1) ->
  fs_refused (w_fs w) ListDirectory (components folder_path) = None ->
  match discovered U folder_path output_folder w with
  | [] =>
      process_folder U folder_path output_folder w
      = (Ok false,
         World (w_fs w1)
           (w_log w1 ++ [LogNoImages folder_path; LogNameFormatHint]))
  | files =>
      exists s e w2,
        for_each files (process_file U folder_path output_folder) (0, 0)%nat
          (World (w_fs w1) (w_log w1 ++ [LogFound (length files)]))
        = (Ok (s, e), w2) /\
        process_folder U folder_path output_folder w
        = (Ok true, World (w_fs w2) (w_log w2 ++ [LogFinished s e]))
  end.
Proof.
  intros Hdir Hmk Hlist.
  pose proof (os_makedirs_is_dir output_folder w (components folder_path)) as Hkeep.
  pose proof (os_makedirs_refused output_folder w) as Hos.
  rewrite Hmk in Hkeep, Hos. simpl in Hkeep, Hos. rewrite <-Hos in Hlist.
  assert (fs_isdir (w_fs w1) folder_path = true) as Hdir1.
  { unfold fs_isdir in *. destruct folder_path; [done|]. by apply Hkeep. }
  destruct (discovered U folder_path output_folder w) as [|f files] eqn:Hfiles;
    unfold discovered in Hfiles; rewrite Hmk in Hfiles; simpl in Hfiles;
    unfold process_folder;
    unfold bind at 1; unfold os_path_isdir at 1; rewrite Hdir; change (negb true) with false; cbv iota;
    unfold bind at 1; rewrite Hmk;
    unfold bind at 1; rewrite (os_listdir_dir _ _ Hdir1 Hlist); rewrite Hfiles.
  - unfold bind, appendLog_, ret. simpl. by rewrite <-app_assoc.
  - unfold bind at 1. unfold appendLog_ at 1. unfold bind at 1.
    destruct (process_files_return U folder_path output_folder (f :: files)
                (0, 0)%nat
                (World (w_fs w1) (w_log w1 ++ [LogFound (length (f :: files))])))
      as ([s e] & w2 & Hrun).
    exists s, e, w2. split; [exact Hrun|]. cbn [w_fs w_log]. by rewrite Hrun.
Qed.

End Counting.

(** X21.  Every candidate is counted at most once: a run that returns
    [True] ends its log with the final tally, whose successes and failures
    together do not exceed the number of candidates found, and equal it
    when every candidate has a base name. *)
Theorem process_folder_counts (U : digit_class)
    (folder_path output_folder : pystr) (w w' : world) :
  process_folder U folder_path output_folder w = (Ok true, w') ->
  exists s e : nat,
    last (w_log w') = Some (LogFinished s e) /\
    (s + e <= length (discovered U folder_path output_folder w))%nat /\
    ((forall f, f ∈ discovered U folder_path output_folder w ->
        is_Some (get_base_filename U f)) ->
     (s + e = length (discovered U folder_path output_folder w))%nat).
Proof.
  intros Hrun.
  pose proof (process_folder_cases U folder_path output_folder w) as Hcases.
  rewrite Hrun in Hcases. destruct Hcases as [[Htrue _] Hmk].
  destruct (Htrue eq_refl) as [Hdir Hfound]. destruct (Hmk Hdir) as [Hlist [w1 Hw1]].
  pose proof (process_folder_run U folder_path output_folder w w1 Hdir Hw1 Hlist)
    as Hshape.
  assert (Forall (fun f => is_image_file U f = true)
            (discovered U folder_path output_folder w)) as Hcand.
  { apply Forall_forall. intros f Hf. unfold discovered in Hf.
    by apply list_elem_of_filter in Hf as [Hf _]. }
  destruct (discovered U folder_path output_folder w) as [|f files]; [done|].
  destruct Hshape as (s & e & w2 & Hloop & Hend).
  rewrite Hrun in Hend. injection Hend as ->.
  exists s, e. cbn [w_log]. split; [by rewrite last_snoc|].
  apply process_files_counts in Hloop as [Hle Heq]. simpl in Hle, Heq.
  split; [simpl; lia|]. intros Hbase. simpl. apply Heq.
  apply Forall_forall. intros x Hx. split.
  - rewrite Forall_forall in Hcand. by apply Hcand.
  - by apply Hbase.
Qed.

Lemma process_folder_counts_witness :
  let w' := snd (process_folder ascii_digits (py "in") (py "out")
                   world_one_page_file) in
  exists s e : nat,
    last (w_log w') = Some (LogFinished s e) /\
    (s + e <= length (discovered ascii_digits (py "in") (py "out")
                        world_one_page_file))%nat /\
    ((forall f, f ∈ discovered ascii_digits (py "in") (py "out")
                      world_one_page_file ->
        is_Some (get_base_filename ascii_digits f)) ->
     (s + e = length (discovered ascii_digits (py "in") (py "out")
                        world_one_page_file))%nat).
Proof.
  intros w'.
  apply (process_folder_counts ascii_digits (py "in") (py "out")
           world_one_page_file w').
  vm_compute. reflexivity.
Defined.

(** X22.  After a run that returns, on an input folder that exists, the
    output folder exists, whether or not any candidate was found. *)
Theorem process_folder_output_folder (U : digit_class)
    (folder_path output_folder : pystr) (w w' : world) (success : bool) :
  fs_isdir (w_fs w) folder_path = true ->
  process_folder U folder_path output_folder w = (Ok success, w') ->
  fs_isdir (w_fs w') output_folder = true.
Proof.
  intros Hdir Hrun.
  pose proof (process_folder_cases U folder_path output_folder w) as Hcases.
  rewrite Hrun in Hcases. destruct Hcases as [_ Hmk].
  destruct (Hmk Hdir) as [Hlist [w1 Hw1]].
  pose proof (os_makedirs_ok_dir _ _ _ Hw1) as Hout.
  pose proof (process_folder_run U folder_path output_folder w w1 Hdir Hw1 Hlist)
    as Hshape.
  destruct (discovered U folder_path output_folder w) as [|f files].
  - rewrite Hrun in Hshape. by injection Hshape as _ ->.
  - destruct Hshape as (s & e & w2 & Hloop & Hend).
    rewrite Hrun in Hend. injection Hend as _ ->. cbn [w_fs].
    pose proof (advancing_for_each (f :: files)
                  (process_file U folder_path output_folder)
                  (fun x c => advancing_process_file U folder_path output_folder x c)
                  (0, 0)%nat
                  (World (w_fs w1) (w_log w1 ++ [LogFound (length (f :: files))])))
      as (_ & Hdirs & _).
    rewrite Hloop in Hdirs. simpl in Hdirs.
    unfold fs_isdir in *. destruct output_folder; [done|]. by apply Hdirs.
Qed.

Lemma process_folder_output_folder_witness :
  fs_isdir (w_fs (snd (process_folder ascii_digits (py "in") (py "out/pages")
                         world_empty_folder)))
           (py "out/pages") = true.
Proof.
  apply (process_folder_output_folder ascii_digits (py "in") (py "out/pages")
           world_empty_folder _ false).
  - reflexivity.
  - vm_compute. reflexivity.
Defined.

(** X23.  The path of the document has the extension Pillow needs, unless
    the base name consists of dots only: for [.-3.png] the document name
    [..pdf] has no extension and [images_to_pdf] cannot pick a format. *)
Theorem document_path_extension (output_folder base : pystr) :
  ch_slash ∉ base ->
  (has_pdf_extension (os_path_join output_folder (base ++ py ".pdf")) = true
   <-> exists c, c ∈ base /\ c <> ch_dot).
Proof.
  intros Hb. rewrite has_pdf_extension_document by done.
  rewrite negb_true_iff. split.
  - intros H. induction base as [|c base IH]; [done|]. simpl in H.
    destruct (N.eqb_spec c ch_dot) as [->|Hc].
    + simpl in H. destruct IH as (c' & Hc' & Hne); [|done|].
      * intros Hin. apply Hb. by right.
      * exists c'. split; [by right|done].
    + exists c. split; [by left|done].
  - intros (c & Hc & Hne). apply not_true_iff_false. intros H.
    rewrite forallb_forall in H. apply list_elem_of_In, H in Hc.
    by apply N.eqb_eq in Hc.
Qed.

Lemma document_path_extension_witness :
  has_pdf_extension (os_path_join (py "out") (py "report" ++ py ".pdf")) = true
  <-> exists c, c ∈ py "report" /\ c <> ch_dot.
Proof.
  apply (document_path_extension (py "out") (py "report")).
  apply (bool_decide_unpack _). vm_compute. exact I.
Defined.

Lemma page_file_name_not_document (base ds e : pystr) :
  page_file_name base ds e <> base ++ py ".pdf".
Proof. unfold page_file_name. intros H. by apply app_inv_head in H. Qed.

Lemma page_file_name_not_strip (base e : pystr) (n i : nat) :
  page_file_name base (py_str_nat n) e <> strip_name base i.
Proof.
  unfold page_file_name, strip_name. intros H. apply app_inv_head in H.
  injection H as H.
  pose proof (py_str_nat_digits ascii_digits n) as Hd.
  pose proof (py_str_nat_nonempty n) as Hne.
  destruct (py_str_nat n) as [|c ds]; [done|].
  injection H as -> _. by apply Forall_cons in Hd as [Hd _].
Qed.

Lemma write_strips_again (d : list pystr) (base : pystr) (images : list image)
    (start : nat) (key : list pystr) (v : node) (fs : filesystem) :
  (forall k, (k < length images)%nat -> key <> d ++ [strip_name base (start + k)]) ->
  write_strips d base start images
    (<[key := v]> (write_strips d base start images fs))
  = <[key := v]> (write_strips d base start images fs).
Proof.
  intros Hkey. apply fs_eq; [|by rewrite !write_strips_refused]. intros k.
  destruct (decide (k ∈ (fun i => d ++ [strip_name base (start + i)])
                         <$> seq 0 (length images))) as [Hin|Hout].
  - apply list_elem_of_fmap in Hin as (i & -> & Hi). apply elem_of_seq in Hi.
    destruct (lookup_lt_is_Some_2 images i ltac:(lia)) as [img Himg].
    rewrite (lookup_write_strips _ _ _ _ _ _ _ Himg).
    rewrite fs_lookup_insert_ne by (apply Hkey; lia).
    by rewrite (lookup_write_strips _ _ _ _ _ _ _ Himg).
  - rewrite lookup_write_strips_other; [done|].
    intros i Hi ->. apply Hout. apply list_elem_of_fmap. exists i.
    split; [done|]. apply elem_of_seq. lia.
Qed.

(** X24.  Processing the same file a second time is harmless: with the
    hypotheses of a successful first run, the second run succeeds as well
    and leaves every file as the first run left it: the same strips, and a
    document of the same pages and resolution.  (A document is its pages
    and its resolution here; what else the library writes into the file,
    such as dates, is outside the model.) *)
Theorem process_file_again (U : digit_class)
    (folder_path output_folder base e : pystr) (n : nat)
    (fmt : image_format) (img : image) (counts counts' : nat * nat) (w : world) :
  let filename := page_file_name base (py_str_nat n) e in
  let run := process_file U folder_path output_folder filename in
  let w1 := snd (run counts w) in
  base <> [] -> ch_lf ∉ base -> ch_slash ∉ base ->
  forallb (fun c => N.eqb c ch_dot) base = false ->
  e ∈ extensions ->
  (1 <= n)%nat -> (length (py_str_nat n) <= int_max_str_digits)%nat ->
  w_fs w !! (components folder_path ++ [filename])
    = Some (File (ImageFile fmt img)) ->
  fs_refused (w_fs w) ReadFile (components folder_path ++ [filename]) = None ->
  png_writes (img_mode img) = true -> img_mode img <> ModeI16 ->
  0 < img_width img -> Z.of_nat n <= img_height img ->
  fs_is_dir (w_fs w) (components output_folder) = true ->
  (forall k, (k < n)%nat ->
     w_fs w !! (components output_folder ++ [strip_name base (S k)]) <> Some Dir) ->
  w_fs w !! (components output_folder ++ [base ++ py ".pdf"]) <> Some Dir ->
  (forall k, (k < n)%nat ->
     fs_refused (w_fs w) WriteFile
       (components output_folder ++ [strip_name base (S k)]) = None) ->
  fs_refused (w_fs w) WriteFile
    (components output_folder ++ [base ++ py ".pdf"]) = None ->
  fst (run counts' w1) = Ok (S (fst counts'), snd counts') /\
  w_fs (snd (run counts' w1)) = w_fs w1.
Proof.
  intros filename run w1 Hne Hlf Hslash Hdots He Hn Hlen Hfile Hread Hpng Hmode
    Hwidth Hheight Hout Hfree Hdoc Hos Hosdoc.
  assert (length (strip_of img (Z.of_nat n) <$> py_range (Z.of_nat n)) = n)
    as Hcount.
  { unfold py_range. rewrite length_fmap, length_seqZ. lia. }
  subst w1 run filename.
  rewrite (process_file_written U _ _ _ _ _ fmt img counts w) by done.
  cbn [snd].
  rewrite (process_file_written U _ _ _ _ _ fmt img counts').
  - cbn [fst snd w_fs]. split; [done|].
    rewrite write_strips_again; [by rewrite fs_insert_insert_eq|].
    intros k _. apply document_key_not_strip.
  - done.
  - done.
  - done.
  - done.
  - done.
  - done.
  - done.
  - cbn [w_fs]. rewrite fs_lookup_insert_ne.
    2:{ intros H. apply app_inj_tail in H as [_ H].
        by apply eq_sym, page_file_name_not_document in H. }
    rewrite lookup_write_strips_other; [done|].
    intros k _ H. apply app_inj_tail in H as [_ H].
    by apply page_file_name_not_strip in H.
  - cbn [w_fs]. by rewrite fs_refused_insert, write_strips_refused.
  - done.
  - done.
  - done.
  - done.
  - cbn [w_fs]. apply fs_is_dir_insert_file; [apply entry_not_dir|].
    by apply write_strips_is_dir.
  - intros k Hk. cbn [w_fs].
    rewrite fs_lookup_insert_ne by apply document_key_not_strip.
    by rewrite lookup_strips_written.
  - cbn [w_fs]. by rewrite fs_lookup_insert_eq.
  - intros k Hk. cbn [w_fs].
    rewrite fs_refused_insert, write_strips_refused. by apply Hos.
  - cbn [w_fs]. by rewrite fs_refused_insert, write_strips_refused.
Qed.

Lemma process_file_again_witness :
  let run := process_file ascii_digits (py "in") (py "in") (py "report-3.png") in
  let w1 := snd (run (0, 0)%nat world_one_page_file) in
  fst (run (1, 0)%nat w1) = Ok (2, 0)%nat /\
  w_fs (snd (run (1, 0)%nat w1)) = w_fs w1.
Proof.
  intros run w1.
  apply (process_file_again ascii_digits (py "in") (py "in") (py "report")
           (py "png") 3 PNG sample_image (0, 0)%nat (1, 0)%nat world_one_page_file).
  - done.
  - apply (bool_decide_unpack _). vm_compute. exact I.
  - apply (bool_decide_unpack _). vm_compute. exact I.
  - reflexivity.
  - apply (bool_decide_unpack _). vm_compute. exact I.
  - lia.
  - vm_compute. lia.
  - reflexivity.
  - reflexivity.
  - reflexivity.
  - done.
  - reflexivity.
  - vm_compute. discriminate.
  - reflexivity.
  - intros k Hk. destruct k as [|[|[|k]]]; [vm_compute; discriminate..|lia].
  - vm_compute. discriminate.
  - intros k Hk. reflexivity.
  - reflexivity.
Defined.
